(** * deen: the encoder widget chain (src/deen/widgets/encoder.py)

    A shallow embedding of [EncoderWidget] and [DeenWidget]: the list of
    widgets owned by the encoder, the content buffer of every widget, the
    Qt state the chain logic reads back (read-only flag, style sheet, focus,
    combo box indices, labels) and the methods that mutate them.

    Representation choices.
    - [self.parent.widgets] is a Python list that only grows and shrinks at
      its end ([append] in [next], [pop] in [remove_next_widgets]); every
      widget occurs in it once.  A widget is therefore identified by its
      position in the list, [w == self] is equality of positions and
      [widgets.index(w)] is the position itself.
    - The Qt signals connected in [DeenWidget.__init__] and
      [create_action_panel] are synchronous calls of the connected slot:
      [text_field.textChanged] and [hex_field.bytesChanged] call
      [field_content_changed], [currentIndexChanged] of a combo box calls
      [action(combo)].  [QTextEdit.setPlainText] and [QTextEdit.clear] emit
      [textChanged]; [QComboBox.setCurrentIndex] emits [currentIndexChanged]
      when the index changes.  The slots re-enter the methods below, so the
      two slots are defined by recursion on a fuel argument that bounds the
      nesting depth of signal emissions.
    - Python exceptions and exhausted fuel are results of their own
      ([Raise], [OutOfFuel]). *)

From Stdlib Require Import ZArith Bool Lia Ascii String DecimalString.
From stdpp Require Import list strings.

Open Scope string_scope.
Open Scope nat_scope.

(** ** Bytes, text and the UTF-8 codec *)

(** A [bytearray]: integers in 0..255. *)
Definition bytes := list Z.

(** A Python [str] / [QString]: a sequence of code points. *)
Definition unicode := list Z.

Definition codes (s : string) : list Z :=
  map (fun a => Z.of_nat (nat_of_ascii a)) (list_ascii_of_string s).

(** Python's [string.printable]:
    digits + ascii_letters + punctuation + whitespace. *)
Definition string_digits : list Z := codes "0123456789".
Definition string_ascii_letters : list Z :=
  codes "abcdefghijklmnopqrstuvwxyzABCDEFGHIJKLMNOPQRSTUVWXYZ".
Definition string_punctuation : list Z :=
  codes "!" ++ [34%Z] ++ codes "#$%&'()*+,-./:;<=>?@[\]^_`{|}~".
Definition string_whitespace : list Z := [32; 9; 10; 13; 11; 12]%Z.
Definition string_printable : list Z :=
  string_digits ++ string_ascii_letters ++ string_punctuation
  ++ string_whitespace.

(** [chr(c) in string.printable] *)
Definition printable (c : Z) : bool := existsb (Z.eqb c) string_printable.

(** [all(chr(c) in string.printable for c in data)] *)
Definition all_printable (data : bytes) : bool := forallb printable data.

(** [bytearray(text, 'utf8')], one code point at a time. *)
Definition utf8_of_code_point (c : Z) : bytes :=
  if (c <? 128)%Z then [c]
  else if (c <? 2048)%Z then
    [Z.lor 192 (Z.shiftr c 6); Z.lor 128 (Z.land c 63)]
  else if (c <? 65536)%Z then
    [Z.lor 224 (Z.shiftr c 12); Z.lor 128 (Z.land (Z.shiftr c 6) 63);
     Z.lor 128 (Z.land c 63)]
  else
    [Z.lor 240 (Z.shiftr c 18); Z.lor 128 (Z.land (Z.shiftr c 12) 63);
     Z.lor 128 (Z.land (Z.shiftr c 6) 63); Z.lor 128 (Z.land c 63)].

Definition utf8 (text : unicode) : bytes :=
  flat_map utf8_of_code_point text.

Definition continuation (b : Z) : bool := (128 <=? b)%Z && (b <? 192)%Z.

(** [QTextCodec.codecForName('UTF-8').toUnicode]: a byte that does not
    start a well-formed sequence is replaced by U+FFFD. *)
Fixpoint toUnicode (data : bytes) : unicode :=
  match data with
  | [] => []
  | b :: r =>
    if (b <? 128)%Z then b :: toUnicode r
    else
      match r with
      | c1 :: r1 =>
        if (194 <=? b)%Z && (b <? 224)%Z && continuation c1 then
          Z.lor (Z.shiftl (Z.land b 31) 6) (Z.land c1 63) :: toUnicode r1
        else
          match r1 with
          | c2 :: r2 =>
            if (224 <=? b)%Z && (b <? 240)%Z && continuation c1
               && continuation c2 then
              Z.lor (Z.shiftl (Z.land b 15) 12)
                (Z.lor (Z.shiftl (Z.land c1 63) 6) (Z.land c2 63))
              :: toUnicode r2
            else
              match r2 with
              | c3 :: r3 =>
                if (240 <=? b)%Z && (b <? 245)%Z && continuation c1
                   && continuation c2 && continuation c3 then
                  Z.lor (Z.shiftl (Z.land b 7) 18)
                    (Z.lor (Z.shiftl (Z.land c1 63) 12)
                       (Z.lor (Z.shiftl (Z.land c2 63) 6) (Z.land c3 63)))
                  :: toUnicode r3
                else 65533%Z :: toUnicode r
              | [] => 65533%Z :: toUnicode r
              end
          | [] => 65533%Z :: toUnicode r
          end
      | [] => 65533%Z :: toUnicode r
      end
  end.

(** [str(n)] for a length. *)
Definition str_of_nat (n : nat) : string :=
  DecimalString.NilEmpty.string_of_uint (Nat.to_uint n).

(** ** Results: a value, a Python exception, or exhausted fuel *)

Inductive result (A : Type) : Type :=
| Ok (a : A)
| Raise (e : string)
| OutOfFuel.
Arguments Ok {A} a.
Arguments Raise {A} e.
Arguments OutOfFuel {A}.

Global Instance result_ret : MRet result := fun A a => Ok a.

Global Instance result_bind : MBind result := fun A B f m =>
  match m with
  | Ok a => f a
  | Raise e => Raise e
  | OutOfFuel => OutOfFuel
  end.

(** ** The widgets *)

(** deen.widgets.text.TextViewWidget, as far as encoder.py uses it. *)
Record TextViewWidget := mkTextViewWidget {
  toPlainText : unicode;
  isReadOnly : bool;
  styleSheet : string;
  text_hasFocus : bool;
  text_isHidden : bool
}.

(** deen.widgets.hex.HexViewWidget, as far as encoder.py uses it. *)
Record HexViewWidget := mkHexViewWidget {
  hex_content : bytes;
  _read_only : bool;
  hex_hasFocus : bool;
  hex_isHidden : bool
}.

Record QLabel := mkQLabel {
  label_text : string;
  label_isHidden : bool
}.

(** The six combo boxes of an action panel. *)
Inductive Combo :=
| encoding_combo | decoding_combo | compress_combo
| uncompress_combo | hash_combo | misc_combo.

Global Instance Combo_eq_dec : EqDecision Combo.
Proof. solve_decision. Defined.

(** [combo.model().item(0).text()]: the category placeholder. *)
Definition placeholder (c : Combo) : string :=
  match c with
  | encoding_combo => "Encode"
  | decoding_combo => "Decode"
  | compress_combo => "Compress"
  | uncompress_combo => "Uncompress"
  | hash_combo => "Hash"
  | misc_combo => "Miscellaneous"
  end.

(** [currentIndex()] of each combo box of one widget. *)
Record Combos := mkCombos {
  encoding_index : nat;
  decoding_index : nat;
  compress_index : nat;
  uncompress_index : nat;
  hash_index : nat;
  misc_index : nat
}.

Definition currentIndex (c : Combo) (cs : Combos) : nat :=
  match c with
  | encoding_combo => encoding_index cs
  | decoding_combo => decoding_index cs
  | compress_combo => compress_index cs
  | uncompress_combo => uncompress_index cs
  | hash_combo => hash_index cs
  | misc_combo => misc_index cs
  end.

Definition with_index (c : Combo) (k : nat) (cs : Combos) : Combos :=
  match c with
  | encoding_combo =>
    mkCombos k (decoding_index cs) (compress_index cs) (uncompress_index cs)
      (hash_index cs) (misc_index cs)
  | decoding_combo =>
    mkCombos (encoding_index cs) k (compress_index cs) (uncompress_index cs)
      (hash_index cs) (misc_index cs)
  | compress_combo =>
    mkCombos (encoding_index cs) (decoding_index cs) k (uncompress_index cs)
      (hash_index cs) (misc_index cs)
  | uncompress_combo =>
    mkCombos (encoding_index cs) (decoding_index cs) (compress_index cs) k
      (hash_index cs) (misc_index cs)
  | hash_combo =>
    mkCombos (encoding_index cs) (decoding_index cs) (compress_index cs)
      (uncompress_index cs) k (misc_index cs)
  | misc_combo =>
    mkCombos (encoding_index cs) (decoding_index cs) (compress_index cs)
      (uncompress_index cs) (hash_index cs) k
  end.

Record DeenWidget := mkDeenWidget {
  readonly : bool;
  current_pick : option string;
  current_combo : option Combo;
  text_field : TextViewWidget;
  hex_field : HexViewWidget;
  _content : bytes;
  hex_view : bool;
  action_panel_isHidden : bool;
  length_field : string;
  readonly_field : string;
  codec_field : QLabel;
  combos : Combos
}.

(** The encoder: [self.widgets], and the records handed to [LOGGER.error].
    [encoder_layout] holds the same widgets in the same order and is not
    kept apart. *)
Record EncoderWidget := mkEncoderWidget {
  widgets : list DeenWidget;
  LOGGER : list string
}.

(** *** Field updates *)

Definition setPlainText_ (t : unicode) (f : TextViewWidget) : TextViewWidget :=
  mkTextViewWidget t (isReadOnly f) (styleSheet f) (text_hasFocus f)
    (text_isHidden f).
Definition setReadOnly_ (b : bool) (f : TextViewWidget) : TextViewWidget :=
  mkTextViewWidget (toPlainText f) b (styleSheet f) (text_hasFocus f)
    (text_isHidden f).
Definition setStyleSheet_ (c : string) (f : TextViewWidget) : TextViewWidget :=
  mkTextViewWidget (toPlainText f) (isReadOnly f) c (text_hasFocus f)
    (text_isHidden f).
Definition text_setFocus_ (b : bool) (f : TextViewWidget) : TextViewWidget :=
  mkTextViewWidget (toPlainText f) (isReadOnly f) (styleSheet f) b
    (text_isHidden f).
Definition text_setHidden_ (b : bool) (f : TextViewWidget) : TextViewWidget :=
  mkTextViewWidget (toPlainText f) (isReadOnly f) (styleSheet f)
    (text_hasFocus f) b.

Definition hex_set_content_ (d : bytes) (h : HexViewWidget) : HexViewWidget :=
  mkHexViewWidget d (_read_only h) (hex_hasFocus h) (hex_isHidden h).
Definition hex_set_read_only_ (b : bool) (h : HexViewWidget) : HexViewWidget :=
  mkHexViewWidget (hex_content h) b (hex_hasFocus h) (hex_isHidden h).
Definition hex_setFocus_ (b : bool) (h : HexViewWidget) : HexViewWidget :=
  mkHexViewWidget (hex_content h) (_read_only h) b (hex_isHidden h).
Definition hex_setHidden_ (b : bool) (h : HexViewWidget) : HexViewWidget :=
  mkHexViewWidget (hex_content h) (_read_only h) (hex_hasFocus h) b.

Definition set_current_pick (p : option string) (w : DeenWidget) :=
  mkDeenWidget (readonly w) p (current_combo w) (text_field w) (hex_field w)
    (_content w) (hex_view w) (action_panel_isHidden w) (length_field w)
    (readonly_field w) (codec_field w) (combos w).
Definition set_current_combo (c : option Combo) (w : DeenWidget) :=
  mkDeenWidget (readonly w) (current_pick w) c (text_field w) (hex_field w)
    (_content w) (hex_view w) (action_panel_isHidden w) (length_field w)
    (readonly_field w) (codec_field w) (combos w).
Definition on_text_field (f : TextViewWidget -> TextViewWidget)
    (w : DeenWidget) :=
  mkDeenWidget (readonly w) (current_pick w) (current_combo w)
    (f (text_field w)) (hex_field w) (_content w) (hex_view w)
    (action_panel_isHidden w) (length_field w) (readonly_field w)
    (codec_field w) (combos w).
Definition on_hex_field (f : HexViewWidget -> HexViewWidget)
    (w : DeenWidget) :=
  mkDeenWidget (readonly w) (current_pick w) (current_combo w)
    (text_field w) (f (hex_field w)) (_content w) (hex_view w)
    (action_panel_isHidden w) (length_field w) (readonly_field w)
    (codec_field w) (combos w).
Definition set__content (d : bytes) (w : DeenWidget) :=
  mkDeenWidget (readonly w) (current_pick w) (current_combo w)
    (text_field w) (hex_field w) d (hex_view w) (action_panel_isHidden w)
    (length_field w) (readonly_field w) (codec_field w) (combos w).
Definition set_hex_view (b : bool) (w : DeenWidget) :=
  mkDeenWidget (readonly w) (current_pick w) (current_combo w)
    (text_field w) (hex_field w) (_content w) b (action_panel_isHidden w)
    (length_field w) (readonly_field w) (codec_field w) (combos w).
Definition set_action_panel_isHidden (b : bool) (w : DeenWidget) :=
  mkDeenWidget (readonly w) (current_pick w) (current_combo w)
    (text_field w) (hex_field w) (_content w) (hex_view w) b
    (length_field w) (readonly_field w) (codec_field w) (combos w).
Definition set_length_field (t : string) (w : DeenWidget) :=
  mkDeenWidget (readonly w) (current_pick w) (current_combo w)
    (text_field w) (hex_field w) (_content w) (hex_view w)
    (action_panel_isHidden w) t (readonly_field w) (codec_field w)
    (combos w).
Definition set_readonly_field (t : string) (w : DeenWidget) :=
  mkDeenWidget (readonly w) (current_pick w) (current_combo w)
    (text_field w) (hex_field w) (_content w) (hex_view w)
    (action_panel_isHidden w) (length_field w) t (codec_field w) (combos w).
Definition set_codec_field (l : QLabel) (w : DeenWidget) :=
  mkDeenWidget (readonly w) (current_pick w) (current_combo w)
    (text_field w) (hex_field w) (_content w) (hex_view w)
    (action_panel_isHidden w) (length_field w) (readonly_field w) l
    (combos w).
Definition set_combos (cs : Combos) (w : DeenWidget) :=
  mkDeenWidget (readonly w) (current_pick w) (current_combo w)
    (text_field w) (hex_field w) (_content w) (hex_view w)
    (action_panel_isHidden w) (length_field w) (readonly_field w)
    (codec_field w) cs.

(** Apply [f] to the widget at position [i] (nothing happens when [i] is
    not a position of the list: the object is no longer in the chain). *)
Definition modify (i : nat) (f : DeenWidget -> DeenWidget)
    (s : EncoderWidget) : EncoderWidget :=
  mkEncoderWidget (alter f i (widgets s)) (LOGGER s).

(** [self.parent.widgets[i]] *)
Definition widget_at (i : nat) (s : EncoderWidget) : result DeenWidget :=
  match widgets s !! i with
  | Some w => Ok w
  | None => Raise "IndexError"
  end.

(** [LOGGER.error(e)] *)
Definition LOGGER_error (e : string) (s : EncoderWidget) : EncoderWidget :=
  mkEncoderWidget (widgets s) (LOGGER s ++ [e]).

(** ** The operation registry and the runtime

    [deen.core] and [deen.transformers.core] are not part of this file:
    the four name lists, the transformer and the certificate parser are
    taken as they come.  [decode] and [uncompress] return the output and
    the error ([None] when there is none); the parser either returns its
    output or raises [crypto.Error].  [crypto] tells whether the OpenSSL
    import at the top of the module succeeded.  [hex_content_emits] tells
    whether assigning [hex_field.content] emits [bytesChanged]. *)
Record Runtime := mkRuntime {
  ENCODINGS : list string;
  COMPRESSIONS : list string;
  HASHS : list string;
  MISC : list string;
  encode : string -> bytes -> bytes;
  decode : string -> bytes -> bytes * option string;
  compress : string -> bytes -> bytes;
  uncompress : string -> bytes -> bytes * option string;
  hash : string -> bytes -> bytes;
  X509Certificate_decode : bytes -> bytes + string;
  crypto : bool;
  hex_content_emits : bool
}.

(** [x in names] for a name that may be [None]. *)
Definition pick_in (p : option string) (names : list string) : bool :=
  match p with
  | Some x => existsb (String.eqb x) names
  | None => false
  end.

(** [p == name] for a name that may be [None]. *)
Definition pick_is (p : option string) (name : string) : bool :=
  match p with
  | Some x => String.eqb x name
  | None => false
  end.

(** Truth value of [self.current_pick]: [None] and [''] are false. *)
Definition truthy (p : option string) : bool :=
  match p with
  | Some x => negb (String.eqb x "")
  | None => false
  end.

(** The entries of a combo box, as [create_action_panel] fills it. *)
Definition combo_items (R : Runtime) (c : Combo) : list string :=
  placeholder c ::
  match c with
  | encoding_combo | decoding_combo => ENCODINGS R
  | compress_combo | uncompress_combo => COMPRESSIONS R
  | hash_combo => HASHS R ++ ["ALL"]
  | misc_combo => MISC R
  end.

(** [combo.currentText()] *)
Definition currentText (R : Runtime) (c : Combo) (w : DeenWidget) : string :=
  default "" (combo_items R c !! currentIndex c (combos w)).

(** [DeenWidget.__init__(parent, readonly, enable_actions)] *)
Definition DeenWidget_init (readonly enable_actions : bool) : DeenWidget :=
  mkDeenWidget readonly None None
    (mkTextViewWidget [] readonly "" false false)
    (mkHexViewWidget [] readonly false true)
    [] false (negb enable_actions)
    ("Length: " +:+ str_of_nat 0)
    (if readonly then "R-" else "RW")
    (mkQLabel "" true)
    (mkCombos 0 0 0 0 0 0).

(** [EncoderWidget.__init__] *)
Definition EncoderWidget_init : EncoderWidget :=
  mkEncoderWidget [DeenWidget_init false true] [].

(** ** Navigation in the chain *)

(** [has_previous]: [True if self.parent.widgets[0] != self else False] *)
Definition has_previous (self : nat) (s : EncoderWidget) : bool :=
  negb (0 =? self).

(** [has_next]: [True if self.parent.widgets[-1] != self else False] *)
Definition has_next (self : nat) (s : EncoderWidget) : bool :=
  negb (length (widgets s) - 1 =? self).

(** The two kinds of Python objects that [previous] compares. *)
Inductive pyobject :=
| PyBool (b : bool)
| PyWidget (position : nat).

(** [a == b]: a [bool] and a [QWidget] are never equal. *)
Definition py_eq (a b : pyobject) : bool :=
  match a, b with
  | PyBool x, PyBool y => Bool.eqb x y
  | PyWidget i, PyWidget j => i =? j
  | _, _ => false
  end.

(** [previous]; [None] is Python's [None] (the loop found nothing).
    [widgets[i - 1]] with [i = 0] is the last widget. *)
Definition previous (self : nat) (s : EncoderWidget) : option nat :=
  if negb (py_eq (PyBool (has_previous self s)) (PyWidget self)) then
    Some self
  else if self <? length (widgets s) then
    Some (if self =? 0 then length (widgets s) - 1 else self - 1)
  else None.

(** The loop of [remove_next_widgets]; [k] bounds the number of rounds
    (every round pops one widget). *)
Fixpoint remove_loop (k index : nat) (l : list DeenWidget)
    : list DeenWidget :=
  match k with
  | 0 => l
  | S k =>
    if length l =? index then l
    else if length l =? 1 then l
    else remove_loop k index (removelast l)
  end.

(** [remove_next_widgets(widget, offset)] *)
Definition remove_next_widgets (self : nat) (widget : option nat)
    (offset : nat) (s : EncoderWidget) : result EncoderWidget :=
  let widget := default self widget in
  if widget <? length (widgets s) then
    Ok (mkEncoderWidget
          (remove_loop (length (widgets s)) (widget + offset) (widgets s))
          (LOGGER s))
  else Raise "ValueError".

(** [update_length_field(widget)] *)
Definition update_length_field (widget : nat) (s : EncoderWidget)
    : EncoderWidget :=
  modify widget
    (fun w =>
       set_length_field ("Length: " +:+ str_of_nat (length (_content w))) w)
    s.

(** [update_readonly_field(widget)] *)
Definition update_readonly_field (widget : nat) (s : EncoderWidget)
    : EncoderWidget :=
  modify widget
    (fun w =>
       set_readonly_field
         (if isReadOnly (text_field w) then "R-" else "RW") w)
    s.

(** [next]: the following widget, appended first when [self] is the last
    one.  When [self] is not in the list the loop returns [None], which
    every caller dereferences. *)
Definition next (self : nat) (s : EncoderWidget)
    : result (nat * EncoderWidget) :=
  if negb (has_next self s) then
    Ok (length (widgets s),
        mkEncoderWidget (widgets s ++ [DeenWidget_init true false])
          (LOGGER s))
  else if S self <? length (widgets s) then Ok (S self, s)
  else Raise "AttributeError".

(** ** The methods, over the slots connected to the signals *)

Section Methods.

Variable R : Runtime.

(** [textChanged] / [bytesChanged] of the fields of widget [self]. *)
Variable emit_changed : nat -> EncoderWidget -> result EncoderWidget.

(** [currentIndexChanged] of combo box [c] of widget [self]. *)
Variable emit_currentIndexChanged :
  nat -> Combo -> EncoderWidget -> result EncoderWidget.

(** [text_field.setPlainText(t)] *)
Definition setPlainText (self : nat) (t : unicode) (s : EncoderWidget)
    : result EncoderWidget :=
  emit_changed self (modify self (on_text_field (setPlainText_ t)) s).

(** [hex_field.content = d] *)
Definition hex_field_set_content (self : nat) (d : bytes)
    (s : EncoderWidget) : result EncoderWidget :=
  let s := modify self (on_hex_field (hex_set_content_ d)) s in
  if hex_content_emits R then emit_changed self s else Ok s.

(** [combo.setCurrentIndex(k)] *)
Definition setCurrentIndex (self : nat) (c : Combo) (k : nat)
    (s : EncoderWidget) : result EncoderWidget :=
  w ← widget_at self s;
  if currentIndex c (combos w) =? k then Ok s
  else
    emit_currentIndexChanged self c
      (modify self (fun w => set_combos (with_index c k (combos w)) w) s).

(** The setter of the [content] property. *)
Definition content_setter (self : nat) (data : bytes) (s : EncoderWidget)
    : result EncoderWidget :=
  let s := modify self (set__content data) s in
  w ← widget_at self s;
  if hex_view w then hex_field_set_content self (_content w) s
  else
    let s :=
      if negb (all_printable (_content w)) then
        modify self (on_text_field (setReadOnly_ true)) s
      else s in
    setPlainText self (toUnicode (_content w)) s.

(** [view_text] *)
Definition view_text (self : nat) (s : EncoderWidget)
    : result EncoderWidget :=
  let s := modify self (set_hex_view false) s in
  let s := modify self (on_text_field (text_setHidden_ false)) s in
  let s := modify self (on_hex_field (hex_setHidden_ true)) s in
  w ← widget_at self s;
  match _content w with
  | [] => Ok s
  | _ => setPlainText self (toUnicode (_content w)) s
  end.

(** [view_hex] *)
Definition view_hex (self : nat) (s : EncoderWidget)
    : result EncoderWidget :=
  let s := modify self (set_hex_view true) s in
  let s := modify self (on_text_field (text_setHidden_ true)) s in
  let s := modify self (on_hex_field (hex_setHidden_ false)) s in
  let s :=
    modify self
      (fun w =>
         on_hex_field (hex_set_read_only_ (isReadOnly (text_field w))) w)
      s in
  w ← widget_at self s;
  let s :=
    match _content w with
    | [] => modify self (set__content (utf8 (toPlainText (text_field w)))) s
    | _ => s
    end in
  w ← widget_at self s;
  hex_field_set_content self (_content w) s.

(** [set_content_next(content)]; every [self.next()] is evaluated. *)
Definition set_content_next (self : nat) (content : bytes)
    (s : EncoderWidget) : result EncoderWidget :=
  '(n, s) ← next self s;
  s ← content_setter n content s;
  '(n, s) ← next self s;
  '(n', s) ← next self s;
  w' ← widget_at n' s;
  s ← setPlainText n (toUnicode (_content w')) s;
  '(n, s) ← next self s;
  let s := update_length_field n s in
  '(n, s) ← next self s;
  w ← widget_at n s;
  if hex_view w then
    '(n, s) ← next self s;
    view_hex n s
  else Ok s.

(** [set_error_next] *)
Definition set_error_next (self : nat) (s : EncoderWidget)
    : result EncoderWidget :=
  '(next_widget, s) ← next self s;
  let s :=
    modify next_widget
      (on_text_field (setStyleSheet_ "border: 2px solid red;")) s in
  remove_next_widgets self (Some next_widget) 1 s.

(** [self.current_combo.model()]: [None] has no [model]. *)
Definition current_combo_model (w : DeenWidget) : result Combo :=
  match current_combo w with
  | Some c => Ok c
  | None => Raise "AttributeError"
  end.

(** The end of [action] (lines 453-459), after the transformation has
    left the local variable [error]. *)
Definition action_finish (self : nat) (s : EncoderWidget)
    (error : option string) : result EncoderWidget :=
  w ← widget_at self s;
  s ← match current_combo w with
      | Some c => setCurrentIndex self c 0 s
      | None => Ok s
      end;
  '(n, s) ← next self s;
  wn ← widget_at n s;
  w ← widget_at self s;
  s ← (if isReadOnly (text_field wn) && truthy (current_pick w) then
         '(n, s) ← next self s;
         w ← widget_at self s;
         let s :=
           modify n
             (fun x =>
                set_codec_field
                  (mkQLabel ("Transformer: " +:+ default "" (current_pick w))
                     (label_isHidden (codec_field x))) x) s in
         '(n, s) ← next self s;
         Ok (modify n
               (fun x =>
                  set_codec_field
                    (mkQLabel (label_text (codec_field x)) false) x) s)
       else Ok s);
  match error with
  | None =>
    '(n, s) ← next self s;
    Ok (modify n (on_text_field (setStyleSheet_ "border: none;")) s)
  | Some _ => Ok s
  end.

(** [action], from the creation of the transformer on (lines 419-452),
    then its end. *)
Definition action_transform (self : nat) (s : EncoderWidget)
    : result EncoderWidget :=
  w ← widget_at self s;
  let pick := current_pick w in
  let name := default "" pick in
  '(s, error) ←
    (if pick_in pick (ENCODINGS R) then
       c ← current_combo_model w;
       if String.eqb (placeholder c) "Encode" then
         s ← set_content_next self (encode R name (_content w)) s;
         mret (s, None)
       else
         let '(decoded, error) := decode R name (_content w) in
         s ← match error with
             | Some e => set_error_next self (LOGGER_error e s)
             | None => Ok s
             end;
         s ← set_content_next self decoded s;
         mret (s, error)
     else if pick_in pick (COMPRESSIONS R) then
       c ← current_combo_model w;
       if String.eqb (placeholder c) "Compress" then
         s ← set_content_next self (compress R name (_content w)) s;
         mret (s, None)
       else
         let '(uncompressed, error) := uncompress R name (_content w) in
         s ← match error with
             | Some e => set_error_next self (LOGGER_error e s)
             | None => Ok s
             end;
         s ← set_content_next self uncompressed s;
         mret (s, error)
     else if pick_in pick (HASHS R) || pick_is pick "ALL" then
       s ← set_content_next self (hash R name (_content w)) s;
       mret (s, None)
     else if pick_in pick (MISC R) then
       if pick_is pick "X509Certificate" && crypto R then
         match X509Certificate_decode R (_content w) with
         | inl decoded =>
           s ← set_content_next self decoded s;
           mret (s, None)
         | inr e =>
           s ← set_error_next self (LOGGER_error e s);
           w ← widget_at self s;
           s ← set_content_next self (_content w) s;
           mret (s, Some e)
         end
       else mret (s, None)
     else mret (s, None));
  action_finish self s error.

(** [action(combo)] *)
Definition action_step (self : nat) (combo : option Combo)
    (s : EncoderWidget) : result EncoderWidget :=
  w ← widget_at self s;
  let s :=
    match _content w with
    | [] => modify self (set__content (utf8 (toPlainText (text_field w)))) s
    | _ => s
    end in
  match combo with
  | Some c =>
    w ← widget_at self s;
    if currentIndex c (combos w) =? 0 then Ok s
    else
      action_transform self
        (modify self
           (fun w =>
              set_current_pick (Some (currentText R c w))
                (set_current_combo (Some c) w)) s)
  | None => action_transform self s
  end.

(** [field_content_changed] *)
Definition field_content_changed_step (self : nat) (s : EncoderWidget)
    : result EncoderWidget :=
  w ← widget_at self s;
  let s :=
    if action_panel_isHidden w then
      modify self (set_action_panel_isHidden false) s
    else s in
  s ← (if has_next self s && negb (isReadOnly (text_field w)) then
         remove_next_widgets self None 2 s
       else if has_next self s && isReadOnly (text_field w) then
         set_content_next self (_content w) s
       else Ok s);
  w ← widget_at self s;
  let s :=
    if negb (isReadOnly (text_field w)) then
      if negb (hex_view w) then
        modify self (set__content (utf8 (toPlainText (text_field w)))) s
      else modify self (set__content (hex_content (hex_field w))) s
    else s in
  let s := update_length_field self s in
  let s := update_readonly_field self s in
  w ← widget_at self s;
  if (hex_hasFocus (hex_field w) || text_hasFocus (text_field w))
     && truthy (current_pick w) then
    action_step self None s
  else Ok s.

(** [clear_content(widget)] *)
Definition clear_content_step (self : nat) (widget : option nat)
    (s : EncoderWidget) : result EncoderWidget :=
  let widget := default self widget in
  s ← (if 0 =? widget then
         s ← setPlainText widget [] s;
         s ← hex_field_set_content widget [] s;
         let s := modify widget (set__content []) s in
         let s := update_length_field self s in
         let s := modify widget (on_text_field (setReadOnly_ false)) s in
         let s := update_readonly_field self s in
         Ok (modify widget (set_current_pick None) s)
       else Ok s);
  remove_next_widgets self (Some widget) 0 s.

(** [move_content_to_root] *)
Definition move_content_to_root_step (self : nat) (s : EncoderWidget)
    : result EncoderWidget :=
  w ← widget_at self s;
  let content := _content w in
  s ← clear_content_step self (Some 0) s;
  content_setter 0 content s.

(** [EncoderWidget.set_root_content(data)] *)
Definition set_root_content_step (data : bytes) (s : EncoderWidget)
    : result EncoderWidget :=
  match data with
  | [] => Ok s
  | _ => content_setter 0 data s
  end.

End Methods.

(** ** The slots, by recursion on the depth of signal emissions *)

Fixpoint field_content_changed (R : Runtime) (fuel : nat)
    : nat -> EncoderWidget -> result EncoderWidget :=
  match fuel with
  | 0 => fun _ _ => OutOfFuel
  | S fuel =>
    field_content_changed_step R (field_content_changed R fuel)
      (fun self c => action R fuel self (Some c))
  end
with action (R : Runtime) (fuel : nat)
    : nat -> option Combo -> EncoderWidget -> result EncoderWidget :=
  match fuel with
  | 0 => fun _ _ _ => OutOfFuel
  | S fuel =>
    action_step R (field_content_changed R fuel)
      (fun self c => action R fuel self (Some c))
  end.

(** The methods that user actions reach, with [fuel] levels of signal
    emissions below them. *)
Definition emit_action (R : Runtime) (fuel : nat)
    : nat -> Combo -> EncoderWidget -> result EncoderWidget :=
  fun self c => action R fuel self (Some c).

Definition clear_content (R : Runtime) (fuel : nat)
    : nat -> option nat -> EncoderWidget -> result EncoderWidget :=
  clear_content_step R (field_content_changed R fuel).

Definition move_content_to_root (R : Runtime) (fuel : nat)
    : nat -> EncoderWidget -> result EncoderWidget :=
  move_content_to_root_step R (field_content_changed R fuel).

Definition set_root_content (R : Runtime) (fuel : nat)
    : bytes -> EncoderWidget -> result EncoderWidget :=
  set_root_content_step R (field_content_changed R fuel).

(** ** What the user can do *)

Inductive event :=
| Edit_text (i : nat) (t : unicode)   (* change the text of stage [i] *)
| Edit_hex (i : nat) (d : bytes)      (* change the bytes in the hex view *)
| Select (i : nat) (c : Combo) (k : nat) (* pick entry [k] of a combo box *)
| Click_clear (i : nat)
| Click_move (i : nat)
| Check_text (i : nat)
| Check_hex (i : nat)
| Set_root_content (data : bytes)
| Focus_text (i : nat)                (* the text field of [i] takes focus *)
| Focus_hex (i : nat)
| Focus_elsewhere.

Definition blur (w : DeenWidget) : DeenWidget :=
  on_hex_field (hex_setFocus_ false) (on_text_field (text_setFocus_ false) w).

Definition blur_all (s : EncoderWidget) : EncoderWidget :=
  mkEncoderWidget (map blur (widgets s)) (LOGGER s).

(** The reaction to an event.  A read-only field takes no edit, entry 0 of
    a combo box is disabled, and the focus is in one place at a time. *)
Definition handle (R : Runtime) (fuel : nat) (e : event) (s : EncoderWidget)
    : result EncoderWidget :=
  match e with
  | Edit_text i t =>
    w ← widget_at i s;
    if isReadOnly (text_field w) then Ok s
    else setPlainText (field_content_changed R fuel) i t s
  | Edit_hex i d =>
    w ← widget_at i s;
    if _read_only (hex_field w) then Ok s
    else
      field_content_changed R fuel i
        (modify i (on_hex_field (hex_set_content_ d)) s)
  | Select i c k =>
    if (k =? 0) || negb (k <? length (combo_items R c)) then Ok s
    else setCurrentIndex (emit_action R fuel) i c k s
  | Click_clear i => _ ← widget_at i s; clear_content R fuel i None s
  | Click_move i => move_content_to_root R fuel i s
  | Check_text i =>
    _ ← widget_at i s; view_text (field_content_changed R fuel) i s
  | Check_hex i =>
    _ ← widget_at i s; view_hex R (field_content_changed R fuel) i s
  | Set_root_content data => set_root_content R fuel data s
  | Focus_text i =>
    _ ← widget_at i s;
    Ok (modify i (on_text_field (text_setFocus_ true)) (blur_all s))
  | Focus_hex i =>
    _ ← widget_at i s;
    Ok (modify i (on_hex_field (hex_setFocus_ true)) (blur_all s))
  | Focus_elsewhere => Ok (blur_all s)
  end.

(** Run a list of events. *)
Fixpoint run (R : Runtime) (fuel : nat) (es : list event) (s : EncoderWidget)
    : result EncoderWidget :=
  match es with
  | [] => Ok s
  | e :: es => s ← handle R fuel e s; run R fuel es s
  end.

(** ** The chain the widgets stand for *)

(** A stage of the chain, read off a widget: the buffer, whether the user
    can edit it, the error mark set by [set_error_next] (the red border)
    and the operation shown in the transformer label. *)
Record Stage := mkStage {
  content : bytes;
  editable : bool;
  error : bool;
  producing_operation : option string
}.

Definition strip_prefix (p t : string) : option string :=
  if String.prefix p t then
    Some (String.substring (String.length p)
            (String.length t - String.length p) t)
  else None.

Definition stage_of (w : DeenWidget) : Stage :=
  mkStage (_content w)
    (negb (isReadOnly (text_field w)))
    (String.eqb (styleSheet (text_field w)) "border: 2px solid red;")
    (if label_isHidden (codec_field w) then None
     else strip_prefix "Transformer: " (label_text (codec_field w))).

Definition stages (s : EncoderWidget) : list Stage :=
  map stage_of (widgets s).

(** ** A runtime to run examples with

    One encoding (hexadecimal digits), a certificate parser that accepts
    what starts with an ASN.1 SEQUENCE tag, and stand-ins for the rest. *)

Definition hex_digit (n : Z) : Z :=
  if (n <? 10)%Z then (48 + n)%Z else (87 + n)%Z.

Definition hex_value (c : Z) : option Z :=
  if (48 <=? c)%Z && (c <=? 57)%Z then Some (c - 48)%Z
  else if (97 <=? c)%Z && (c <=? 102)%Z then Some (c - 87)%Z
  else None.

Definition hex_encode (data : bytes) : bytes :=
  flat_map (fun b => [hex_digit (b / 16); hex_digit (b mod 16)]) data.

Fixpoint hex_decode (data : bytes) : option bytes :=
  match data with
  | [] => Some []
  | h :: l :: r =>
    match hex_value h, hex_value l, hex_decode r with
    | Some x, Some y, Some d => Some ((16 * x + y)%Z :: d)
    | _, _, _ => None
    end
  | _ => None
  end.

Definition sample_runtime (with_crypto : bool) : Runtime :=
  mkRuntime ["Hex"] ["Copy"] ["Sum"] ["X509Certificate"]
    (fun _ d => hex_encode d)
    (fun _ d =>
       match hex_decode d with
       | Some out => (out, None)
       | None => ([], Some "Non-hexadecimal digit found")
       end)
    (fun _ d => d)
    (fun _ d => (d, None))
    (fun _ d => hex_encode [(fold_right Z.add 0 d mod 256)%Z])
    (fun d =>
       match d with
       | 48%Z :: _ => inl (codes "Certificate")
       | _ => inr "crypto.Error"
       end)
    with_crypto true.

(** * The vocabulary of the properties *)

(** [s @ k] is [self.parent.widgets[k]], when the chain is that long. *)
Notation "s @ k" := (widgets s !! k) (at level 20, only parsing).

(** ** Results *)

(** The computation returns, and what it returns satisfies [P]. *)
Definition post {A} (m : result A) (P : A -> Prop) : Prop :=
  match m with
  | Ok a => P a
  | _ => False
  end.

(** ** Frames: what the handlers leave alone *)

(** The widget holds the keyboard focus in one of its two fields. *)
Definition focused (w : DeenWidget) : bool :=
  hex_hasFocus (hex_field w) || text_hasFocus (text_field w).

(** [field_content_changed] of this widget calls [action]. *)
Definition armed (w : DeenWidget) : bool :=
  focused w && truthy (current_pick w).

(** Any widget a handler reaches keeps its focus and its selection, and
    stays read-only when it is. *)
Definition Wk (w w' : DeenWidget) : Prop :=
  text_hasFocus (text_field w') = text_hasFocus (text_field w) /\
  hex_hasFocus (hex_field w') = hex_hasFocus (hex_field w) /\
  current_pick w' = current_pick w /\
  current_combo w' = current_combo w /\
  (isReadOnly (text_field w) = true -> isReadOnly (text_field w') = true).

(** The widget whose [content] is assigned also keeps its border and its
    transformer label. *)
Definition Wset (w w' : DeenWidget) : Prop :=
  Wk w w' /\
  styleSheet (text_field w') = styleSheet (text_field w) /\
  codec_field w' = codec_field w.

(** What [action] leaves alone in its own widget, whatever is selected. *)
Definition Wtop (w w' : DeenWidget) : Prop :=
  text_hasFocus (text_field w') = text_hasFocus (text_field w) /\
  hex_hasFocus (hex_field w') = hex_hasFocus (hex_field w) /\
  isReadOnly (text_field w') = isReadOnly (text_field w) /\
  styleSheet (text_field w') = styleSheet (text_field w) /\
  codec_field w' = codec_field w /\
  toPlainText (text_field w') = toPlainText (text_field w) /\
  hex_content (hex_field w') = hex_content (hex_field w) /\
  hex_view w' = hex_view w /\
  readonly w' = readonly w.

(** The widget whose own slot runs: the buffer of a read-only widget
    changes only by being filled from the text when it is empty. *)
Definition Wself (w w' : DeenWidget) : Prop :=
  Wtop w w' /\
  current_pick w' = current_pick w /\
  current_combo w' = current_combo w /\
  (isReadOnly (text_field w) = true ->
   _content w' = _content w \/
   (_content w = [] /\ _content w' = utf8 (toPlainText (text_field w)))).

(** A widget created by [next] and only written to since. *)
Definition quietRO (w : DeenWidget) : Prop :=
  isReadOnly (text_field w) = true /\
  text_hasFocus (text_field w) = false /\
  hex_hasFocus (hex_field w) = false /\
  current_pick w = None.

(** The handlers of position [n] leave the widgets before [n] alone,
    change widget [n] within [W], and leave behind it widgets that are new
    or that kept focus and selection. *)
Definition B (W : DeenWidget -> DeenWidget -> Prop) (n : nat)
    (s s' : EncoderWidget) : Prop :=
  (forall k, k < n -> s' @ k = s @ k) /\
  (exists w w', s @ n = Some w /\ s' @ n = Some w' /\ W w w') /\
  (forall k w', n < k -> s' @ k = Some w' ->
     quietRO w' \/ exists w, s @ k = Some w /\ Wk w w').

(** The measure that bounds the nesting of emissions: the length of the
    chain, and one more when the last widget has a selection (its
    [action] can append a widget). *)
Definition mu (s : EncoderWidget) : nat :=
  length (widgets s) +
  match s @ (length (widgets s) - 1) with
  | Some w => match current_pick w with Some _ => 1 | None => 0 end
  | None => 0
  end.

(** No widget from position [n] on dispatches when its content is
    written. *)
Definition unarmed_from (n : nat) (s : EncoderWidget) : Prop :=
  forall k w, n <= k -> s @ k = Some w -> armed w = false.

(** The chain grows by at most the follower of [n], unless a widget behind
    [n] dispatches on its own. *)
Definition Ga (n : nat) (s s' : EncoderWidget) : Prop :=
  unarmed_from (S n) s ->
  length (widgets s') <= Nat.max (length (widgets s)) (n + 2).

(** The chain does not grow when nothing from [n] on dispatches. *)
Definition Gf (n : nat) (s s' : EncoderWidget) : Prop :=
  unarmed_from n s -> length (widgets s') <= length (widgets s).

(** [B], and the measure does not grow, and the chain grows by no more
    than a follower. *)
Definition Rel (W : DeenWidget -> DeenWidget -> Prop) (n : nat)
    (s s' : EncoderWidget) : Prop :=
  B W n s s' /\ mu s' <= mu s /\ Ga n s s'.

(** A selection is made in a combo box. *)
Definition inv (s : EncoderWidget) : Prop :=
  forall k w, s @ k = Some w ->
    is_Some (current_pick w) -> is_Some (current_combo w).

(** What [field_content_changed] of widget [n] guarantees. *)
Definition Efcc (n : nat) (s s' : EncoderWidget) : Prop :=
  Rel Wself n s s' /\ Gf n s s'.

(** What an assignment to the content of widget [n] guarantees. *)
Definition Eset (n : nat) (s s' : EncoderWidget) : Prop :=
  Rel Wset n s s' /\ Gf n s s'.

(** The first [j] widgets of the chain. *)
Definition truncate (j : nat) (s : EncoderWidget) : EncoderWidget :=
  mkEncoderWidget (take j (widgets s)) (LOGGER s).

(** The chain with the widget that [next] creates. *)
Definition appended (s : EncoderWidget) : EncoderWidget :=
  mkEncoderWidget (widgets s ++ [DeenWidget_init true false]) (LOGGER s).

(** [if not self._content: self._content = bytearray(text, 'utf8')] *)
Definition fill (w : DeenWidget) (n : nat) (s : EncoderWidget)
    : EncoderWidget :=
  match _content w with
  | [] => modify n (set__content (utf8 (toPlainText (text_field w)))) s
  | _ => s
  end.

(** The style sheet that [set_error_next] sets. *)
Definition red : string := "border: 2px solid red;".

(** ** The methods on a single widget *)

(** What [field_content_changed] does to its own widget. *)
Definition field_content_changed_local (w : DeenWidget) : DeenWidget :=
  let w :=
    if action_panel_isHidden w then set_action_panel_isHidden false w
    else w in
  let w :=
    if negb (isReadOnly (text_field w)) then
      if negb (hex_view w) then
        set__content (utf8 (toPlainText (text_field w))) w
      else set__content (hex_content (hex_field w)) w
    else w in
  let w :=
    set_length_field ("Length: " +:+ str_of_nat (length (_content w))) w in
  set_readonly_field (if isReadOnly (text_field w) then "R-" else "RW") w.

(** What the setters and [view_hex] do to a last widget that does not
    dispatch: the change of the field, then the slot of the signal. *)
Definition setPlainText_local (t : unicode) (w : DeenWidget) : DeenWidget :=
  field_content_changed_local (on_text_field (setPlainText_ t) w).

Definition hex_field_set_content_local (R : Runtime) (d : bytes)
    (w : DeenWidget) : DeenWidget :=
  let w := on_hex_field (hex_set_content_ d) w in
  if hex_content_emits R then field_content_changed_local w else w.

Definition content_setter_local (R : Runtime) (data : bytes)
    (w : DeenWidget) : DeenWidget :=
  let w := set__content data w in
  if hex_view w then hex_field_set_content_local R (_content w) w
  else
    let w' :=
      if negb (all_printable (_content w)) then
        on_text_field (setReadOnly_ true) w
      else w in
    setPlainText_local (toUnicode (_content w)) w'.

Definition view_hex_local (R : Runtime) (w : DeenWidget) : DeenWidget :=
  let w := set_hex_view true w in
  let w := on_text_field (text_setHidden_ true) w in
  let w := on_hex_field (hex_setHidden_ false) w in
  let w := on_hex_field (hex_set_read_only_ (isReadOnly (text_field w))) w in
  let w :=
    match _content w with
    | [] => set__content (utf8 (toPlainText (text_field w))) w
    | _ => w
    end in
  hex_field_set_content_local R (_content w) w.

Definition set_content_next_local (R : Runtime) (content : bytes)
    (w : DeenWidget) : DeenWidget :=
  let w := content_setter_local R content w in
  let w := setPlainText_local (toUnicode (_content w)) w in
  let w :=
    set_length_field ("Length: " +:+ str_of_nat (length (_content w))) w in
  if hex_view w then view_hex_local R w else w.

(** The state in which [next] returns the follower of [i]. *)
Definition with_next (i : nat) (s : EncoderWidget) : EncoderWidget :=
  if length (widgets s) =? S i then appended s else s.

(** The follower of [i], as [next] finds or creates it. *)
Definition follower (i : nat) (s : EncoderWidget) : DeenWidget :=
  default (DeenWidget_init true false) (s @ (S i)).

(** [w'] is [w] with the given read-only flag, buffer, text and hex
    bytes; border, label, view, focus and selection are those of [w]. *)
Definition effect (w w' : DeenWidget) (ro : bool) (c : bytes)
    (t : unicode) (h : bytes) : Prop :=
  styleSheet (text_field w') = styleSheet (text_field w) /\
  codec_field w' = codec_field w /\
  text_hasFocus (text_field w') = text_hasFocus (text_field w) /\
  hex_hasFocus (hex_field w') = hex_hasFocus (hex_field w) /\
  current_pick w' = current_pick w /\
  current_combo w' = current_combo w /\
  isReadOnly (text_field w') = ro /\
  _content w' = c /\
  toPlainText (text_field w') = t /\
  hex_content (hex_field w') = h.

(** [if not self._content: ...] in [view_hex] and in [action]. *)
Definition filled (w : DeenWidget) : bytes :=
  match _content w with
  | [] => utf8 (toPlainText (text_field w))
  | c => c
  end.

(** ** Well-formed chains and reachable states *)

(** Derived widgets are read-only. *)
Definition followers_readonly (s : EncoderWidget) : Prop :=
  forall k w, 0 < k -> s @ k = Some w -> isReadOnly (text_field w) = true.

(** The keyboard focus is in one widget at most. *)
Definition single_focus (s : EncoderWidget) : Prop :=
  forall j k wj wk, s @ j = Some wj -> s @ k = Some wk ->
    focused wj = true -> focused wk = true -> j = k.

(** The root has no red border and shows no transformer label. *)
Definition root_plain (s : EncoderWidget) : Prop :=
  forall w, s @ 0 = Some w ->
    styleSheet (text_field w) = "" /\ label_isHidden (codec_field w) = true.

(** What every chain that the program builds satisfies. *)
Definition chain_ok (s : EncoderWidget) : Prop :=
  inv s /\ 0 < length (widgets s) /\ followers_readonly s /\
  single_focus s /\ root_plain s.

(** What a user action may do to the widget it is made on. *)
Definition Wroot (w w' : DeenWidget) : Prop :=
  text_hasFocus (text_field w') = text_hasFocus (text_field w) /\
  hex_hasFocus (hex_field w') = hex_hasFocus (hex_field w) /\
  styleSheet (text_field w') = styleSheet (text_field w) /\
  codec_field w' = codec_field w /\
  ((is_Some (current_pick w) -> is_Some (current_combo w)) ->
   is_Some (current_pick w') -> is_Some (current_combo w')).

(** What a user action does to the widget it is made on when it does not
    assign its content: the read-only flag stays as well. *)
Definition Wact (w w' : DeenWidget) : Prop :=
  Wroot w w' /\ isReadOnly (text_field w') = isReadOnly (text_field w).

(** The text field of the root is read-only. *)
Definition root_readonly (s : EncoderWidget) : bool :=
  match s @ 0 with
  | Some w => isReadOnly (text_field w)
  | None => false
  end.

(** The root after [clear_content]: empty, editable, nothing selected. *)
Definition cleared (w w' : DeenWidget) : Prop :=
  text_hasFocus (text_field w') = text_hasFocus (text_field w) /\
  hex_hasFocus (hex_field w') = hex_hasFocus (hex_field w) /\
  styleSheet (text_field w') = styleSheet (text_field w) /\
  codec_field w' = codec_field w /\
  hex_view w' = hex_view w /\
  current_combo w' = current_combo w /\
  isReadOnly (text_field w') = false /\
  current_pick w' = None /\
  _content w' = [] /\
  toPlainText (text_field w') = [] /\
  hex_content (hex_field w') = [].

(** The root shows the hex view. *)
Definition root_hex_view (s : EncoderWidget) : bool :=
  match s @ 0 with
  | Some w => hex_view w
  | None => false
  end.

(** The event assigns to the content of a root that shows text nothing but
    printable bytes. *)
Definition writes_printable (e : event) (s : EncoderWidget) : Prop :=
  match e with
  | Set_root_content d => root_hex_view s = true \/ all_printable d = true
  | Click_move i =>
    root_hex_view s = true \/
    forall w, s @ i = Some w -> all_printable (_content w) = true
  | _ => True
  end.

(** The states the program reaches from its initial state; every user
    action is given more emission levels than the chain can nest. *)
Inductive reachable (R : Runtime) : EncoderWidget -> Prop :=
| reachable_init : reachable R EncoderWidget_init
| reachable_step s fuel e s' :
    reachable R s -> mu s < fuel -> handle R fuel e s = Ok s' ->
    reachable R s'.

(** The same, when nothing but printable bytes is assigned to the content
    of a root that shows text. *)
Inductive reachable_printable (R : Runtime) : EncoderWidget -> Prop :=
| reachable_printable_init : reachable_printable R EncoderWidget_init
| reachable_printable_step s fuel e s' :
    reachable_printable R s -> mu s < fuel -> writes_printable e s ->
    handle R fuel e s = Ok s' -> reachable_printable R s'.

(** ** Dispatches *)

(** What the end of [action] does to the follower. *)
Definition action_finish_local (pick error : option string)
    (t : DeenWidget) : DeenWidget :=
  let t :=
    if isReadOnly (text_field t) && truthy pick then
      set_codec_field
        (mkQLabel ("Transformer: " +:+ default "" pick) false) t
    else t in
  match error with
  | None => on_text_field (setStyleSheet_ "border: none;") t
  | Some _ => t
  end.

(** What [action(combo)] leaves in [current_pick] and [current_combo]
    before it transforms: the entry selected in [combo], or the selection
    the widget remembers when [action()] is called without a combo box. *)
Definition selection (R : Runtime) (combo : option Combo) (w : DeenWidget)
    : option (string * Combo) :=
  match combo with
  | Some c =>
    if currentIndex c (combos w) =? 0 then None
    else Some (currentText R c w, c)
  | None =>
    match current_pick w, current_combo w with
    | Some p, Some c => Some (p, c)
    | _, _ => None
    end
  end.

(** Operation [p], selected in combo box [c], fails on [data]: the decoder
    or the decompressor returns [out] and the error [e], or the certificate
    parser raises [e] and [action] passes the data on. *)
Inductive fails (R : Runtime) (p : string) (c : Combo) (data : bytes)
    : bytes -> string -> Prop :=
| fails_decode out e :
    In p (ENCODINGS R) -> placeholder c <> "Encode" ->
    decode R p data = (out, Some e) -> fails R p c data out e
| fails_uncompress out e :
    ~ In p (ENCODINGS R) -> In p (COMPRESSIONS R) ->
    placeholder c <> "Compress" ->
    uncompress R p data = (out, Some e) -> fails R p c data out e
| fails_X509Certificate e :
    ~ In p (ENCODINGS R) -> ~ In p (COMPRESSIONS R) -> ~ In p (HASHS R) ->
    In p (MISC R) -> p = "X509Certificate" -> crypto R = true ->
    X509Certificate_decode R data = inr e -> fails R p c data data e.

(** The chain after [LOGGER.error(e)] and [set_error_next]. *)
Definition errored (e : string) (i : nat) (s : EncoderWidget)
    : EncoderWidget :=
  truncate (i + 2)
    (modify (S i) (on_text_field (setStyleSheet_ red))
       (with_next i (LOGGER_error e s))).

(** ** Example chains *)

(** The sample runtime with the OpenSSL bindings, and without them. *)
Definition with_openssl : Runtime := sample_runtime true.

Definition without_openssl : Runtime := sample_runtime false.

(** The chain after the events [es], made on a new encoder. *)
Definition after (R : Runtime) (fuel : nat) (es : list event)
    : EncoderWidget :=
  match run R fuel es EncoderWidget_init with
  | Ok s => s
  | _ => EncoderWidget_init
  end.

(** Every event of [es] returns, with more emission levels than the chain
    needs. *)
Fixpoint returns (R : Runtime) (fuel : nat) (es : list event)
    (s : EncoderWidget) : bool :=
  match es with
  | [] => true
  | e :: es =>
    (mu s <? fuel) &&
    match handle R fuel e s with
    | Ok s' => returns R fuel es s'
    | _ => false
    end
  end.

(** A root, its hexadecimal digits, and the checksum of the digits. *)
Definition three_stages : EncoderWidget :=
  after with_openssl 5
    [Edit_text 0 (codes "ab"); Select 0 encoding_combo 1;
     Select 1 hash_combo 1].

(** A root and its hexadecimal digits. *)
Definition two_stages : EncoderWidget :=
  after with_openssl 5 [Edit_text 0 (codes "ab"); Select 0 encoding_combo 1].

(** The digits [00] and the byte they decode to. *)
Definition decoded_zero : EncoderWidget :=
  after with_openssl 5 [Edit_text 0 (codes "00"); Select 0 decoding_combo 1].

(** A root with the text [ab]. *)
Definition typed_ab : EncoderWidget :=
  after with_openssl 5 [Edit_text 0 (codes "ab")].

(** The root after [set_root_content] with the bytes of [abc]. *)
Definition loaded_abc : EncoderWidget :=
  after with_openssl 5 [Set_root_content (codes "abc")].

(** The text [zz] and what is left of decoding it. *)
Definition failed_zz : EncoderWidget :=
  after with_openssl 5 [Edit_text 0 (codes "zz"); Select 0 decoding_combo 1].

(** A root with the text [abc]. *)
Definition typed_abc (R : Runtime) : EncoderWidget :=
  after R 5 [Edit_text 0 (codes "abc")].

(** [abc] in the root, and [X509Certificate] selected without OpenSSL. *)
Definition skipped_abc : EncoderWidget :=
  after without_openssl 5
    [Edit_text 0 (codes "abc"); Select 0 misc_combo 1].

(** ** Events and the stages they are made on *)

(** The stage an event is made on is in the chain. *)
Definition in_range (e : event) (s : EncoderWidget) : Prop :=
  match e with
  | Edit_text i _ | Edit_hex i _ | Select i _ _ | Click_clear i
  | Click_move i | Check_text i | Check_hex i | Focus_text i
  | Focus_hex i => i < length (widgets s)
  | Set_root_content _ | Focus_elsewhere => True
  end.

(** The events that run the handlers of one stage, and the stage. *)
Definition handled_by (e : event) : option nat :=
  match e with
  | Edit_text i _ | Edit_hex i _ | Select i _ _ | Click_clear i
  | Check_text i | Check_hex i => Some i
  | _ => None
  end.

(** ** Writing to the stages behind a stage *)

(** A widget that passes on what is written to it: it is read-only, and it
    has not both the focus and a remembered operation. *)
Definition quiet (w : DeenWidget) : bool :=
  isReadOnly (text_field w) && negb (armed w).

Definition quiet_from (j : nat) (s : EncoderWidget) : Prop :=
  forall k w, j <= k -> s @ k = Some w -> quiet w = true.

(** What [field_content_changed] keeps of a quiet widget: everything but
    the action panel and the two labels it updates. *)
Definition Wq (w w' : DeenWidget) : Prop :=
  Wtop w w' /\ current_pick w' = current_pick w /\
  current_combo w' = current_combo w /\ _content w' = _content w.

(** The chain is as long as it was, nothing is logged, the widgets before
    [j] are the same, and the others kept focus, selection, border and
    transformer label, and stayed read-only. *)
Definition kept (j : nat) (s s' : EncoderWidget) : Prop :=
  length (widgets s') = length (widgets s) /\
  LOGGER s' = LOGGER s /\
  (forall k, k < j -> s' @ k = s @ k) /\
  (forall k w, j <= k -> s @ k = Some w ->
     exists w', s' @ k = Some w' /\ Wset w w').

(** Every widget from [j] on holds [d]. *)
Definition holds_from (j : nat) (d : bytes) (s : EncoderWidget) : Prop :=
  forall k w, j <= k -> s @ k = Some w -> _content w = d.

(** What [field_content_changed] of a quiet widget [j] does when the
    widgets behind it are quiet as well: its content is passed on to all
    of them. *)
Definition passed_on (j : nat) (s s' : EncoderWidget) : Prop :=
  kept j s s' /\
  exists w w', s @ j = Some w /\ s' @ j = Some w' /\ Wq w w' /\
    holds_from j (_content w) s'.

(** Operation [p], selected in combo box [c], returns [out] for [data]
    without an error. *)
Inductive succeeds (R : Runtime) (p : string) (c : Combo) (data : bytes)
    : bytes -> Prop :=
| succeeds_encode :
    In p (ENCODINGS R) -> placeholder c = "Encode" ->
    succeeds R p c data (encode R p data)
| succeeds_decode out :
    In p (ENCODINGS R) -> placeholder c <> "Encode" ->
    decode R p data = (out, None) -> succeeds R p c data out
| succeeds_compress :
    ~ In p (ENCODINGS R) -> In p (COMPRESSIONS R) ->
    placeholder c = "Compress" ->
    succeeds R p c data (compress R p data)
| succeeds_uncompress out :
    ~ In p (ENCODINGS R) -> In p (COMPRESSIONS R) ->
    placeholder c <> "Compress" ->
    uncompress R p data = (out, None) -> succeeds R p c data out
| succeeds_hash :
    ~ In p (ENCODINGS R) -> ~ In p (COMPRESSIONS R) ->
    In p (HASHS R) \/ p = "ALL" ->
    succeeds R p c data (hash R p data)
| succeeds_X509Certificate out :
    ~ In p (ENCODINGS R) -> ~ In p (COMPRESSIONS R) -> ~ In p (HASHS R) ->
    In p (MISC R) -> p = "X509Certificate" -> crypto R = true ->
    X509Certificate_decode R data = inl out -> succeeds R p c data out.

(** What [set_content_next] and the end of [action] make of a widget that
    [next] has created. *)
Definition derived (R : Runtime) (p : string) (out : bytes) : DeenWidget :=
  action_finish_local (Some p) None
    (set_content_next_local R out (DeenWidget_init true false)).

(** ** Searching the text of a widget

    [search_highlight] reads the text field and the search field and
    writes to the cursor of the text field, the match label and the
    progress bar only.  It is modelled by what it stores in
    [self.search_matches] and by the calls it makes on these three
    objects, in order.  The regular expression engine is not part of the
    file: [globalMatch pattern text] is the list of matches that the
    iterator of [regex.globalMatch(text)] yields. *)

Record QRegularExpressionMatch := mkMatch {
  capturedStart : nat;
  capturedEnd : nat
}.

Inductive search_call :=
| cursor_setBlockFormat (background : string)
| search_field_matches_setText (t : string)
| search_field_matches_show
| search_field_progress_setRange (minimum maximum : nat)
| search_field_progress_show
| search_field_progress_setValue (v : nat)
| cursor_setPosition (pos : nat)
| cursor_setPosition_KeepAnchor (pos : nat)
| cursor_mergeCharFormat (background : string).

(** [for match in self.search_matches: ...], with [match_count]. *)
Fixpoint search_highlight_loop (ms : list QRegularExpressionMatch)
    (match_count : nat) : list search_call :=
  match ms with
  | [] => []
  | m :: ms =>
    if 150 <? match_count then []
    else
      ([search_field_progress_setValue match_count;
        cursor_setPosition (capturedStart m);
        cursor_setPosition_KeepAnchor (capturedEnd m);
        cursor_mergeCharFormat "yellow"]
       ++ search_highlight_loop ms (match_count + 1))%list
  end.

(** [search_highlight]: the new [self.search_matches] and the calls. *)
Definition search_highlight
    (globalMatch : unicode -> unicode -> list QRegularExpressionMatch)
    (search_field_text : unicode) (w : DeenWidget)
    : list QRegularExpressionMatch * list search_call :=
  let search_matches :=
    globalMatch search_field_text (toPlainText (text_field w)) in
  (search_matches,
   ([cursor_setBlockFormat "white";
     search_field_matches_setText
       ("Matches: " +:+ str_of_nat (length search_matches));
     search_field_matches_show;
     search_field_progress_setRange 0 (length search_matches)]
    ++ (if 100 <? length search_matches then [search_field_progress_show]
        else [])
    ++ search_highlight_loop search_matches 1)%list).

(** The selections that the calls give a background: [setPosition] moves
    anchor and position of the cursor, [setPosition] with [KeepAnchor] the
    position only, and [mergeCharFormat] applies to the text between the
    two. *)
Fixpoint merged (calls : list search_call) (anchor position : nat)
    : list (nat * nat) :=
  match calls with
  | [] => []
  | cursor_setPosition pos :: calls => merged calls pos pos
  | cursor_setPosition_KeepAnchor pos :: calls => merged calls anchor pos
  | cursor_mergeCharFormat _ :: calls =>
    (anchor, position) :: merged calls anchor position
  | _ :: calls => merged calls anchor position
  end.

(** The values the progress bar is set to. *)
Definition progress_values (calls : list search_call) : list nat :=
  omap (fun c => match c with
                 | search_field_progress_setValue v => Some v
                 | _ => None
                 end) calls.

(** ** What a call leaves alone, whether it returns or raises *)

(** Every result that [m] returns satisfies [P]. *)
Definition wp {A} (m : result A) (P : A -> Prop) : Prop :=
  forall a, m = Ok a -> P a.

(** Every combo box of the widget shows its placeholder. *)
Definition placeholders (w : DeenWidget) : Prop :=
  forall c, currentIndex c (combos w) = 0.

(** Every combo box of [w'] shows what it showed in [w], or has been set
    back to its placeholder. *)
Definition set_back (w w' : DeenWidget) : Prop :=
  forall c,
    currentIndex c (combos w') = currentIndex c (combos w) \/
    currentIndex c (combos w') = 0.

(** The widgets before position [n] are the same; every other widget is
    new, and its combo boxes show their placeholders, or it was at the
    same position before, and its combo boxes show what they showed then
    or their placeholders. *)
Definition onward (n : nat) (s s' : EncoderWidget) : Prop :=
  (forall k, k < n -> s' @ k = s @ k) /\
  (forall k w', n <= k -> s' @ k = Some w' ->
     placeholders w' \/ exists w, s @ k = Some w /\ set_back w w').

(** The same for a call made on widget [n], which is in the chain before
    and after the call. *)
Definition since (n : nat) (s s' : EncoderWidget) : Prop :=
  n < length (widgets s) /\ n < length (widgets s') /\ onward n s s'.

(** The same for a call that writes to the follower of widget [n]. *)
Definition behind (n : nat) (s s' : EncoderWidget) : Prop :=
  S n < length (widgets s') /\ onward (S n) s s'.

(** Every combo box of the chain shows its placeholder. *)
Definition all_placeholders (s : EncoderWidget) : Prop :=
  forall k w, s @ k = Some w -> placeholders w.

(** The chain after the transformer has run at widget [n]: the widgets up
    to [n] are the same. *)
Definition above (n : nat) (s s' : EncoderWidget) : Prop :=
  n < length (widgets s) /\ n < length (widgets s') /\ onward (S n) s s'.

(** A combo box whose [currentIndexChanged] calls no slot. *)
Definition silent (self : nat) (c : Combo) (s : EncoderWidget)
    : result EncoderWidget :=
  Ok s.

(** ** An operation applied again *)

(** The stage that a dispatch of [p], selected in combo box [c], leaves
    behind the stage that holds [data]: the output without an error mark
    when [p] succeeds, what [p] returned beside its error, with the error
    mark, when it fails. *)
Inductive applied (R : Runtime) (p : string) (c : Combo) (data : bytes)
    : Stage -> Prop :=
| applied_output out :
    succeeds R p c data out ->
    applied R p c data (mkStage out false false (Some p))
| applied_error out e :
    fails R p c data out e ->
    applied R p c data (mkStage out false true (Some p)).

(** * Properties *)

(** ** The codec on printable bytes *)

Lemma printable_range (c : Z) :
  printable c = true -> (9 <= c < 127)%Z.
Proof.
  unfold printable. rewrite existsb_exists. intros (x & Hin & Heq).
  apply Z.eqb_eq in Heq. subst x.
  let l := eval vm_compute in string_printable in
  assert (H : In c l) by exact Hin.
  clear Hin. simpl in H.
  repeat (destruct H as [H | H]; [lia |]). destruct H.
Qed.

Lemma utf8_toUnicode_printable (data : bytes) :
  all_printable data = true -> utf8 (toUnicode data) = data.
Proof.
  induction data as [| b r IH]; [reflexivity |].
  unfold all_printable. simpl forallb. rewrite andb_true_iff.
  intros [Hb Hr]. apply printable_range in Hb.
  cbn [toUnicode].
  destruct (Z.ltb_spec b 128) as [_ | ?]; [| lia].
  cbn [utf8 flat_map]. unfold utf8_of_code_point.
  destruct (Z.ltb_spec b 128) as [_ | ?]; [| lia].
  simpl. f_equal. apply IH, Hr.
Qed.

Lemma utf8_nil : utf8 [] = [].
Proof. reflexivity. Qed.

Lemma toUnicode_nil : toUnicode [] = [].
Proof. reflexivity. Qed.

(** ** Positions of the widget list *)

Lemma widget_at_Some (s : EncoderWidget) (k : nat) (w : DeenWidget) :
  s @ k = Some w -> widget_at k s = Ok w.
Proof. unfold widget_at. intros ->. reflexivity. Qed.

Lemma modify_eq (s : EncoderWidget) (k : nat) f :
  modify k f s @ k = f <$> s @ k.
Proof. unfold modify. simpl. apply list_lookup_alter_eq. Qed.

Lemma modify_ne (s : EncoderWidget) (k j : nat) f :
  k <> j -> modify k f s @ j = s @ j.
Proof. unfold modify. simpl. apply list_lookup_alter_ne. Qed.

Lemma modify_length (s : EncoderWidget) (k : nat) f :
  length (widgets (modify k f s)) = length (widgets s).
Proof. unfold modify. simpl. apply length_alter. Qed.

Lemma modify_id (s : EncoderWidget) (k : nat) f (w : DeenWidget) :
  s @ k = Some w -> f w = w -> modify k f s = s.
Proof.
  intros Hk Hf. destruct s as [l g]. unfold modify. simpl in *. f_equal.
  apply list_eq. intros j. destruct (decide (k = j)) as [<- | Hne].
  - rewrite list_lookup_alter_eq, Hk. simpl. congruence.
  - apply list_lookup_alter_ne, Hne.
Qed.

Lemma lookup_lt (s : EncoderWidget) (k : nat) (w : DeenWidget) :
  s @ k = Some w -> k < length (widgets s).
Proof. apply lookup_lt_Some. Qed.

Lemma lookup_ex (s : EncoderWidget) (k : nat) :
  k < length (widgets s) -> exists w, s @ k = Some w.
Proof. intros H. apply lookup_lt_is_Some_2 in H. destruct H. eauto. Qed.

(** ** The loop of [remove_next_widgets] *)

Lemma removelast_take {A} (l : list A) :
  removelast l = take (length l - 1) l.
Proof.
  induction l as [| a l IH]; [reflexivity |].
  destruct l as [| b l]; [reflexivity |].
  change (removelast (a :: b :: l)) with (a :: removelast (b :: l)).
  rewrite IH. simpl. rewrite Nat.sub_0_r. reflexivity.
Qed.

Lemma remove_loop_take (k index : nat) (l : list DeenWidget) :
  length l <= k -> 0 < length l ->
  remove_loop k index l =
  take (if index <=? length l then Nat.max 1 index else 1) l.
Proof.
  revert l. induction k as [| k IH]; intros l Hk Hl; [lia |].
  simpl. destruct (Nat.eqb_spec (length l) index) as [<- | Hne].
  - rewrite Nat.leb_refl, Nat.max_r by lia. symmetry. apply firstn_all.
  - destruct (Nat.eqb_spec (length l) 1) as [H1 | H1].
    + symmetry. apply take_ge. destruct (index <=? length l); lia.
    + rewrite IH; rewrite removelast_take; rewrite ?length_take; try lia.
      rewrite take_take.
      f_equal.
      destruct (Nat.leb_spec index (length l));
        destruct (Nat.leb_spec index (Nat.min (length l - 1) (length l)));
        lia.
Qed.

Lemma remove_next_widgets_take (self : nat) (widget : option nat)
    (offset : nat) (s : EncoderWidget) :
  default self widget < length (widgets s) ->
  remove_next_widgets self widget offset s =
  Ok (mkEncoderWidget
        (take (if default self widget + offset <=? length (widgets s)
               then Nat.max 1 (default self widget + offset) else 1)
           (widgets s))
        (LOGGER s)).
Proof.
  intros H. unfold remove_next_widgets.
  destruct (Nat.ltb_spec (default self widget) (length (widgets s)));
    [| lia].
  rewrite remove_loop_take by lia. reflexivity.
Qed.

(** ** Postconditions of results *)

Lemma post_Ok {A} (a : A) (P : A -> Prop) : P a -> post (Ok a) P.
Proof. exact (fun H => H). Qed.

Lemma post_bind {A B} (m : result A) (f : A -> result B)
    (P : A -> Prop) (Q : B -> Prop) :
  post m P -> (forall a, P a -> post (f a) Q) -> post (m ≫= f) Q.
Proof. destruct m; simpl; intros H Hf; [apply Hf, H | destruct H ..]. Qed.

Lemma post_weaken {A} (m : result A) (P Q : A -> Prop) :
  post m P -> (forall a, P a -> Q a) -> post m Q.
Proof. destruct m; simpl; intros H Hf; [apply Hf, H | destruct H ..]. Qed.

Lemma post_inv {A} (m : result A) (P : A -> Prop) :
  post m P -> exists a, m = Ok a /\ P a.
Proof. destruct m; simpl; intros H; [eauto | destruct H ..]. Qed.

Lemma post_intro {A} (m : result A) (P : A -> Prop) (a : A) :
  m = Ok a -> P a -> post m P.
Proof. intros -> H. exact H. Qed.

(** ** What a handler may change *)

Lemma Wk_refl w : Wk w w.
Proof. unfold Wk. tauto. Qed.

Lemma Wk_trans w1 w2 w3 : Wk w1 w2 -> Wk w2 w3 -> Wk w1 w3.
Proof. unfold Wk. intuition congruence. Qed.

Lemma Wset_refl w : Wset w w.
Proof. unfold Wset, Wk. tauto. Qed.

Lemma Wset_trans w1 w2 w3 : Wset w1 w2 -> Wset w2 w3 -> Wset w1 w3.
Proof. unfold Wset, Wk. intuition congruence. Qed.

Lemma Wself_refl w : Wself w w.
Proof. unfold Wself, Wtop. tauto. Qed.

Lemma Wself_trans w1 w2 w3 : Wself w1 w2 -> Wself w2 w3 -> Wself w1 w3.
Proof.
  unfold Wself, Wtop.
  intros (T1 & P1 & C1 & K1) (T2 & P2 & C2 & K2).
  split; [intuition congruence |].
  split; [congruence |]. split; [congruence |].
  intros Hro.
  assert (Hro2 : isReadOnly (text_field w2) = true)
    by (destruct T1 as (_ & _ & -> & _); exact Hro).
  assert (Ht : toPlainText (text_field w2) = toPlainText (text_field w1))
    by tauto.
  destruct (K1 Hro) as [E1 | [E1 E1']];
    destruct (K2 Hro2) as [E2 | [E2 E2']].
  - left. congruence.
  - right. split; congruence.
  - right. split; congruence.
  - right. split; congruence.
Qed.

Lemma Wself_Wset w w' : Wself w w' -> Wset w w'.
Proof. unfold Wself, Wtop, Wset, Wk. intuition congruence. Qed.

Lemma Wset_Wk w w' : Wset w w' -> Wk w w'.
Proof. unfold Wset. tauto. Qed.

Lemma Wself_Wk w w' : Wself w w' -> Wk w w'.
Proof. intros H. apply Wset_Wk, Wself_Wset, H. Qed.

Lemma eq_Wk (w w' : DeenWidget) : w = w' -> Wk w w'.
Proof. intros ->. apply Wk_refl. Qed.

Lemma Wk_quietRO w w' : Wk w w' -> quietRO w -> quietRO w'.
Proof. unfold Wk, quietRO. intuition congruence. Qed.

Lemma Wk_armed w w' : Wk w w' -> armed w' = armed w.
Proof.
  unfold Wk, armed, focused. intros (-> & -> & -> & _). reflexivity.
Qed.

Lemma quietRO_unarmed w : quietRO w -> armed w = false.
Proof.
  unfold quietRO, armed, focused. intros (_ & -> & -> & ->). reflexivity.
Qed.

Lemma quietRO_init : quietRO (DeenWidget_init true false).
Proof. unfold quietRO. simpl. tauto. Qed.

Section Relations.

Variable W : DeenWidget -> DeenWidget -> Prop.
Hypothesis W_refl : forall w, W w w.
Hypothesis W_trans : forall a b c, W a b -> W b c -> W a c.
Hypothesis W_Wk : forall a b, W a b -> Wk a b.

Lemma B_refl n s : n < length (widgets s) -> B W n s s.
Proof.
  intros H. destruct (lookup_ex s n H) as [w Hw].
  split; [reflexivity |]. split; [exists w, w; auto |].
  intros k w' _ Hk. right. exists w'. split; [exact Hk | apply Wk_refl].
Qed.

Lemma B_trans n s1 s2 s3 : B W n s1 s2 -> B W n s2 s3 -> B W n s1 s3.
Proof.
  intros (P1 & (a & b & Ha & Hb & Hab) & R1)
         (P2 & (b' & c & Hb' & Hc & Hbc) & R2).
  assert (b' = b) by congruence. subst b'.
  split; [intros k Hk; rewrite P2, P1; auto |].
  split; [exists a, c; eauto |].
  intros k w3 Hk H3.
  destruct (R2 k w3 Hk H3) as [Hq | (w2 & H2 & H23)]; [left; exact Hq |].
  destruct (R1 k w2 Hk H2) as [Hq | (w1 & H1 & H12)].
  - left. eapply Wk_quietRO; eauto.
  - right. exists w1. split; [exact H1 | eapply Wk_trans; eauto].
Qed.

Lemma B_length n s s' : B W n s s' -> n < length (widgets s').
Proof. intros (_ & (w & w' & _ & H & _) & _). eapply lookup_lt, H. Qed.

Lemma B_length0 n s s' : B W n s s' -> n < length (widgets s).
Proof. intros (_ & (w & w' & H & _ & _) & _). eapply lookup_lt, H. Qed.

Lemma B_unarmed n s s' k :
  n <= k -> B W n s s' -> unarmed_from k s -> unarmed_from k s'.
Proof.
  intros Hnk (P & (a & b & Ha & Hb & Hab) & Rst) Hu j w' Hj Hw'.
  destruct (decide (j = n)) as [-> | Hne].
  - assert (w' = b) by congruence. subst w'.
    rewrite (Wk_armed a b) by auto. apply (Hu n a Hj Ha).
  - destruct (Rst j w' ltac:(lia) Hw') as [Hq | (w & Hw & Hww)].
    + apply quietRO_unarmed, Hq.
    + rewrite (Wk_armed w w') by auto. apply (Hu j w Hj Hw).
Qed.

Lemma B_inv n s s' : B W n s s' -> inv s -> inv s'.
Proof.
  intros (P & (a & b & Ha & Hb & Hab) & Rst) Hi k w' Hk.
  destruct (lt_eq_lt_dec k n) as [[Hlt | ->] | Hgt].
  - rewrite P in Hk by exact Hlt. apply (Hi k w' Hk).
  - assert (w' = b) by congruence. subst w'.
    destruct (W_Wk a b Hab) as (_ & _ & -> & -> & _). apply (Hi n a Ha).
  - destruct (Rst k w' Hgt Hk) as [Hq | (w & Hw & Hww)].
    + destruct Hq as (_ & _ & _ & ->). intros [x Hx]. discriminate.
    + destruct Hww as (_ & _ & -> & -> & _). apply (Hi k w Hw).
Qed.

Lemma Rel_refl n s : n < length (widgets s) -> Rel W n s s.
Proof.
  intros H. split; [apply B_refl, H |]. split; [lia |]. intros _. lia.
Qed.

Lemma Rel_trans n s1 s2 s3 :
  Rel W n s1 s2 -> Rel W n s2 s3 -> Rel W n s1 s3.
Proof.
  intros (B1 & M1 & G1) (B2 & M2 & G2).
  split; [eapply B_trans; eauto |]. split; [lia |].
  intros Hu. specialize (G1 Hu).
  assert (Hu2 : unarmed_from (S n) s2)
    by (eapply B_unarmed; [| exact B1 | exact Hu]; lia).
  specialize (G2 Hu2). lia.
Qed.

Lemma Gf_trans n s1 s2 s3 :
  B W n s1 s2 -> Gf n s1 s2 -> Gf n s2 s3 -> Gf n s1 s3.
Proof.
  intros B1 G1 G2 Hu. specialize (G1 Hu).
  assert (Hu2 : unarmed_from n s2)
    by (eapply B_unarmed; [| exact B1 | exact Hu]; lia).
  specialize (G2 Hu2). lia.
Qed.

End Relations.

Lemma B_weaken (W W' : DeenWidget -> DeenWidget -> Prop) n s s' :
  (forall a b, W a b -> W' a b) -> B W n s s' -> B W' n s s'.
Proof.
  intros HW (P & (a & b & Ha & Hb & Hab) & Rst).
  split; [exact P |]. split; [exists a, b; auto | exact Rst].
Qed.

Lemma Rel_weaken (W W' : DeenWidget -> DeenWidget -> Prop) n s s' :
  (forall a b, W a b -> W' a b) -> Rel W n s s' -> Rel W' n s s'.
Proof.
  intros HW (HB & M & G). split; [eapply B_weaken; eauto | tauto].
Qed.

(** *** The elementary changes *)

Lemma Efcc_Eset n s s' : Efcc n s s' -> Eset n s s'.
Proof.
  intros [H G]. split; [| exact G].
  eapply Rel_weaken; [apply Wself_Wset | exact H].
Qed.

Lemma Eset_trans n s1 s2 s3 : Eset n s1 s2 -> Eset n s2 s3 -> Eset n s1 s3.
Proof.
  intros [H1 G1] [H2 G2]. split.
  - eapply Rel_trans; eauto using Wset_trans, Wset_Wk.
  - eapply (Gf_trans Wset); eauto using Wset_Wk. apply H1.
Qed.

Lemma Efcc_trans n s1 s2 s3 : Efcc n s1 s2 -> Efcc n s2 s3 -> Efcc n s1 s3.
Proof.
  intros [H1 G1] [H2 G2]. split.
  - eapply Rel_trans; eauto using Wself_trans, Wself_Wk.
  - eapply (Gf_trans Wself); eauto using Wself_Wk. apply H1.
Qed.

Lemma mu_modify (k : nat) f (s : EncoderWidget) :
  (forall w, s @ k = Some w -> current_pick (f w) = current_pick w) ->
  mu (modify k f s) = mu s.
Proof.
  intros Hf. unfold mu. rewrite modify_length. f_equal.
  destruct (decide (k = length (widgets s) - 1)) as [-> | Hne].
  - rewrite modify_eq.
    destruct (s @ (length (widgets s) - 1)) as [w |] eqn:E; simpl;
      [rewrite (Hf w) |]; reflexivity.
  - rewrite modify_ne by exact Hne. reflexivity.
Qed.

Lemma Rel_modify_self (W : DeenWidget -> DeenWidget -> Prop) n f s w :
  s @ n = Some w -> W w (f w) -> current_pick (f w) = current_pick w ->
  Rel W n s (modify n f s) /\ Gf n s (modify n f s).
Proof.
  intros Hw HW Hp. split; [split; [| split] |].
  - split; [intros k Hk; apply modify_ne; lia |].
    split; [exists w, (f w); rewrite modify_eq, Hw; auto |].
    intros k w' Hk Hk'. rewrite modify_ne in Hk' by lia.
    right. exists w'. split; [exact Hk' | apply Wk_refl].
  - rewrite mu_modify; [lia |]. intros x Hx.
    assert (x = w) by congruence. subst x. exact Hp.
  - intros _. rewrite modify_length. lia.
  - intros _. rewrite modify_length. lia.
Qed.

Lemma Rel_modify_after n m f s :
  n < m -> n < length (widgets s) -> (forall x, Wk x (f x)) ->
  Rel eq n s (modify m f s).
Proof.
  intros Hnm Hn HW. destruct (lookup_ex s n Hn) as [w Hw].
  split; [| split].
  - split; [intros k Hk; apply modify_ne; lia |].
    split; [exists w, w; rewrite modify_ne by lia; auto |].
    intros k w' Hk Hk'. right.
    destruct (decide (m = k)) as [-> | Hne].
    + rewrite modify_eq in Hk'. destruct (s @ k) as [x |]; [| discriminate].
      simpl in Hk'. exists x. split; [reflexivity |].
      assert (w' = f x) by congruence. subst w'. apply HW.
    + rewrite modify_ne in Hk' by exact Hne. exists w'.
      split; [exact Hk' | apply Wk_refl].
  - rewrite mu_modify; [lia |]. intros x _. apply (HW x).
  - intros _. rewrite modify_length. lia.
Qed.

(** States with the same widgets are not told apart. *)
Lemma Rel_same_widgets W n s s' :
  (forall w, W w w) -> n < length (widgets s) -> widgets s' = widgets s ->
  Rel W n s s' /\ Gf n s s'.
Proof.
  intros HW Hn Heq. unfold Rel, B, mu, Ga, Gf. rewrite Heq.
  destruct (lookup_ex s n Hn) as [w Hw].
  split; [split; [split; [reflexivity |]; split |] |].
  - exists w, w. auto.
  - intros k w' _ Hk. right. exists w'. split; [exact Hk | apply Wk_refl].
  - split; [lia | intros _; lia].
  - intros _. lia.
Qed.

Lemma mu_truncate j s : 0 < j -> mu (truncate j s) <= mu s.
Proof.
  intros Hj. unfold mu, truncate. simpl.
  destruct (le_lt_dec (length (widgets s)) j) as [Hge | Hlt].
  - rewrite take_ge by exact Hge. lia.
  - rewrite length_take_le by lia.
    destruct (take j (widgets s) !! (j - 1)) as [w |];
      [destruct (current_pick w) |]; lia.
Qed.

Lemma Rel_truncate n j s :
  n < j -> n < length (widgets s) ->
  Rel eq n s (truncate j s) /\ Gf n s (truncate j s).
Proof.
  intros Hnj Hn. destruct (lookup_ex s n Hn) as [w Hw].
  assert (Hlen : length (widgets (truncate j s)) <= length (widgets s))
    by (unfold truncate; simpl; rewrite length_take; lia).
  split; [split; [| split] |].
  - split; [intros k Hk; unfold truncate; simpl;
            apply lookup_take_lt; lia |].
    split; [exists w, w; unfold truncate; simpl;
            rewrite lookup_take_lt by lia; auto |].
    intros k w' Hk Hk'. right. exists w'. split; [| apply Wk_refl].
    unfold truncate in Hk'. simpl in Hk'.
    apply lookup_take_Some in Hk'. tauto.
  - apply mu_truncate. lia.
  - intros _. lia.
  - intros _. lia.
Qed.

(** From the handlers of the follower to the handlers of [n]. *)
Lemma Rel_shift (W : DeenWidget -> DeenWidget -> Prop) n s s' :
  (forall a b, W a b -> Wk a b) -> n < length (widgets s) ->
  Rel W (S n) s s' -> Gf (S n) s s' -> Rel eq n s s'.
Proof.
  intros HW Hn ((P & (a & b & Ha & Hb & Hab) & Rst) & M & G) G'.
  destruct (lookup_ex s n Hn) as [w Hw].
  split; [| split; [exact M |]].
  - split; [intros k Hk; apply P; lia |].
    split; [exists w, w; rewrite P by lia; auto |].
    intros k w' Hk Hk'.
    destruct (decide (k = S n)) as [-> | Hne].
    + right. exists a. split; [exact Ha |].
      assert (w' = b) by congruence. subst w'. apply HW, Hab.
    + apply Rst; [lia | exact Hk'].
  - intros Hu. specialize (G' Hu). lia.
Qed.

Lemma Rel_eq_W (W : DeenWidget -> DeenWidget -> Prop) n s s' :
  (forall w, W w w) -> Rel eq n s s' -> Rel W n s s'.
Proof. intros HW. apply Rel_weaken. intros a b ->. apply HW. Qed.

(** [next] when the follower exists, and when it does not. *)
Lemma next_exists n s : S n < length (widgets s) -> next n s = Ok (S n, s).
Proof.
  intros H. unfold next, has_next.
  destruct (Nat.eqb_spec (length (widgets s) - 1) n); [lia |]. simpl.
  destruct (Nat.ltb_spec (S n) (length (widgets s))); [reflexivity | lia].
Qed.

Lemma next_last n s :
  length (widgets s) = S n -> next n s = Ok (S n, appended s).
Proof.
  intros H. unfold next, has_next. rewrite H.
  replace (S n - 1) with n by lia. rewrite Nat.eqb_refl. reflexivity.
Qed.

Lemma Rel_appended n s :
  length (widgets s) = S n -> n + 2 <= mu s -> Rel eq n s (appended s).
Proof.
  intros Hlen Hmu.
  destruct (lookup_ex s n ltac:(lia)) as [w Hw].
  split; [| split].
  - split; [intros k Hk; unfold appended; simpl;
            apply lookup_app_l; lia |].
    split; [exists w, w; unfold appended; simpl;
            rewrite lookup_app_l by lia; auto |].
    intros k w' Hk Hk'. left. unfold appended in Hk'. simpl in Hk'.
    rewrite lookup_app_r in Hk' by lia.
    destruct (k - length (widgets s)) as [| j]; simpl in Hk';
      [| discriminate].
    assert (w' = DeenWidget_init true false) by congruence. subst w'.
    apply quietRO_init.
  - unfold mu in *. unfold appended at 1 2. simpl.
    rewrite length_app. simpl.
    replace (length (widgets s) + 1 - 1) with (length (widgets s)) by lia.
    rewrite lookup_app_r by lia. rewrite Nat.sub_diag. simpl.
    lia.
  - intros _. unfold appended. simpl. rewrite length_app. simpl. lia.
Qed.

Lemma next_spec n s :
  n < length (widgets s) -> n + 2 <= mu s ->
  exists s1, next n s = Ok (S n, s1) /\ Rel eq n s s1 /\
             S n < length (widgets s1).
Proof.
  intros Hn Hmu.
  destruct (decide (length (widgets s) = S n)) as [Hlast | Hnot].
  - exists (appended s). split; [apply next_last, Hlast |].
    split; [apply Rel_appended; assumption |].
    unfold appended. simpl. rewrite length_app. simpl. lia.
  - exists s. split; [apply next_exists; lia |].
    split; [apply Rel_refl; auto | lia].
Qed.

(** ** The methods, given what the slots guarantee *)

Lemma bind_Ok {A B} (a : A) (f : A -> result B) : (Ok a ≫= f) = f a.
Proof. reflexivity. Qed.

Ltac solve_W :=
  intros;
  repeat match goal with
         | w : DeenWidget |- _ =>
           destruct w as [? ? ? [? ? ? ? ?] [? ? ? ?] ? ? ? ? ? ? ?]
         end;
  unfold Wself, Wtop, Wset, Wk; cbn in *; intuition (auto; congruence).

(** Replace a call by its result and go on. *)
Ltac step_eq H := rewrite H; rewrite ?bind_Ok; cbv beta iota zeta.

Lemma Efcc_refl n s : n < length (widgets s) -> Efcc n s s.
Proof.
  intros H. split; [apply Rel_refl; [apply Wself_refl | exact H] |].
  intros _. lia.
Qed.

Lemma Eset_refl n s : n < length (widgets s) -> Eset n s s.
Proof. intros H. apply Efcc_Eset, Efcc_refl, H. Qed.

Lemma Eset_modify n f s w :
  s @ n = Some w -> Wset w (f w) -> Eset n s (modify n f s).
Proof.
  intros Hw HW. apply Rel_modify_self with (w := w); auto.
  destruct HW as ((_ & _ & H & _) & _). exact H.
Qed.

Lemma Efcc_modify n f s w :
  s @ n = Some w -> Wself w (f w) -> Efcc n s (modify n f s).
Proof.
  intros Hw HW. apply Rel_modify_self with (w := w); auto.
  destruct HW as (_ & H & _). exact H.
Qed.

Lemma Efcc_fill n s w : s @ n = Some w -> Efcc n s (fill w n s).
Proof.
  intros Hw. unfold fill. destruct (_content w) eqn:E.
  - eapply Efcc_modify; [exact Hw |]. revert E. solve_W.
  - apply Efcc_refl. eapply lookup_lt, Hw.
Qed.

Lemma Eset_inv n s s' : Eset n s s' -> inv s -> inv s'.
Proof. intros [[H _] _]. eapply B_inv; [apply Wset_Wk | exact H]. Qed.

Lemma Eset_length n s s' : Eset n s s' -> n < length (widgets s').
Proof. intros [[H _] _]. eapply B_length, H. Qed.

Lemma Eset_mu n s s' : Eset n s s' -> mu s' <= mu s.
Proof. intros [(_ & H & _) _]. exact H. Qed.

Section Specs.

Variable R : Runtime.
Variable emit_changed : nat -> EncoderWidget -> result EncoderWidget.
Variable emit_currentIndexChanged :
  nat -> Combo -> EncoderWidget -> result EncoderWidget.

(** The number of emission levels the slots can take. *)
Variable f : nat.

Hypothesis emit_changed_spec : forall n s,
  inv s -> n < length (widgets s) -> mu s <= n + f ->
  post (emit_changed n s) (Efcc n s).

Hypothesis emit_currentIndexChanged_spec : forall n c s w,
  1 <= f -> s @ n = Some w -> currentIndex c (combos w) = 0 ->
  emit_currentIndexChanged n c s = Ok (fill w n s).

Lemma setPlainText_spec n t s :
  inv s -> n < length (widgets s) -> mu s <= n + f ->
  post (setPlainText emit_changed n t s)
    (Efcc n (modify n (on_text_field (setPlainText_ t)) s)).
Proof.
  intros Hi Hn Hmu. destruct (lookup_ex s n Hn) as [w Hw].
  assert (E : Eset n s (modify n (on_text_field (setPlainText_ t)) s))
    by (eapply Eset_modify; [exact Hw | solve_W]).
  unfold setPlainText. apply emit_changed_spec.
  - eapply Eset_inv; eauto.
  - eapply Eset_length; eauto.
  - apply Eset_mu in E. lia.
Qed.

Lemma setPlainText_Eset n t s :
  inv s -> n < length (widgets s) -> mu s <= n + f ->
  post (setPlainText emit_changed n t s) (Eset n s).
Proof.
  intros Hi Hn Hmu. destruct (lookup_ex s n Hn) as [w Hw].
  eapply post_weaken; [apply setPlainText_spec; assumption |].
  intros s' H. eapply Eset_trans; [| apply Efcc_Eset, H].
  eapply Eset_modify; [exact Hw | solve_W].
Qed.

Lemma hex_field_set_content_spec n d s :
  inv s -> n < length (widgets s) -> mu s <= n + f ->
  post (hex_field_set_content R emit_changed n d s)
    (Efcc n (modify n (on_hex_field (hex_set_content_ d)) s)).
Proof.
  intros Hi Hn Hmu. destruct (lookup_ex s n Hn) as [w Hw].
  assert (E : Eset n s (modify n (on_hex_field (hex_set_content_ d)) s))
    by (eapply Eset_modify; [exact Hw | solve_W]).
  unfold hex_field_set_content. destruct (hex_content_emits R).
  - apply emit_changed_spec.
    + eapply Eset_inv; eauto.
    + eapply Eset_length; eauto.
    + apply Eset_mu in E. lia.
  - apply post_Ok, Efcc_refl. eapply Eset_length; eauto.
Qed.

Lemma hex_field_set_content_Eset n d s :
  inv s -> n < length (widgets s) -> mu s <= n + f ->
  post (hex_field_set_content R emit_changed n d s) (Eset n s).
Proof.
  intros Hi Hn Hmu. destruct (lookup_ex s n Hn) as [w Hw].
  eapply post_weaken; [apply hex_field_set_content_spec; assumption |].
  intros s' H. eapply Eset_trans; [| apply Efcc_Eset, H].
  eapply Eset_modify; [exact Hw | solve_W].
Qed.

Lemma content_setter_spec n d s :
  inv s -> n < length (widgets s) -> mu s <= n + f ->
  post (content_setter R emit_changed n d s) (Eset n s).
Proof.
  intros Hi Hn Hmu. destruct (lookup_ex s n Hn) as [w Hw].
  unfold content_setter.
  set (s0 := modify n (set__content d) s).
  assert (E0 : Eset n s s0) by (eapply Eset_modify; [exact Hw | solve_W]).
  assert (Hw0 : s0 @ n = Some (set__content d w))
    by (unfold s0; rewrite modify_eq, Hw; reflexivity).
  step_eq (widget_at_Some _ _ _ Hw0).
  destruct (hex_view (set__content d w)).
  - eapply post_weaken.
    + apply hex_field_set_content_Eset;
        [eapply Eset_inv; eauto | eapply Eset_length; eauto
        | apply Eset_mu in E0; lia].
    + intros s' H. eapply Eset_trans; eauto.
  - match goal with
    | |- post (setPlainText _ _ _ ?s1) _ =>
      assert (E1 : Eset n s0 s1)
    end.
    { destruct (negb _); [| apply Eset_refl; eapply Eset_length; eauto].
      eapply Eset_modify; [exact Hw0 | solve_W]. }
    assert (E01 := Eset_trans _ _ _ _ E0 E1).
    eapply post_weaken.
    + apply setPlainText_Eset;
        [eapply Eset_inv; eauto | eapply Eset_length; eauto
        | apply Eset_mu in E01; lia].
    + intros s' H. eapply Eset_trans; eauto.
Qed.

Lemma modify_modify n (g h : DeenWidget -> DeenWidget) s :
  modify n g (modify n h s) = modify n (fun w => g (h w)) s.
Proof.
  unfold modify. simpl. f_equal. apply list_alter_alter_eq.
Qed.

Lemma view_hex_spec n s :
  inv s -> n < length (widgets s) -> mu s <= n + f ->
  post (view_hex R emit_changed n s) (Eset n s).
Proof.
  intros Hi Hn Hmu. destruct (lookup_ex s n Hn) as [w Hw].
  unfold view_hex. cbv zeta. rewrite !modify_modify.
  match goal with
  | |- context [widget_at n (modify n ?g s)] =>
    set (s0 := modify n g s);
    assert (E0 : Eset n s s0)
      by (eapply Eset_modify; [exact Hw | solve_W]);
    assert (Hw0 : s0 @ n = Some (g w))
      by (unfold s0; rewrite modify_eq, Hw; reflexivity)
  end.
  step_eq (widget_at_Some _ _ _ Hw0).
  match goal with
  | |- context [widget_at n ?s1'] =>
    set (s1 := s1'); assert (E1 : Eset n s0 s1)
  end.
  { unfold s1. destruct (_content _).
    - eapply Eset_modify; [exact Hw0 | solve_W].
    - apply Eset_refl. eapply Eset_length; eauto. }
  assert (E01 := Eset_trans _ _ _ _ E0 E1).
  destruct (lookup_ex s1 n (Eset_length _ _ _ E01)) as [w1 Hw1].
  step_eq (widget_at_Some _ _ _ Hw1).
  eapply post_weaken.
  - apply hex_field_set_content_Eset;
      [eapply Eset_inv; eauto | eapply Eset_length; eauto
      | apply Eset_mu in E01; lia].
  - intros s' H. eapply Eset_trans; eauto.
Qed.

Lemma mu_lower s n w :
  s @ n = Some w -> is_Some (current_pick w) -> n + 2 <= mu s.
Proof.
  intros Hw [p Hp]. assert (Hn := lookup_lt _ _ _ Hw). unfold mu.
  destruct (decide (n = length (widgets s) - 1)) as [E | E].
  - rewrite <- E, Hw, Hp. lia.
  - destruct (s @ (length (widgets s) - 1)) as [x |];
      [destruct (current_pick x) |]; lia.
Qed.

Lemma mu_length s : length (widgets s) <= mu s.
Proof. unfold mu. lia. Qed.

Lemma Rel_eq_inv n s s' : Rel eq n s s' -> inv s -> inv s'.
Proof. intros [H _]. eapply B_inv; [apply eq_Wk | exact H]. Qed.

Lemma Rel_eq_lookup n s s' w :
  Rel eq n s s' -> s @ n = Some w -> s' @ n = Some w.
Proof.
  intros ((_ & (a & b & Ha & Hb & ->) & _) & _) Hw. congruence.
Qed.

Lemma Eset_shift n s s' :
  n < length (widgets s) -> Eset (S n) s s' -> Rel eq n s s'.
Proof.
  intros Hn [H G].
  apply (Rel_shift Wset); [apply Wset_Wk | exact Hn | exact H | exact G].
Qed.

Lemma Rel_eq_trans n s1 s2 s3 :
  Rel eq n s1 s2 -> Rel eq n s2 s3 -> Rel eq n s1 s3.
Proof.
  apply Rel_trans; [congruence | apply eq_Wk].
Qed.

Lemma set_content_next_spec n d s :
  inv s -> n < length (widgets s) -> n + 2 <= mu s -> mu s <= n + 1 + f ->
  post (set_content_next R emit_changed n d s)
    (fun s' => Rel eq n s s' /\ S n < length (widgets s')).
Proof.
  intros Hi Hn Hlo Hmu. unfold set_content_next.
  destruct (next_spec n s Hn Hlo) as (s1 & Hnext & R1 & L1).
  step_eq Hnext.
  assert (Hi1 := Rel_eq_inv _ _ _ R1 Hi).
  assert (Hm1 : mu s1 <= S n + f) by (destruct R1 as (_ & ? & _); lia).
  assert (Hn1 : n < length (widgets s1)) by lia.
  cut (post
    (s2 ← content_setter R emit_changed (S n) d s1;
     '(n0, s3) ← next n s2;
     '(n', s4) ← next n s3;
     w' ← widget_at n' s4;
     s5 ← setPlainText emit_changed n0 (toUnicode (_content w')) s4;
     '(n1, s6) ← next n s5;
     let s7 := update_length_field n1 s6 in
     '(n2, s8) ← next n s7;
     w ← widget_at n2 s8;
     (if hex_view w
      then '(n3, s9) ← next n s8; view_hex R emit_changed n3 s9
      else Ok s8)) (Eset (S n) s1)).
  { intros H. eapply post_weaken; [exact H |]. intros s' E. split.
    - eapply Rel_eq_trans; [exact R1 |]. apply Eset_shift; assumption.
    - eapply Eset_length, E. }
  eapply post_bind; [apply content_setter_spec; assumption |].
  intros s2 E2.
  assert (L2 := Eset_length _ _ _ E2).
  step_eq (next_exists n s2 L2). step_eq (next_exists n s2 L2).
  destruct (lookup_ex s2 (S n) L2) as [w2 Hw2].
  step_eq (widget_at_Some _ _ _ Hw2).
  eapply post_bind.
  { apply setPlainText_Eset;
      [eapply Eset_inv; eauto | exact L2 | apply Eset_mu in E2; lia]. }
  intros s3 E3. assert (E13 := Eset_trans _ _ _ _ E2 E3).
  assert (L3 := Eset_length _ _ _ E13).
  step_eq (next_exists n s3 L3).
  destruct (lookup_ex s3 (S n) L3) as [w3 Hw3].
  assert (E4 : Eset (S n) s3 (update_length_field (S n) s3)).
  { unfold update_length_field. eapply Eset_modify; [exact Hw3 | solve_W]. }
  assert (E14 := Eset_trans _ _ _ _ E13 E4).
  assert (L4 := Eset_length _ _ _ E14).
  step_eq (next_exists n _ L4).
  destruct (lookup_ex _ (S n) L4) as [w4 Hw4].
  step_eq (widget_at_Some _ _ _ Hw4).
  destruct (hex_view w4).
  - step_eq (next_exists n _ L4).
    eapply post_weaken.
    + apply view_hex_spec;
        [eapply Eset_inv; eauto | exact L4 | apply Eset_mu in E14; lia].
    + intros s' H. eapply Eset_trans; eauto.
  - apply post_Ok. exact E14.
Qed.

Lemma set_error_next_spec n s :
  n < length (widgets s) -> n + 2 <= mu s ->
  post (set_error_next n s)
    (fun s' => Rel eq n s s' /\ length (widgets s') = n + 2 /\
               exists w', s' @ (S n) = Some w' /\
                          styleSheet (text_field w') = red).
Proof.
  intros Hn Hlo. unfold set_error_next.
  destruct (next_spec n s Hn Hlo) as (s1 & Hnext & R1 & L1).
  step_eq Hnext. cbv zeta.
  set (s2 := modify (S n) _ s1).
  assert (R2 : Rel eq n s1 s2)
    by (apply Rel_modify_after; [lia | lia | solve_W]).
  assert (L2 : S n < length (widgets s2))
    by (unfold s2; rewrite modify_length; exact L1).
  destruct (lookup_ex s1 (S n) L1) as [w1 Hw1].
  assert (Hw2 : s2 @ (S n) = Some (on_text_field (setStyleSheet_ red) w1))
    by (unfold s2; rewrite modify_eq, Hw1; reflexivity).
  clearbody s2.
  rewrite (remove_next_widgets_take n (Some (S n)) 1 s2 L2).
  change (default n (Some (S n))) with (S n).
  destruct (Nat.leb_spec (S n + 1) (length (widgets s2))) as [_ | ?];
    [| lia].
  rewrite Nat.max_r by lia.
  apply post_Ok. fold (truncate (S n + 1) s2).
  destruct (Rel_truncate n (S n + 1) s2 ltac:(lia) ltac:(lia)) as [R3 _].
  split; [eapply Rel_eq_trans; [exact R1 |];
          eapply Rel_eq_trans; eauto |].
  split; [unfold truncate; simpl; rewrite length_take; lia |].
  exists (on_text_field (setStyleSheet_ red) w1). split; [| reflexivity].
  unfold truncate. simpl. rewrite lookup_take_lt by lia. exact Hw2.
Qed.

Lemma fill_index w n s w' c :
  s @ n = Some w' -> currentIndex c (combos w') = 0 ->
  exists w'', fill w n s @ n = Some w'' /\ currentIndex c (combos w'') = 0.
Proof.
  intros Hw Hc. unfold fill. destruct (_content w).
  - rewrite modify_eq, Hw. eexists. split; [reflexivity | exact Hc].
  - eauto.
Qed.

Lemma setCurrentIndex_spec n c s w :
  1 <= f -> s @ n = Some w ->
  post (setCurrentIndex emit_currentIndexChanged n c 0 s)
    (fun s' => Efcc n s s' /\
               exists w', s' @ n = Some w' /\
                          currentIndex c (combos w') = 0).
Proof.
  intros Hf Hw. unfold setCurrentIndex.
  step_eq (widget_at_Some _ _ _ Hw).
  destruct (Nat.eqb_spec (currentIndex c (combos w)) 0) as [E | E].
  - apply post_Ok. split; [apply Efcc_refl; eapply lookup_lt, Hw | eauto].
  - set (s0 := modify n _ s).
    assert (E0 : Efcc n s s0)
      by (eapply Efcc_modify; [exact Hw | solve_W]).
    assert (Hw0 : s0 @ n = Some (set_combos (with_index c 0 (combos w)) w))
      by (unfold s0; rewrite modify_eq, Hw; reflexivity).
    assert (Hc0 : currentIndex c
              (combos (set_combos (with_index c 0 (combos w)) w)) = 0)
      by (destruct c; reflexivity).
    rewrite (emit_currentIndexChanged_spec n c s0 _ Hf Hw0 Hc0).
    apply post_Ok. split.
    + eapply Efcc_trans; [exact E0 | apply Efcc_fill, Hw0].
    + eapply fill_index; eauto.
Qed.

Lemma Efcc_lookup n s s' w :
  Efcc n s s' -> s @ n = Some w ->
  exists w', s' @ n = Some w' /\ Wself w w'.
Proof.
  intros [((_ & (a & b & Ha & Hb & Hab) & _) & _) _] Hw.
  exists b. split; [exact Hb | congruence].
Qed.

Lemma Efcc_inv n s s' : Efcc n s s' -> inv s -> inv s'.
Proof. intros H. eapply Eset_inv, Efcc_Eset, H. Qed.

Lemma Rel_eq_Wself n s s' : Rel eq n s s' -> Rel Wself n s s'.
Proof. apply Rel_eq_W, Wself_refl. Qed.

Lemma Rel_Wself_trans n s1 s2 s3 :
  Rel Wself n s1 s2 -> Rel Wself n s2 s3 -> Rel Wself n s1 s3.
Proof. apply Rel_trans; [apply Wself_trans | apply Wself_Wk]. Qed.

Lemma Rel_eq_length n s s' : Rel eq n s s' -> n < length (widgets s').
Proof. intros [H _]. eapply B_length, H. Qed.

(** [set_content_next] and [set_error_next] in the course of [action]. *)
Lemma set_content_next_after n d s s0 w :
  inv s -> s @ n = Some w -> is_Some (current_pick w) ->
  mu s <= n + S f -> Rel eq n s s0 ->
  post (set_content_next R emit_changed n d s0)
    (fun s1 => Rel eq n s s1).
Proof.
  intros Hi Hw Hp Hmu R0.
  assert (Hw0 := Rel_eq_lookup _ _ _ _ R0 Hw).
  eapply post_weaken.
  - apply set_content_next_spec.
    + eapply Rel_eq_inv; eauto.
    + eapply lookup_lt, Hw0.
    + eapply mu_lower; eauto.
    + destruct R0 as (_ & ? & _). lia.
  - intros s1 [R1 _]. eapply Rel_eq_trans; eauto.
Qed.

Lemma set_error_next_after n e s w :
  s @ n = Some w -> is_Some (current_pick w) ->
  post (set_error_next n (LOGGER_error e s)) (fun s1 => Rel eq n s s1).
Proof.
  intros Hw Hp. eapply post_weaken.
  - apply set_error_next_spec.
    + exact (lookup_lt _ _ _ Hw).
    + exact (mu_lower _ _ _ Hw Hp).
  - intros s1 (R1 & _). exact R1.
Qed.

Lemma action_transform_spec n s w :
  inv s -> s @ n = Some w -> is_Some (current_pick w) ->
  mu s <= n + S f ->
  post (action_transform R emit_changed emit_currentIndexChanged n s)
    (fun s' =>
       Rel Wself n s s' /\
       forall c, current_combo w = Some c ->
         exists w', s' @ n = Some w' /\ currentIndex c (combos w') = 0).
Proof.
  intros Hi Hw Hp Hmu.
  assert (Hlo := mu_lower _ _ _ Hw Hp).
  assert (Hf : 1 <= f) by lia.
  assert (Hn := lookup_lt _ _ _ Hw).
  assert (R0 : Rel eq n s s) by (apply Rel_refl; auto).
  assert (Hscn := fun d s0 => set_content_next_after n d s s0 w Hi Hw Hp Hmu).
  assert (Hsen := fun e => set_error_next_after n e s w Hw Hp).
  assert (Hok : forall s1 (err : option string),
             Rel eq n s s1 -> post (Ok (s1, err)) (fun x => Rel eq n s x.1))
    by (intros; assumption).
  unfold action_transform. step_eq (widget_at_Some _ _ _ Hw).
  eapply post_bind with (P := fun x => Rel eq n s x.1).
  { destruct (Hi n w Hw Hp) as [c Hc].
    unfold current_combo_model. rewrite Hc. rewrite ?bind_Ok.
    repeat match goal with
      | |- post (if ?b then _ else _) _ => destruct b
      | |- post (let '(_, _) := ?p in _) _ => destruct p as [? [?|]]
      | |- post (match ?x with inl _ => _ | inr _ => _ end) _ => destruct x
      | |- post (Ok _) _ => apply Hok; assumption
      | |- post (mret _) _ => apply Hok; assumption
      | |- post (set_content_next _ _ _ _ _ ≫= _) _ =>
        eapply post_bind; [apply Hscn; assumption | intros ? ?]
      | |- post (set_error_next _ _ ≫= _) _ =>
        eapply post_bind; [apply Hsen | intros ? ?]
      | |- post (widget_at _ _ ≫= _) _ =>
        erewrite widget_at_Some by (eapply Rel_eq_lookup; eassumption);
        rewrite bind_Ok
      | |- post (Ok _ ≫= _) _ => rewrite bind_Ok
      end. }
  intros [s1 err] R1. simpl in R1. unfold action_finish.
  assert (Hw1 := Rel_eq_lookup _ _ _ _ R1 Hw).
  step_eq (widget_at_Some _ _ _ Hw1).
  eapply post_bind with
    (P := fun s2 => Efcc n s1 s2 /\
            forall c, current_combo w = Some c ->
              exists w', s2 @ n = Some w' /\
                         currentIndex c (combos w') = 0).
  { destruct (current_combo w) as [c |].
    - eapply post_weaken; [eapply setCurrentIndex_spec; eassumption |].
      intros s2 [E2 Hidx]. split; [exact E2 |].
      intros c' Hc'. assert (c' = c) by congruence. subst c'. exact Hidx.
    - apply post_Ok. split; [| intros ? ?; discriminate].
      apply Efcc_refl. eapply lookup_lt, Hw1. }
  intros s2 [E2 Hidx].
  destruct (Efcc_lookup _ _ _ _ E2 Hw1) as (w2 & Hw2 & HW2).
  assert (Hp2 : is_Some (current_pick w2))
    by (destruct HW2 as (_ & -> & _); exact Hp).
  destruct (next_spec n s2 (lookup_lt _ _ _ Hw2)
              (mu_lower _ _ _ Hw2 Hp2)) as (s3 & Hnext & R3 & L3).
  step_eq Hnext.
  destruct (lookup_ex s3 (S n) L3) as [wn Hwn].
  step_eq (widget_at_Some _ _ _ Hwn).
  assert (Hw3 := Rel_eq_lookup _ _ _ _ R3 Hw2).
  step_eq (widget_at_Some _ _ _ Hw3).
  eapply post_bind with
    (P := fun s4 => Rel eq n s3 s4 /\ S n < length (widgets s4)).
  { destruct (_ && _).
    - step_eq (next_exists n s3 L3).
      step_eq (widget_at_Some _ _ _ Hw3).
      rewrite next_exists by (rewrite modify_length; exact L3).
      rewrite bind_Ok. cbv beta iota. apply post_Ok.
      rewrite modify_modify. split.
      + apply Rel_modify_after; [lia | lia | solve_W].
      + rewrite modify_length. exact L3.
    - apply post_Ok. split; [apply Rel_refl; auto; lia | exact L3]. }
  intros s4 [R4 L4].
  assert (Hfin : forall s5, Rel eq n s4 s5 ->
            Rel Wself n s s5 /\
            forall c, current_combo w = Some c ->
              exists w', s5 @ n = Some w' /\ currentIndex c (combos w') = 0).
  { intros s5 R5. split.
    - eapply Rel_Wself_trans; [apply Rel_eq_Wself, R1 |].
      eapply Rel_Wself_trans; [apply E2 |].
      apply Rel_eq_Wself.
      eapply Rel_eq_trans; [exact R3 |].
      eapply Rel_eq_trans; eauto.
    - intros c Hc. destruct (Hidx c Hc) as (w' & Hw' & Hi').
      exists w'. split; [| exact Hi'].
      eapply Rel_eq_lookup; [exact R5 |].
      eapply Rel_eq_lookup; [exact R4 |].
      eapply Rel_eq_lookup; [exact R3 | exact Hw']. }
  destruct err.
  - apply post_Ok, Hfin, Rel_refl; auto. lia.
  - step_eq (next_exists n s4 L4). apply post_Ok, Hfin.
    apply Rel_modify_after; [lia | lia | solve_W].
Qed.

Lemma fill_lookup w n s :
  s @ n = Some w -> exists w', fill w n s @ n = Some w' /\ Wself w w'.
Proof. intros Hw. eapply Efcc_lookup; [apply Efcc_fill |]; exact Hw. Qed.

(** [action()] without a combo box, as [field_content_changed] calls it. *)
Lemma action_step_spec n s w :
  inv s -> s @ n = Some w -> is_Some (current_pick w) ->
  mu s <= n + S f ->
  post (action_step R emit_changed emit_currentIndexChanged n None s)
    (Rel Wself n s).
Proof.
  intros Hi Hw Hp Hmu. unfold action_step.
  step_eq (widget_at_Some _ _ _ Hw). fold (fill w n s).
  assert (E0 := Efcc_fill n s w Hw).
  destruct (fill_lookup w n s Hw) as (w0 & Hw0 & HW0).
  eapply post_weaken.
  - eapply action_transform_spec.
    + eapply Efcc_inv; eauto.
    + exact Hw0.
    + destruct HW0 as (_ & -> & _). exact Hp.
    + destruct E0 as [(_ & ? & _) _]. lia.
  - intros s' [H _]. eapply Rel_Wself_trans; [apply E0 | exact H].
Qed.

Lemma has_next_modify n k g s :
  has_next n (modify k g s) = has_next n s.
Proof. unfold has_next. rewrite modify_length. reflexivity. Qed.

Lemma Gf_armed n s s' w :
  s @ n = Some w -> armed w = true -> Gf n s s'.
Proof.
  intros Hw Ha Hu. rewrite (Hu n w (le_n n) Hw) in Ha. discriminate.
Qed.

Lemma truthy_is_Some p : truthy p = true -> is_Some p.
Proof. destruct p; [eauto | discriminate]. Qed.

Lemma field_content_changed_step_spec n s :
  inv s -> n < length (widgets s) -> mu s <= n + S f ->
  post (field_content_changed_step R emit_changed emit_currentIndexChanged
          n s) (Efcc n s).
Proof.
  intros Hi Hn Hmu. destruct (lookup_ex s n Hn) as [w Hw].
  unfold field_content_changed_step.
  step_eq (widget_at_Some _ _ _ Hw).
  match goal with
  | |- context [has_next n ?s0'] =>
    set (s0 := s0'); assert (E0 : Efcc n s s0)
  end.
  { unfold s0. destruct (action_panel_isHidden w).
    - eapply Efcc_modify; [exact Hw | solve_W].
    - apply Efcc_refl, Hn. }
  assert (L0 : length (widgets s0) = length (widgets s))
    by (unfold s0; destruct (action_panel_isHidden w);
        [apply modify_length | reflexivity]).
  assert (Hi0 := Efcc_inv _ _ _ E0 Hi).
  assert (M0 : mu s0 <= mu s) by (destruct E0 as [(_ & ? & _) _]; lia).
  clearbody s0.
  eapply post_bind with (P := Efcc n s0).
  { unfold has_next.
    destruct (Nat.eqb_spec (length (widgets s0) - 1) n) as [Hl | Hl];
      simpl.
    - apply post_Ok, Efcc_refl. lia.
    - destruct (isReadOnly (text_field w)); simpl.
      + eapply post_weaken.
        * apply set_content_next_spec; try assumption; try lia.
          pose proof (mu_length s0). lia.
        * intros s1 [R1 L1]. split; [apply Rel_eq_Wself, R1 |].
          intros Hu. destruct R1 as (_ & _ & G). 
          assert (Hu' : unarmed_from (S n) s0)
            by (intros k x Hk; apply Hu; lia).
          specialize (G Hu'). lia.
      + rewrite (remove_next_widgets_take n None 2 s0) by (simpl; lia).
        change (default n None) with n.
        destruct (Nat.leb_spec (n + 2) (length (widgets s0))); [| lia].
        rewrite Nat.max_r by lia. apply post_Ok.
        fold (truncate (n + 2) s0).
        destruct (Rel_truncate n (n + 2) s0) as [R1 G1]; try lia.
        split; [apply Rel_eq_Wself, R1 | exact G1]. }
  intros s1 E1.
  assert (E01 := Efcc_trans _ _ _ _ E0 E1).
  destruct (Efcc_lookup _ _ _ _ E01 Hw) as (w1 & Hw1 & HW1).
  step_eq (widget_at_Some _ _ _ Hw1).
  unfold update_readonly_field, update_length_field.
  match goal with
  | |- context [widget_at n ?s2'] =>
    set (s2 := s2'); assert (E2 : Efcc n s1 s2)
  end.
  { unfold s2. destruct (isReadOnly (text_field w1)) eqn:Ero; simpl.
    - rewrite modify_modify.
      eapply Efcc_modify; [exact Hw1 | revert Ero; solve_W].
    - destruct (hex_view w1); simpl; rewrite !modify_modify;
        (eapply Efcc_modify; [exact Hw1 | revert Ero; solve_W]). }
  assert (E02 := Efcc_trans _ _ _ _ E01 E2).
  clearbody s2.
  destruct (Efcc_lookup _ _ _ _ E02 Hw) as (w2 & Hw2 & HW2).
  step_eq (widget_at_Some _ _ _ Hw2).
  fold (focused w2). fold (armed w2).
  destruct (armed w2) eqn:Ha.
  - eapply post_weaken.
    + eapply action_step_spec.
      * eapply Efcc_inv; eauto.
      * exact Hw2.
      * apply truthy_is_Some. unfold armed in Ha.
        apply andb_true_iff in Ha. tauto.
      * destruct E02 as [(_ & ? & _) _]. lia.
    + intros s' H. eapply Efcc_trans; [exact E02 |].
      split; [exact H | eapply Gf_armed; eauto].
  - apply post_Ok, E02.
Qed.

End Specs.

(** [action(combo)] when the combo box shows its placeholder: the buffer is
    filled from the text when it is empty, and nothing else happens. *)
Lemma action_placeholder R fuel n c s w :
  s @ n = Some w -> currentIndex c (combos w) = 0 ->
  action R (S fuel) n (Some c) s = Ok (fill w n s).
Proof.
  intros Hw Hc. simpl. unfold action_step.
  step_eq (widget_at_Some _ _ _ Hw). fold (fill w n s).
  destruct (fill_index w n s w c Hw Hc) as (w' & Hw' & Hc').
  step_eq (widget_at_Some _ _ _ Hw'). rewrite Hc'. reflexivity.
Qed.

(** ** The slots return: [mu s - n] levels of emissions are enough for the
    slots of widget [n] *)

Lemma field_content_changed_spec R fuel : forall n s,
  inv s -> n < length (widgets s) -> mu s <= n + fuel ->
  post (field_content_changed R fuel n s) (Efcc n s).
Proof.
  induction fuel as [| f IH]; intros n s Hi Hn Hmu.
  - pose proof (mu_length s). lia.
  - simpl. apply field_content_changed_step_spec with (f := f);
      try assumption.
    intros k c s0 w Hf Hw Hc. destruct f as [| f']; [lia |].
    apply action_placeholder; assumption.
Qed.

(** ** A widget that is last in the chain and does not dispatch *)

Lemma modify_ext n (g h : DeenWidget -> DeenWidget) s w :
  s @ n = Some w -> g w = h w -> modify n g s = modify n h s.
Proof.
  intros Hw Hgh. unfold modify. f_equal. apply list_alter_ext; [| reflexivity].
  intros x Hx. assert (x = w) by congruence. subst x. exact Hgh.
Qed.

Lemma modify_same n s w : s @ n = Some w -> modify n (fun x => x) s = s.
Proof. intros Hw. eapply modify_id; [exact Hw | reflexivity]. Qed.

Lemma has_next_last n s :
  length (widgets s) = S n -> has_next n s = false.
Proof.
  intros H. unfold has_next. rewrite H.
  replace (S n - 1) with n by lia. rewrite Nat.eqb_refl. reflexivity.
Qed.

Lemma widget_at_modify n g s w :
  s @ n = Some w -> widget_at n (modify n g s) = Ok (g w).
Proof. intros Hw. apply widget_at_Some. rewrite modify_eq, Hw. reflexivity. Qed.

(** Run the code on a widget whose fields are known. *)
Ltac run_widget Hw :=
  repeat first
    [ rewrite modify_modify
    | rewrite bind_Ok
    | rewrite (widget_at_modify _ _ _ _ Hw)
    | rewrite (widget_at_Some _ _ _ Hw)
    | rewrite has_next_modify
    | progress cbn -[modify has_next widget_at utf8 toUnicode all_printable
                     str_of_nat String.append] ].

Lemma field_content_changed_leaf R fuel n s w :
  s @ n = Some w -> length (widgets s) = S n -> armed w = false ->
  field_content_changed R (S fuel) n s =
  Ok (modify n field_content_changed_local s).
Proof.
  intros Hw Hlen Ha. simpl. unfold field_content_changed_step.
  assert (Hn := has_next_last n s Hlen).
  unfold update_readonly_field, update_length_field,
    field_content_changed_local.
  unfold armed, focused in Ha.
  destruct w as [? ? ? [? ro ? ? ?] [? ? ? ?] ? hv ah ? ? ? ?].
  cbn in Ha.
  destruct ah, ro, hv; run_widget Hw; rewrite ?Hn; run_widget Hw;
    rewrite ?Ha; f_equal; (eapply modify_ext; [exact Hw | reflexivity]).
Qed.

(** None of this touches the focus or the selection. *)
Ltac solve_armed :=
  unfold armed, focused, set_content_next_local, view_hex_local,
    content_setter_local, hex_field_set_content_local, setPlainText_local,
    field_content_changed_local;
  repeat match goal with
         | w : DeenWidget |- _ =>
           destruct w as [? ? ? [? ? ? ? ?] [? ? ? ?] ? ? ? ? ? ? ?]
         end;
  cbn;
  repeat match goal with
         | |- context [if ?b then _ else _] => destruct b; cbn
         | |- context [match ?l with [] => _ | _ :: _ => _ end] =>
           destruct l; cbn
         end;
  reflexivity.

Lemma armed_field_content_changed_local w :
  armed (field_content_changed_local w) = armed w.
Proof. solve_armed. Qed.

Lemma armed_setPlainText_local t w :
  armed (setPlainText_local t w) = armed w.
Proof. solve_armed. Qed.

Lemma armed_hex_field_set_content_local R d w :
  armed (hex_field_set_content_local R d w) = armed w.
Proof. solve_armed. Qed.

Lemma armed_content_setter_local R d w :
  armed (content_setter_local R d w) = armed w.
Proof. solve_armed. Qed.

Lemma armed_view_hex_local R w : armed (view_hex_local R w) = armed w.
Proof. solve_armed. Qed.

Section Leaf.

Variable R : Runtime.
Variable fuel : nat.
Variable n : nat.

Let emit := field_content_changed R (S fuel).

(** The side conditions of the lemmas below. *)
Ltac leaf_side Hw Hlen Ha :=
  first
    [ rewrite ?modify_eq, Hw; reflexivity
    | rewrite ?modify_length; exact Hlen
    | rewrite <- Ha; solve_armed ].

Lemma emit_leaf s w :
  s @ n = Some w -> length (widgets s) = S n -> armed w = false ->
  emit n s = Ok (modify n field_content_changed_local s).
Proof. apply field_content_changed_leaf. Qed.

Lemma setPlainText_leaf t s w :
  s @ n = Some w -> length (widgets s) = S n -> armed w = false ->
  setPlainText emit n t s = Ok (modify n (setPlainText_local t) s).
Proof.
  intros Hw Hlen Ha. unfold setPlainText.
  rewrite (emit_leaf _ (on_text_field (setPlainText_ t) w));
    try leaf_side Hw Hlen Ha.
  rewrite modify_modify. reflexivity.
Qed.

Lemma hex_field_set_content_leaf d s w :
  s @ n = Some w -> length (widgets s) = S n -> armed w = false ->
  hex_field_set_content R emit n d s =
  Ok (modify n (hex_field_set_content_local R d) s).
Proof.
  intros Hw Hlen Ha.
  unfold hex_field_set_content, hex_field_set_content_local.
  destruct (hex_content_emits R); [| reflexivity].
  rewrite (emit_leaf _ (on_hex_field (hex_set_content_ d) w));
    try leaf_side Hw Hlen Ha.
  rewrite modify_modify. reflexivity.
Qed.

Lemma content_setter_leaf d s w :
  s @ n = Some w -> length (widgets s) = S n -> armed w = false ->
  content_setter R emit n d s =
  Ok (modify n (content_setter_local R d) s).
Proof.
  intros Hw Hlen Ha. unfold content_setter.
  rewrite (widget_at_modify _ _ _ _ Hw). rewrite bind_Ok.
  unfold content_setter_local. cbv zeta.
  destruct (hex_view (set__content d w)) eqn:Hv.
  - rewrite (hex_field_set_content_leaf _ _ (set__content d w));
      try leaf_side Hw Hlen Ha.
    rewrite modify_modify. f_equal.
    eapply modify_ext; [exact Hw |]. rewrite Hv. reflexivity.
  - destruct (negb (all_printable (_content (set__content d w)))) eqn:Hp.
    + rewrite modify_modify.
      rewrite (setPlainText_leaf _ _
                 (on_text_field (setReadOnly_ true) (set__content d w)));
        try leaf_side Hw Hlen Ha.
      rewrite modify_modify. f_equal.
      eapply modify_ext; [exact Hw |]. rewrite Hv, Hp. reflexivity.
    + rewrite (setPlainText_leaf _ _ (set__content d w));
        try leaf_side Hw Hlen Ha.
      rewrite modify_modify. f_equal.
      eapply modify_ext; [exact Hw |]. rewrite Hv, Hp. reflexivity.
Qed.

Lemma view_hex_leaf s w :
  s @ n = Some w -> length (widgets s) = S n -> armed w = false ->
  view_hex R emit n s = Ok (modify n (view_hex_local R) s).
Proof.
  intros Hw Hlen Ha. unfold view_hex. cbv zeta.
  rewrite !modify_modify.
  rewrite (widget_at_modify _ _ _ _ Hw). rewrite bind_Ok.
  match goal with
  | |- context [widget_at n ?s1] =>
    match goal with
    | |- context [_content ?w0] =>
      assert (Hs1 : s1 = modify n
                (fun x => match _content w0 with
                          | [] => set__content
                                    (utf8 (toPlainText (text_field w0))) x
                          | _ => x
                          end) (modify n (fun _ => w0) s))
    end
  end.
  { destruct (_content _); rewrite !modify_modify;
      (eapply modify_ext; [exact Hw | reflexivity]). }
  rewrite Hs1. rewrite modify_modify.
  rewrite (widget_at_modify _ _ _ _ Hw). rewrite bind_Ok.
  match goal with
  | |- hex_field_set_content _ _ _ ?d (modify n ?g s) = _ =>
    rewrite (hex_field_set_content_leaf d (modify n g s) (g w));
      try leaf_side Hw Hlen Ha
  end.
  rewrite modify_modify. f_equal.
  eapply modify_ext; [exact Hw |]. reflexivity.
Qed.

End Leaf.

Lemma next_with_next i s :
  i < length (widgets s) -> next i s = Ok (S i, with_next i s).
Proof.
  intros H. unfold with_next.
  destruct (Nat.eqb_spec (length (widgets s)) (S i)) as [E | E].
  - apply next_last, E.
  - apply next_exists. lia.
Qed.

Lemma with_next_length i s :
  i < length (widgets s) ->
  length (widgets (with_next i s)) = Nat.max (length (widgets s)) (i + 2).
Proof.
  intros H. unfold with_next.
  destruct (Nat.eqb_spec (length (widgets s)) (S i)) as [E | E].
  - unfold appended. simpl. rewrite length_app. simpl. lia.
  - lia.
Qed.

Lemma with_next_before i s k :
  k < length (widgets s) -> with_next i s @ k = s @ k.
Proof.
  intros H. unfold with_next. destruct (_ =? _); [| reflexivity].
  unfold appended. simpl. apply lookup_app_l, H.
Qed.

Lemma with_next_follower i s :
  i < length (widgets s) -> with_next i s @ (S i) = Some (follower i s).
Proof.
  intros H. unfold with_next, follower.
  destruct (Nat.eqb_spec (length (widgets s)) (S i)) as [E | E].
  - unfold appended. simpl. rewrite lookup_app_r by lia.
    rewrite E, Nat.sub_diag. simpl.
    rewrite (lookup_ge_None_2 (widgets s) (S i)) by lia. reflexivity.
  - destruct (lookup_ex s (S i) ltac:(lia)) as [x Hx]. rewrite Hx.
    reflexivity.
Qed.

Lemma set_error_next_eq i s :
  i < length (widgets s) ->
  set_error_next i s =
  Ok (truncate (i + 2)
        (modify (S i) (on_text_field (setStyleSheet_ red))
           (with_next i s))).
Proof.
  intros H. unfold set_error_next.
  step_eq (next_with_next i s H).
  rewrite remove_next_widgets_take;
    [| change (default i (Some (S i))) with (S i);
       rewrite modify_length, with_next_length; lia].
  change (default i (Some (S i))) with (S i).
  rewrite modify_length, with_next_length by exact H.
  destruct (Nat.leb_spec (S i + 1) (Nat.max (length (widgets s)) (i + 2)));
    [| lia].
  rewrite Nat.max_r by lia. unfold truncate.
  replace (S i + 1) with (i + 2) by lia. reflexivity.
Qed.

Lemma armed_set_length_field t w : armed (set_length_field t w) = armed w.
Proof. destruct w. reflexivity. Qed.

Lemma set_content_next_leaf R fuel i d s w :
  s @ (S i) = Some w -> length (widgets s) = S (S i) -> armed w = false ->
  set_content_next R (field_content_changed R (S fuel)) i d s =
  Ok (modify (S i) (set_content_next_local R d) s).
Proof.
  intros Hw Hlen Ha. unfold set_content_next.
  assert (Hnx : forall g, next i (modify (S i) g s) =
                          Ok (S i, modify (S i) g s))
    by (intros g; apply next_exists; rewrite modify_length; lia).
  rewrite (next_exists i s) by lia. rewrite bind_Ok. cbv beta iota.
  rewrite (content_setter_leaf R fuel (S i) d s w Hw Hlen Ha).
  repeat first [rewrite Hnx | rewrite bind_Ok | progress cbv beta iota zeta].
  rewrite (widget_at_modify _ _ _ _ Hw).
  repeat first [rewrite Hnx | rewrite bind_Ok | progress cbv beta iota zeta].
  rewrite (setPlainText_leaf R fuel (S i) _ _ (content_setter_local R d w));
    [| rewrite modify_eq, Hw; reflexivity
     | rewrite modify_length; exact Hlen
     | rewrite armed_content_setter_local; exact Ha].
  unfold update_length_field.
  repeat first [rewrite modify_modify | rewrite Hnx | rewrite bind_Ok
               | progress cbv beta iota zeta].
  rewrite (widget_at_modify _ _ _ _ Hw).
  repeat first [rewrite Hnx | rewrite bind_Ok | progress cbv beta iota zeta].
  match goal with
  | |- (if hex_view ?x then _ else _) = _ =>
    set (w3 := x); destruct (hex_view w3) eqn:Hv
  end.
  - repeat first [rewrite Hnx | rewrite bind_Ok | progress cbv beta iota zeta].
    match goal with
    | |- view_hex _ _ _ (modify _ ?g s) = _ =>
      rewrite (view_hex_leaf R fuel (S i) (modify (S i) g s) (g w));
        [| rewrite modify_eq, Hw; reflexivity
         | rewrite modify_length; exact Hlen
         | rewrite armed_set_length_field, armed_setPlainText_local,
             armed_content_setter_local; exact Ha ]
    end.
    rewrite modify_modify. f_equal.
    eapply modify_ext; [exact Hw |].
    unfold set_content_next_local. cbv zeta. fold w3. rewrite Hv.
    reflexivity.
  - f_equal. eapply modify_ext; [exact Hw |].
    unfold set_content_next_local. cbv zeta. fold w3. rewrite Hv.
    reflexivity.
Qed.

(** *** What these do to the fields of the widget *)

Lemma field_content_changed_local_effect w :
  hex_view (field_content_changed_local w) = hex_view w /\
  effect w (field_content_changed_local w)
    (isReadOnly (text_field w))
    (if isReadOnly (text_field w) then _content w
     else if hex_view w then hex_content (hex_field w)
          else utf8 (toPlainText (text_field w)))
    (toPlainText (text_field w))
    (hex_content (hex_field w)).
Proof.
  unfold effect, field_content_changed_local.
  destruct w as [? ? ? [? [] ? ? ?] [? ? ? ?] ? [] [] ? ? ? ?];
    cbn -[utf8]; tauto.
Qed.

(** Read the fields of the result of an operation through its effect. *)
Ltac use_effect H :=
  let v := fresh in
  destruct H as
    (v & ?E1 & ?E2 & ?E3 & ?E4 & ?E5 & ?E6 & ?E7 & ?E8 & ?E9 & ?E10);
  unfold effect;
  rewrite ?v, ?E1, ?E2, ?E3, ?E4, ?E5, ?E6, ?E7, ?E8, ?E9, ?E10.

Lemma setPlainText_local_effect t w :
  hex_view (setPlainText_local t w) = hex_view w /\
  effect w (setPlainText_local t w)
    (isReadOnly (text_field w))
    (if isReadOnly (text_field w) then _content w
     else if hex_view w then hex_content (hex_field w) else utf8 t)
    t (hex_content (hex_field w)).
Proof.
  unfold setPlainText_local.
  use_effect (field_content_changed_local_effect
                (on_text_field (setPlainText_ t) w)).
  destruct w as [? ? ? [? ? ? ? ?] ? ? ? ? ? ? ? ?]. cbn -[utf8]. tauto.
Qed.

Lemma hex_field_set_content_local_effect R d w :
  hex_view (hex_field_set_content_local R d w) = hex_view w /\
  effect w (hex_field_set_content_local R d w)
    (isReadOnly (text_field w))
    (if hex_content_emits R then
       if isReadOnly (text_field w) then _content w
       else if hex_view w then d else utf8 (toPlainText (text_field w))
     else _content w)
    (toPlainText (text_field w)) d.
Proof.
  unfold hex_field_set_content_local. cbv zeta.
  destruct (hex_content_emits R).
  - use_effect (field_content_changed_local_effect
                  (on_hex_field (hex_set_content_ d) w)).
    destruct w as [? ? ? ? [? ? ? ?] ? ? ? ? ? ? ?]. cbn -[utf8]. tauto.
  - unfold effect. destruct w as [? ? ? ? [? ? ? ?] ? ? ? ? ? ? ?].
    cbn. tauto.
Qed.

Lemma content_setter_local_effect R d w :
  hex_view (content_setter_local R d w) = hex_view w /\
  effect w (content_setter_local R d w)
    (isReadOnly (text_field w)
     || negb (hex_view w) && negb (all_printable d))
    d
    (if hex_view w then toPlainText (text_field w) else toUnicode d)
    (if hex_view w then d else hex_content (hex_field w)).
Proof.
  unfold content_setter_local. cbv zeta.
  replace (hex_view (set__content d w)) with (hex_view w)
    by (destruct w; reflexivity).
  replace (_content (set__content d w)) with d by (destruct w; reflexivity).
  destruct (hex_view w) eqn:Hv.
  - use_effect (hex_field_set_content_local_effect R d (set__content d w)).
    destruct w as [? ? ? [? ro ? ? ?] ? ? ? ? ? ? ? ?]. cbn in *. subst.
    rewrite orb_false_r.
    repeat split; destruct (hex_content_emits R), ro; reflexivity.
  - destruct (all_printable d) eqn:Hp; cbn [negb].
    + use_effect (setPlainText_local_effect (toUnicode d)
                    (set__content d w)).
      rewrite (utf8_toUnicode_printable d Hp).
      destruct w as [? ? ? [? ro ? ? ?] ? ? ? ? ? ? ? ?]. cbn in *. subst.
      rewrite orb_false_r. repeat split; destruct ro; reflexivity.
    + use_effect (setPlainText_local_effect (toUnicode d)
                    (on_text_field (setReadOnly_ true) (set__content d w))).
      destruct w as [? ? ? [? ro ? ? ?] ? ? ? ? ? ? ? ?]. cbn in *. subst.
      rewrite orb_true_r. repeat split.
Qed.

Lemma view_hex_local_effect R w :
  hex_view (view_hex_local R w) = true /\
  effect w (view_hex_local R w)
    (isReadOnly (text_field w)) (filled w)
    (toPlainText (text_field w)) (filled w).
Proof.
  unfold view_hex_local. cbv zeta.
  match goal with
  | |- context [hex_field_set_content_local R ?d ?x] =>
    use_effect (hex_field_set_content_local_effect R d x)
  end.
  unfold filled.
  destruct w as [? ? ? [? ro ? ? ?] [? ? ? ?] c ? ? ? ? ? ?].
  destruct c; cbn -[utf8]; repeat split;
    destruct (hex_content_emits R), ro; reflexivity.
Qed.

Lemma set_content_next_local_effect R d w :
  hex_view (set_content_next_local R d w) = hex_view w /\
  isReadOnly (text_field (set_content_next_local R d w)) =
    isReadOnly (text_field w)
    || negb (hex_view w) && negb (all_printable d) /\
  _content (set_content_next_local R d w) = d /\
  styleSheet (text_field (set_content_next_local R d w)) =
    styleSheet (text_field w) /\
  codec_field (set_content_next_local R d w) = codec_field w /\
  armed (set_content_next_local R d w) = armed w /\
  current_pick (set_content_next_local R d w) = current_pick w /\
  current_combo (set_content_next_local R d w) = current_combo w.
Proof.
  unfold set_content_next_local. cbv zeta.
  destruct (content_setter_local_effect R d w)
    as (V1 & S1 & C1 & T1 & H1 & P1 & B1 & R1 & D1 & X1 & Y1).
  set (w1 := content_setter_local R d w) in *.
  destruct (setPlainText_local_effect (toUnicode (_content w1)) w1)
    as (V2 & S2 & C2 & T2 & H2 & P2 & B2 & R2 & D2 & X2 & Y2).
  set (w2 := setPlainText_local (toUnicode (_content w1)) w1) in *.
  assert (D2' : _content w2 = d).
  { rewrite D2, D1, R1, V1, Y1.
    destruct (isReadOnly (text_field w)); [reflexivity |].
    destruct (hex_view w); [reflexivity |]. cbn.
    destruct (all_printable d) eqn:Hp; [| reflexivity].
    apply utf8_toUnicode_printable, Hp. }
  set (w3 := set_length_field _ w2).
  assert (F3 : hex_view w3 = hex_view w2 /\
               effect w2 w3 (isReadOnly (text_field w2)) (_content w2)
                 (toPlainText (text_field w2)) (hex_content (hex_field w2)))
    by (unfold effect, w3; destruct w2; cbn; tauto).
  destruct F3 as (V3 & S3 & C3 & T3 & H3 & P3 & B3 & R3 & D3 & X3 & Y3).
  assert (Harm : forall a b,
             text_hasFocus (text_field a) = text_hasFocus (text_field b) ->
             hex_hasFocus (hex_field a) = hex_hasFocus (hex_field b) ->
             current_pick a = current_pick b -> armed a = armed b)
    by (intros a b Ha Hb Hc; unfold armed, focused;
        rewrite Ha, Hb, Hc; reflexivity).
  destruct (hex_view w3) eqn:Hv3.
  - destruct (view_hex_local_effect R w3)
      as (V4 & S4 & C4 & T4 & H4 & P4 & B4 & R4 & D4 & X4 & Y4).
    assert (Hf : filled w3 = d).
    { unfold filled. rewrite D3, D2', X3, X2, D1.
      destruct d; reflexivity. }
    repeat split; try congruence. apply Harm; congruence.
  - repeat split; try congruence. apply Harm; congruence.
Qed.

(** ** The states the program can be in *)

Lemma Wset_Wroot w w' : Wset w w' -> Wroot w w'.
Proof.
  unfold Wset, Wk, Wroot. intros ((-> & -> & -> & -> & _) & -> & ->). tauto.
Qed.

Lemma Wk_focused w w' : Wk w w' -> focused w' = focused w.
Proof. unfold Wk, focused. intros (-> & -> & _). reflexivity. Qed.

Lemma Wroot_focused w w' : Wroot w w' -> focused w' = focused w.
Proof. unfold Wroot, focused. intros (-> & -> & _). reflexivity. Qed.

Lemma chain_ok_B (W : DeenWidget -> DeenWidget -> Prop) n s s' :
  (forall a b, W a b -> Wroot a b) ->
  (0 < n -> forall a b, W a b ->
     isReadOnly (text_field a) = true -> isReadOnly (text_field b) = true) ->
  B W n s s' -> chain_ok s -> chain_ok s'.
Proof.
  intros HW Hro HB (Hi & Hlen & Hf & Hs & Hr).
  pose proof HB as (P & (a & b & Ha & Hb & Hab) & Rst).
  assert (Hfoc : forall j w', s' @ j = Some w' -> focused w' = true ->
            exists w, s @ j = Some w /\ focused w = true).
  { intros j w' Hj Hfo. destruct (lt_eq_lt_dec j n) as [[Hlt | ->] | Hgt].
    - rewrite P in Hj by exact Hlt. eauto.
    - assert (w' = b) by congruence. subst w'. exists a.
      split; [exact Ha |]. rewrite <- (Wroot_focused a b); auto.
    - destruct (Rst j w' Hgt Hj) as [Hq | (w & Hw & Hww)].
      + destruct Hq as (_ & H1 & H2 & _). unfold focused in Hfo.
        rewrite H1, H2 in Hfo. discriminate.
      + exists w. split; [exact Hw |]. rewrite <- (Wk_focused w w'); auto. }
  split; [| split; [| split; [| split]]].
  - intros k w' Hk. destruct (lt_eq_lt_dec k n) as [[Hlt | ->] | Hgt].
    + rewrite P in Hk by exact Hlt. apply (Hi k w' Hk).
    + assert (w' = b) by congruence. subst w'.
      destruct (HW a b Hab) as (_ & _ & _ & _ & H). apply H, (Hi n a Ha).
    + destruct (Rst k w' Hgt Hk) as [Hq | (w & Hw & Hww)].
      * destruct Hq as (_ & _ & _ & ->). intros [x Hx]. discriminate.
      * destruct Hww as (_ & _ & -> & -> & _). apply (Hi k w Hw).
  - eapply Nat.le_lt_trans; [apply Nat.le_0_l | eapply lookup_lt, Hb].
  - intros k w' Hk0 Hk. destruct (lt_eq_lt_dec k n) as [[Hlt | ->] | Hgt].
    + rewrite P in Hk by exact Hlt. apply (Hf k w' Hk0 Hk).
    + assert (w' = b) by congruence. subst w'.
      apply (Hro Hk0 a b Hab), (Hf n a Hk0 Ha).
    + destruct (Rst k w' Hgt Hk) as [Hq | (w & Hw & Hww)].
      * apply Hq.
      * destruct Hww as (_ & _ & _ & _ & H). apply H, (Hf k w Hk0 Hw).
  - intros j k wj wk Hj Hk Fj Fk.
    destruct (Hfoc j wj Hj Fj) as (xj & Hxj & Fxj).
    destruct (Hfoc k wk Hk Fk) as (xk & Hxk & Fxk).
    apply (Hs j k xj xk Hxj Hxk Fxj Fxk).
  - intros w' Hw'. destruct n as [| n].
    + assert (w' = b) by congruence. subst w'.
      destruct (HW a b Hab) as (_ & _ & -> & -> & _). apply (Hr a Ha).
    + rewrite P in Hw' by lia. apply (Hr w' Hw').
Qed.

Lemma Wact_refl w : Wact w w.
Proof. unfold Wact, Wroot. tauto. Qed.

Lemma Wact_trans a b c : Wact a b -> Wact b c -> Wact a c.
Proof. unfold Wact, Wroot. intuition congruence. Qed.

Lemma Wself_Wact w w' : Wself w w' -> Wact w w'.
Proof.
  unfold Wself, Wtop, Wact, Wroot.
  intros ((-> & -> & -> & -> & -> & _) & -> & -> & _). tauto.
Qed.

Lemma Wact_Wroot w w' : Wact w w' -> Wroot w w'.
Proof. unfold Wact. tauto. Qed.

Lemma B_Wact_trans n s1 s2 s3 :
  B Wact n s1 s2 -> B Wact n s2 s3 -> B Wact n s1 s3.
Proof. apply B_trans, Wact_trans. Qed.

Lemma B_modify n f s w (W : DeenWidget -> DeenWidget -> Prop) :
  s @ n = Some w -> W w (f w) -> B W n s (modify n f s).
Proof.
  intros Hw HW.
  split; [intros k Hk; apply modify_ne; lia |].
  split; [exists w, (f w); rewrite modify_eq, Hw; auto |].
  intros k w' Hk Hk'. rewrite modify_ne in Hk' by lia.
  right. exists w'. split; [exact Hk' | apply Wk_refl].
Qed.

Lemma Efcc_B_Wact n s s' : Efcc n s s' -> B Wact n s s'.
Proof. intros [[H _] _]. eapply B_weaken; [apply Wself_Wact | exact H]. Qed.

Lemma chain_ok_Wact n s s' : B Wact n s s' -> chain_ok s -> chain_ok s'.
Proof.
  apply chain_ok_B; [apply Wact_Wroot |].
  intros _ a b [_ H] Ha. congruence.
Qed.

Lemma root_readonly_Wact n s s' :
  B Wact n s s' -> root_readonly s' = root_readonly s.
Proof.
  intros (P & (a & b & Ha & Hb & Hab) & _). unfold root_readonly.
  destruct n as [| n].
  - rewrite Ha, Hb. apply Hab.
  - rewrite P by lia. reflexivity.
Qed.

Lemma mu_modify_le k g s : mu (modify k g s) <= mu s + 1.
Proof.
  unfold mu. rewrite modify_length.
  destruct (modify k g s @ (length (widgets s) - 1)) as [x |];
    [destruct (current_pick x) |];
    destruct (s @ (length (widgets s) - 1)) as [y |];
    try destruct (current_pick y); lia.
Qed.

Lemma inv_modify k g s :
  inv s ->
  (forall w, s @ k = Some w ->
     is_Some (current_pick (g w)) -> is_Some (current_combo (g w))) ->
  inv (modify k g s).
Proof.
  intros Hi Hg j w' Hj. destruct (decide (k = j)) as [<- | Hne].
  - rewrite modify_eq in Hj. destruct (s @ k) as [w |] eqn:E;
      [| discriminate].
    assert (w' = g w) by (simpl in Hj; congruence). subst w'.
    apply (Hg w eq_refl).
  - rewrite modify_ne in Hj by exact Hne. apply (Hi j w' Hj).
Qed.

Lemma emit_action_placeholder R fuel n c s w :
  1 <= fuel -> s @ n = Some w -> currentIndex c (combos w) = 0 ->
  emit_action R fuel n c s = Ok (fill w n s).
Proof.
  intros Hf Hw Hc. destruct fuel as [| fuel]; [lia |].
  apply action_placeholder; assumption.
Qed.

(** [action(combo)] when an entry of the combo box is selected. *)
Lemma action_selected R f i c s w :
  inv s -> s @ i = Some w -> currentIndex c (combos w) <> 0 ->
  mu s <= i + f ->
  post (action R (S f) i (Some c) s)
    (fun s' =>
       B Wact i s s' /\
       exists w', s' @ i = Some w' /\
         currentIndex c (combos w') = 0 /\
         current_pick w' = Some (currentText R c w) /\
         current_combo w' = Some c).
Proof.
  intros Hi Hw Hc Hmu. simpl. unfold action_step.
  step_eq (widget_at_Some _ _ _ Hw). fold (fill w i s).
  assert (E0 := Efcc_fill i s w Hw).
  destruct (fill_lookup w i s Hw) as (w0 & Hw0 & HW0).
  step_eq (widget_at_Some _ _ _ Hw0).
  assert (Hcb : combos w0 = combos w).
  { clear - Hw Hw0. unfold fill in Hw0. destruct (_content w).
    - rewrite modify_eq, Hw in Hw0. simpl in Hw0.
      assert (w0 = set__content (utf8 (toPlainText (text_field w))) w)
        by congruence. subst w0. destruct w. reflexivity.
    - congruence. }
  rewrite Hcb.
  destruct (Nat.eqb_spec (currentIndex c (combos w)) 0) as [? | _]; [lia |].
  set (g := fun x => set_current_pick (Some (currentText R c x))
                       (set_current_combo (Some c) x)).
  set (s1 := modify i g (fill w i s)).
  assert (Hw1 : s1 @ i = Some (g w0))
    by (unfold s1; rewrite modify_eq, Hw0; reflexivity).
  assert (Hi1 : inv s1).
  { apply inv_modify; [eapply Efcc_inv; eauto |].
    intros x _ _. unfold g. destruct x. simpl. eauto. }
  assert (Hm1 : mu s1 <= i + S f).
  { pose proof (mu_modify_le i g (fill w i s)).
    destruct E0 as [(_ & ? & _) _]. unfold s1. lia. }
  assert (Hp1 : current_pick (g w0) = Some (currentText R c w))
    by (unfold g, currentText; rewrite Hcb; destruct w0; reflexivity).
  assert (Hc1 : current_combo (g w0) = Some c)
    by (unfold g; destruct w0; reflexivity).
  eapply post_weaken.
  - eapply (action_transform_spec R _ _ f (field_content_changed_spec R f)
              (emit_action_placeholder R f) i s1 (g w0)); auto;
      rewrite Hp1; eauto.
  - intros s' [HR Hidx]. split.
    + eapply B_Wact_trans; [apply Efcc_B_Wact, E0 |].
      eapply B_Wact_trans;
        [| eapply B_weaken; [apply Wself_Wact | apply HR]].
      apply (B_modify i g _ w0 Wact Hw0).
      unfold g, Wact, Wroot. destruct w0. simpl. intuition eauto.
    + destruct (Hidx c Hc1) as (w' & Hw' & Hi').
      exists w'. split; [exact Hw' |]. split; [exact Hi' |].
      destruct HR as ((_ & (a & b & Ha & Hb & Hab) & _) & _).
      assert (a = g w0) by congruence. assert (b = w') by congruence.
      subst a b. destruct Hab as (_ & -> & -> & _). auto.
Qed.

Lemma post_eq {A} (m : result A) (P : A -> Prop) (a : A) :
  post m P -> m = Ok a -> P a.
Proof. intros H E. rewrite E in H. exact H. Qed.

Lemma widget_at_Ok k s w : widget_at k s = Ok w -> s @ k = Some w.
Proof.
  unfold widget_at. destruct (s @ k); intros H; [congruence | discriminate].
Qed.

Lemma bind_Ok_inv {A B} (m : result A) (f : A -> result B) (b : B) :
  m ≫= f = Ok b -> exists a, m = Ok a /\ f a = Ok b.
Proof. destruct m; simpl; intros H; [eauto | discriminate ..]. Qed.

Lemma B_Wact_refl n s : n < length (widgets s) -> B Wact n s s.
Proof. apply B_refl, Wact_refl. Qed.

(** *** Editing a field, switching the view *)

Lemma edit_text_spec R fuel i t s :
  inv s -> i < length (widgets s) -> mu s <= i + fuel ->
  post (setPlainText (field_content_changed R fuel) i t s) (B Wact i s).
Proof.
  intros Hi Hn Hmu. destruct (lookup_ex s i Hn) as [w Hw].
  eapply post_weaken.
  - apply (setPlainText_spec _ fuel (field_content_changed_spec R fuel));
      assumption.
  - intros s' E. eapply B_Wact_trans; [| apply Efcc_B_Wact, E].
    apply (B_modify i _ s w Wact Hw).
    unfold Wact, Wroot. destruct w as [? ? ? [? ? ? ? ?] ? ? ? ? ? ? ? ?].
    simpl. tauto.
Qed.

Lemma edit_hex_spec R fuel i d s :
  inv s -> i < length (widgets s) -> mu s <= i + fuel ->
  post (field_content_changed R fuel i
          (modify i (on_hex_field (hex_set_content_ d)) s)) (B Wact i s).
Proof.
  intros Hi Hn Hmu. destruct (lookup_ex s i Hn) as [w Hw].
  assert (E0 : Eset i s (modify i (on_hex_field (hex_set_content_ d)) s))
    by (eapply Eset_modify; [exact Hw | solve_W]).
  eapply post_weaken.
  - apply field_content_changed_spec;
      [eapply Eset_inv; eauto | eapply Eset_length; eauto
      | apply Eset_mu in E0; lia].
  - intros s' E. eapply B_Wact_trans; [| apply Efcc_B_Wact, E].
    apply (B_modify i _ s w Wact Hw).
    unfold Wact, Wroot. destruct w as [? ? ? ? [? ? ? ?] ? ? ? ? ? ? ?].
    simpl. tauto.
Qed.

Lemma view_text_spec R fuel i s :
  inv s -> i < length (widgets s) -> mu s <= i + fuel ->
  post (view_text (field_content_changed R fuel) i s) (B Wact i s).
Proof.
  intros Hi Hn Hmu. destruct (lookup_ex s i Hn) as [w Hw].
  unfold view_text. cbv zeta. rewrite !modify_modify.
  match goal with
  | |- context [widget_at i (modify i ?g s)] =>
    set (s0 := modify i g s);
    assert (B0 : B Wact i s s0)
      by (apply (B_modify i g s w Wact Hw); unfold Wact, Wroot;
          destruct w as [? ? ? [? ? ? ? ?] [? ? ? ?] ? ? ? ? ? ? ?];
          simpl; tauto);
    assert (E0 : Eset i s s0)
      by (eapply Eset_modify; [exact Hw | solve_W]);
    assert (Hw0 : s0 @ i = Some (g w))
      by (unfold s0; rewrite modify_eq, Hw; reflexivity)
  end.
  clearbody s0. step_eq (widget_at_Some _ _ _ Hw0).
  destruct (_content _).
  - apply post_Ok, B0.
  - eapply post_weaken.
    + apply edit_text_spec;
        [eapply Eset_inv; eauto | eapply Eset_length; eauto
        | apply Eset_mu in E0; lia].
    + intros s' H. eapply B_Wact_trans; eauto.
Qed.

Lemma view_hex_Wact R fuel i s :
  inv s -> i < length (widgets s) -> mu s <= i + fuel ->
  post (view_hex R (field_content_changed R fuel) i s) (B Wact i s).
Proof.
  intros Hi Hn Hmu. destruct (lookup_ex s i Hn) as [w Hw].
  unfold view_hex. cbv zeta. rewrite !modify_modify.
  rewrite (widget_at_modify _ _ _ _ Hw), bind_Ok.
  match goal with
  | |- context [widget_at i ?s1'] =>
    set (s1 := s1');
    assert (H1 : exists g, s1 = modify i g s /\ Wact w (g w) /\ Wset w (g w))
  end.
  { unfold s1. destruct (_content _); rewrite ?modify_modify;
      eexists; (split; [reflexivity |]); split;
      try solve_W; unfold Wact, Wroot;
      destruct w as [? ? ? [? ? ? ? ?] [? ? ? ?] ? ? ? ? ? ? ?];
      simpl; tauto. }
  clearbody s1. destruct H1 as (g & -> & HA & HS).
  rewrite (widget_at_modify _ _ _ _ Hw), bind_Ok.
  assert (E0 : Eset i s (modify i g s)) by (eapply Eset_modify; eauto).
  eapply post_weaken.
  - apply (hex_field_set_content_spec R _ fuel
             (field_content_changed_spec R fuel));
      [eapply Eset_inv; eauto | eapply Eset_length; eauto
      | apply Eset_mu in E0; lia].
  - intros s' E. rewrite modify_modify in E.
    eapply B_Wact_trans; [| apply Efcc_B_Wact, E].
    apply (B_modify i _ s w Wact Hw).
    eapply Wact_trans; [exact HA |].
    unfold Wact, Wroot. destruct (g w) as [? ? ? ? [? ? ? ?] ? ? ? ? ? ? ?].
    simpl. tauto.
Qed.

(** *** Selecting an entry of a combo box *)

Lemma select_spec R fuel i c k s :
  inv s -> i < length (widgets s) -> mu s < fuel -> k <> 0 ->
  post (setCurrentIndex (emit_action R fuel) i c k s) (B Wact i s).
Proof.
  intros Hi Hn Hmu Hk. destruct (lookup_ex s i Hn) as [w Hw].
  unfold setCurrentIndex. step_eq (widget_at_Some _ _ _ Hw).
  destruct (_ =? _); [apply post_Ok, B_Wact_refl, Hn |].
  destruct fuel as [| f]; [lia |].
  set (g := fun x => set_combos (with_index c k (combos x)) x).
  assert (E0 : Efcc i s (modify i g s))
    by (eapply Efcc_modify; [exact Hw | solve_W]).
  assert (Hw0 : modify i g s @ i = Some (g w))
    by (rewrite modify_eq, Hw; reflexivity).
  unfold emit_action. eapply post_weaken.
  - apply (action_selected R f i c (modify i g s) (g w)).
    + eapply Efcc_inv; eauto.
    + exact Hw0.
    + unfold g. destruct c; simpl; exact Hk.
    + destruct E0 as [(_ & ? & _) _]. lia.
  - intros s' [H _]. eapply B_Wact_trans; [apply Efcc_B_Wact, E0 | exact H].
Qed.

(** *** Moving the focus *)

Lemma blur_all_lookup s k : blur_all s @ k = blur <$> s @ k.
Proof. unfold blur_all. simpl. apply list_lookup_fmap. Qed.

Lemma focused_blur w : focused (blur w) = false.
Proof. destruct w as [? ? ? [? ? ? ? ?] [? ? ? ?] ? ? ? ? ? ? ?]. reflexivity. Qed.

Lemma chain_ok_focus (g : DeenWidget -> DeenWidget) i s :
  (forall x, current_pick (g x) = current_pick x /\
             current_combo (g x) = current_combo x /\
             isReadOnly (text_field (g x)) = isReadOnly (text_field x) /\
             styleSheet (text_field (g x)) = styleSheet (text_field x) /\
             codec_field (g x) = codec_field x) ->
  chain_ok s ->
  chain_ok (modify i g (blur_all s)) /\
  root_readonly (modify i g (blur_all s)) = root_readonly s.
Proof.
  intros Hg (Hi & Hlen & Hf & Hs & Hr).
  assert (Hb : forall x, current_pick (blur x) = current_pick x /\
             current_combo (blur x) = current_combo x /\
             isReadOnly (text_field (blur x)) = isReadOnly (text_field x) /\
             styleSheet (text_field (blur x)) = styleSheet (text_field x) /\
             codec_field (blur x) = codec_field x)
    by (intros [? ? ? [? ? ? ? ?] [? ? ? ?] ? ? ? ? ? ? ?]; simpl; tauto).
  assert (Hlk : forall k w', modify i g (blur_all s) @ k = Some w' ->
            exists w, s @ k = Some w /\
              current_pick w' = current_pick w /\
              current_combo w' = current_combo w /\
              isReadOnly (text_field w') = isReadOnly (text_field w) /\
              styleSheet (text_field w') = styleSheet (text_field w) /\
              codec_field w' = codec_field w /\
              (k <> i -> focused w' = false)).
  { intros k w' Hk. destruct (decide (i = k)) as [<- | Hne].
    - rewrite modify_eq, blur_all_lookup in Hk.
      destruct (s @ i) as [w |]; [| discriminate]. simpl in Hk.
      assert (w' = g (blur w)) by congruence. subst w'. exists w.
      split; [reflexivity |].
      destruct (Hg (blur w)) as (-> & -> & -> & -> & ->).
      destruct (Hb w) as (-> & -> & -> & -> & ->). tauto.
    - rewrite modify_ne, blur_all_lookup in Hk by exact Hne.
      destruct (s @ k) as [w |]; [| discriminate]. simpl in Hk.
      assert (w' = blur w) by congruence. subst w'. exists w.
      split; [reflexivity |].
      destruct (Hb w) as (-> & -> & -> & -> & ->).
      repeat split; try (intros _; apply focused_blur). }
  split; [split; [| split; [| split; [| split]]] |].
  - intros k w' Hk. destruct (Hlk k w' Hk) as (w & Hw & -> & -> & _).
    apply (Hi k w Hw).
  - rewrite modify_length. unfold blur_all. simpl. rewrite length_map.
    exact Hlen.
  - intros k w' Hk0 Hk. destruct (Hlk k w' Hk) as (w & Hw & _ & _ & -> & _).
    apply (Hf k w Hk0 Hw).
  - intros j k wj wk Hj Hk Fj Fk.
    destruct (Hlk j wj Hj) as (_ & _ & _ & _ & _ & _ & _ & Hnj).
    destruct (Hlk k wk Hk) as (_ & _ & _ & _ & _ & _ & _ & Hnk).
    destruct (decide (j = i)) as [-> | Hji];
      [| rewrite Hnj in Fj by exact Hji; discriminate].
    destruct (decide (k = i)) as [-> | Hki];
      [reflexivity | rewrite Hnk in Fk by exact Hki; discriminate].
  - intros w' Hw'.
    destruct (Hlk 0 w' Hw') as (w & Hw & _ & _ & _ & -> & -> & _).
    apply (Hr w Hw).
  - unfold root_readonly.
    destruct (modify i g (blur_all s) @ 0) as [w' |] eqn:E.
    + destruct (Hlk 0 w' E) as (w & -> & _ & _ & -> & _). reflexivity.
    + apply lookup_ge_None in E. rewrite modify_length in E.
      unfold blur_all in E. simpl in E. rewrite length_map in E. lia.
Qed.

(** *** Clearing and promoting *)

Lemma take_1_lookup {A} (l : list A) (x : A) :
  l !! 0 = Some x -> take 1 l = [x].
Proof.
  destruct l as [| a l]; simpl; intros H; [discriminate |].
  injection H as ->. rewrite take_0. reflexivity.
Qed.

Lemma clear_root_spec R fuel self s w :
  inv s -> s @ 0 = Some w -> mu s <= fuel ->
  post (clear_content_step R (field_content_changed R fuel) self (Some 0) s)
    (fun s' => exists w', widgets s' = [w'] /\ cleared w w').
Proof.
  intros Hi Hw Hmu. assert (Hn := lookup_lt _ _ _ Hw).
  unfold clear_content_step. change (default self (Some 0)) with 0.
  change (0 =? 0) with true. cbv iota.
  eapply post_bind with
    (P := fun s3 => exists w3, s3 @ 0 = Some w3 /\ cleared w w3).
  - eapply post_bind.
    { apply (setPlainText_spec _ fuel (field_content_changed_spec R fuel));
        [assumption | assumption | lia]. }
    intros s1 E1.
    assert (Hw0 : modify 0 (on_text_field (setPlainText_ [])) s @ 0 =
                  Some (on_text_field (setPlainText_ []) w))
      by (rewrite modify_eq, Hw; reflexivity).
    destruct (Efcc_lookup _ _ _ _ E1 Hw0) as (w1 & Hw1 & HW1).
    assert (Es1 : Eset 0 s s1).
    { eapply Eset_trans; [| apply Efcc_Eset, E1].
      eapply Eset_modify; [exact Hw | solve_W]. }
    eapply post_bind.
    { apply (hex_field_set_content_spec R _ fuel
               (field_content_changed_spec R fuel));
        [eapply Eset_inv; eauto | eapply Eset_length; eauto
        | apply Eset_mu in Es1; lia]. }
    intros s2 E2.
    assert (Hw1' : modify 0 (on_hex_field (hex_set_content_ [])) s1 @ 0 =
                   Some (on_hex_field (hex_set_content_ []) w1))
      by (rewrite modify_eq, Hw1; reflexivity).
    destruct (Efcc_lookup _ _ _ _ E2 Hw1') as (w2 & Hw2 & HW2).
    apply post_Ok. unfold update_readonly_field, update_length_field.
    assert (Hfin : forall (g1 g2 g3 l1 l2 : DeenWidget -> DeenWidget),
               exists x, modify 0 g3 (modify self l2 (modify 0 g2
                           (modify self l1 (modify 0 g1 s2)))) @ 0 = Some x /\
                 (x = g3 (g2 (g1 w2)) \/ x = g3 (l2 (g2 (l1 (g1 w2)))))).
    { intros g1 g2 g3 l1 l2. destruct self as [| j].
      - rewrite !modify_modify, modify_eq, Hw2. simpl. eauto.
      - rewrite modify_eq, (modify_ne _ (S j) 0) by lia.
        rewrite modify_eq, (modify_ne _ (S j) 0) by lia.
        rewrite modify_eq, Hw2. simpl. eauto. }
    match goal with
    | |- exists w3, modify 0 ?g3 (modify self ?l2 (modify 0 ?g2
                      (modify self ?l1 (modify 0 ?g1 s2)))) @ 0 = _ /\ _ =>
      destruct (Hfin g1 g2 g3 l1 l2) as (x & Hx & Hx')
    end.
    exists x. split; [exact Hx |].
    clear - HW1 HW2 Hx'. unfold cleared, Wself, Wtop in *.
    destruct w as [? ? ? [? ? ? ? ?] [? ? ? ?] ? ? ? ? ? ? ?].
    destruct w1 as [? ? ? [? ? ? ? ?] [? ? ? ?] ? ? ? ? ? ? ?].
    destruct w2 as [? ? ? [? ? ? ? ?] [? ? ? ?] ? ? ? ? ? ? ?].
    cbn in *. destruct Hx' as [-> | ->]; cbn; intuition congruence.
  - intros s3 (w3 & Hw3 & Hc).
    rewrite remove_next_widgets_take
      by (change (default self (Some 0)) with 0; eapply lookup_lt, Hw3).
    change (default self (Some 0)) with 0.
    change (0 + 0 <=? length (widgets s3)) with true. cbv iota.
    apply post_Ok. exists w3. split; [| exact Hc]. simpl.
    apply take_1_lookup, Hw3.
Qed.

Lemma truthy_None : truthy None = false.
Proof. reflexivity. Qed.

(** [move_content_to_root] of widget [i]: one widget is left; it holds the
    content of [i] and is read-only exactly when that content is not
    printable and the root shows text. *)
Lemma move_content_to_root_spec R fuel i s w wi :
  inv s -> s @ 0 = Some w -> s @ i = Some wi -> mu s < fuel ->
  post (move_content_to_root R fuel i s)
    (fun s' => exists w', widgets s' = [w'] /\
       _content w' = _content wi /\
       isReadOnly (text_field w') =
         negb (hex_view w) && negb (all_printable (_content wi)) /\
       styleSheet (text_field w') = styleSheet (text_field w) /\
       codec_field w' = codec_field w /\
       focused w' = focused w /\
       current_pick w' = None).
Proof.
  intros Hi Hw Hwi Hmu.
  unfold move_content_to_root, move_content_to_root_step.
  step_eq (widget_at_Some _ _ _ Hwi).
  eapply post_bind; [apply (clear_root_spec R fuel i s w); auto; lia |].
  intros sc (wc & Hsc & Hc).
  destruct fuel as [| f]; [lia |].
  assert (Hwc : sc @ 0 = Some wc) by (rewrite Hsc; reflexivity).
  assert (Hlc : length (widgets sc) = 1) by (rewrite Hsc; reflexivity).
  destruct Hc as (C1 & C2 & C3 & C4 & C5 & C6 & C7 & C8 & C9 & C10 & C11).
  assert (Hac : armed wc = false)
    by (unfold armed; rewrite C8; apply andb_false_r).
  rewrite (content_setter_leaf R f 0 (_content wi) sc wc Hwc Hlc Hac).
  apply post_Ok.
  destruct (content_setter_local_effect R (_content wi) wc)
    as (V & S1 & S2 & S3 & S4 & S5 & S6 & S7 & S8 & _).
  exists (content_setter_local R (_content wi) wc).
  split; [unfold modify; simpl; rewrite Hsc; reflexivity |].
  split; [exact S8 |].
  split; [rewrite S7, C7, C5; reflexivity |].
  split; [congruence |]. split; [congruence |].
  split; [unfold focused; congruence | congruence].
Qed.

(** The setter of [content]: the read-only flag afterwards. *)
Lemma content_setter_readonly R fuel n d s w :
  inv s -> s @ n = Some w -> mu s <= n + fuel ->
  post (content_setter R (field_content_changed R fuel) n d s)
    (fun s' => Eset n s s' /\
       exists w', s' @ n = Some w' /\
         isReadOnly (text_field w') =
           isReadOnly (text_field w)
           || negb (hex_view w) && negb (all_printable d)).
Proof.
  intros Hi Hw Hmu. assert (Hn := lookup_lt _ _ _ Hw).
  unfold content_setter.
  rewrite (widget_at_modify _ _ _ _ Hw), bind_Ok.
  replace (hex_view (set__content d w)) with (hex_view w)
    by (destruct w; reflexivity).
  replace (_content (set__content d w)) with d by (destruct w; reflexivity).
  assert (E0 : Eset n s (modify n (set__content d) s))
    by (eapply Eset_modify; [exact Hw | solve_W]).
  destruct (hex_view w) eqn:Hv.
  - eapply post_weaken.
    + apply (hex_field_set_content_spec R _ fuel
               (field_content_changed_spec R fuel));
        [eapply Eset_inv; eauto | eapply Eset_length; eauto
        | apply Eset_mu in E0; lia].
    + intros s' E. rewrite modify_modify in E.
      assert (Hw0 : modify n (fun x => on_hex_field (hex_set_content_ d)
                                         (set__content d x)) s @ n =
                    Some (on_hex_field (hex_set_content_ d)
                            (set__content d w)))
        by (rewrite modify_eq, Hw; reflexivity).
      destruct (Efcc_lookup _ _ _ _ E Hw0) as (w' & Hw' & HW').
      split.
      * eapply Eset_trans; [| apply Efcc_Eset, E].
        eapply Eset_modify; [exact Hw | solve_W].
      * exists w'. split; [exact Hw' |].
        destruct HW' as ((_ & _ & -> & _) & _). rewrite orb_false_r.
        destruct w as [? ? ? [? ? ? ? ?] [? ? ? ?] ? ? ? ? ? ? ?].
        reflexivity.
  - match goal with
    | |- post (setPlainText _ _ _ ?s1') _ =>
      assert (H1 : exists g, s1' = modify n g s /\ Wset w (g w) /\
                   isReadOnly (text_field (g w)) =
                     isReadOnly (text_field w) || negb (all_printable d))
    end.
    { destruct (all_printable d); cbn [negb]; rewrite ?modify_modify;
        eexists; (split; [reflexivity |]); (split; [solve_W |]);
        destruct w as [? ? ? [? ro ? ? ?] [? ? ? ?] ? ? ? ? ? ? ?];
        destruct ro; reflexivity. }
    destruct H1 as (g & -> & HS & Hro).
    assert (E1 : Eset n s (modify n g s)) by (eapply Eset_modify; eauto).
    eapply post_weaken.
    + apply (setPlainText_spec _ fuel (field_content_changed_spec R fuel));
        [eapply Eset_inv; eauto | eapply Eset_length; eauto
        | apply Eset_mu in E1; lia].
    + intros s' E. rewrite modify_modify in E.
      assert (Hw0 : modify n (fun x => on_text_field
                                         (setPlainText_ (toUnicode d)) (g x))
                      s @ n =
                    Some (on_text_field (setPlainText_ (toUnicode d)) (g w)))
        by (rewrite modify_eq, Hw; reflexivity).
      destruct (Efcc_lookup _ _ _ _ E Hw0) as (w' & Hw' & HW').
      split.
      * eapply Eset_trans; [| apply Efcc_Eset, E].
        eapply Eset_modify; [exact Hw |].
        eapply Wset_trans; [exact HS | solve_W].
      * exists w'. split; [exact Hw' |].
        destruct HW' as ((_ & _ & -> & _) & _). cbn [negb andb].
        rewrite <- Hro. destruct (g w) as [? ? ? [? ? ? ? ?] ? ? ? ? ? ? ? ?].
        reflexivity.
Qed.

(** *** Every user action keeps the chain well formed *)

Lemma chain_ok_singleton s w :
  widgets s = [w] ->
  (is_Some (current_pick w) -> is_Some (current_combo w)) ->
  styleSheet (text_field w) = "" ->
  label_isHidden (codec_field w) = true ->
  chain_ok s.
Proof.
  intros Hs Hp Hst Hc.
  assert (Hl : forall k x, s @ k = Some x -> k = 0 /\ x = w).
  { intros k x. rewrite Hs. destruct k as [| k]; simpl.
    - intros H. split; [reflexivity | congruence].
    - rewrite lookup_nil. discriminate. }
  split; [| split; [| split; [| split]]].
  - intros k x Hk. destruct (Hl k x Hk) as [_ ->]. exact Hp.
  - rewrite Hs. simpl. lia.
  - intros k x Hk0 Hk. destruct (Hl k x Hk) as [-> _]. lia.
  - intros j k wj wk Hj Hk _ _.
    destruct (Hl j wj Hj) as [-> _]. destruct (Hl k wk Hk) as [-> _].
    reflexivity.
  - intros x Hx. destruct (Hl 0 x Hx) as [_ ->]. tauto.
Qed.

Lemma chain_ok_root s : chain_ok s -> exists w, s @ 0 = Some w.
Proof. intros (_ & H & _). apply lookup_ex, H. Qed.

Lemma chain_ok_truncate j s : 0 < j -> chain_ok s -> chain_ok (truncate j s).
Proof.
  intros Hj Hok. pose proof Hok as (_ & Hlen & _).
  destruct (Rel_truncate 0 j s Hj Hlen) as [[HB _] _].
  eapply chain_ok_B; [| | exact HB | exact Hok].
  - intros a b ->. unfold Wroot. tauto.
  - intros H. lia.
Qed.

Lemma root_readonly_truncate j s :
  0 < j -> root_readonly (truncate j s) = root_readonly s.
Proof.
  intros Hj. unfold root_readonly, truncate. simpl.
  rewrite lookup_take_lt by exact Hj. reflexivity.
Qed.

Lemma clear_follower R fuel j s :
  S j < length (widgets s) ->
  clear_content R fuel (S j) None s = Ok (truncate (S j) s).
Proof.
  intros H. unfold clear_content, clear_content_step.
  change (default (S j) None) with (S j).
  change (0 =? S j) with false. cbv iota. rewrite bind_Ok.
  rewrite remove_next_widgets_take by exact H.
  change (default (S j) (Some (S j))) with (S j).
  destruct (Nat.leb_spec (S j + 0) (length (widgets s))); [| lia].
  rewrite Nat.max_r by lia. rewrite Nat.add_0_r. reflexivity.
Qed.

Lemma chain_ok_init : chain_ok EncoderWidget_init.
Proof.
  eapply chain_ok_singleton; [reflexivity | | reflexivity | reflexivity].
  simpl. intros [x Hx]. discriminate.
Qed.

Lemma handle_preserves R fuel e s s' :
  chain_ok s -> mu s < fuel -> handle R fuel e s = Ok s' ->
  chain_ok s' /\
  (writes_printable e s -> root_readonly s = false ->
   root_readonly s' = false).
Proof.
  intros Hok Hmu He. pose proof Hok as (Hi & Hlen & Hf & Hs & Hr).
  assert (Hact : forall i, B Wact i s s' ->
            chain_ok s' /\
            (writes_printable e s -> root_readonly s = false ->
             root_readonly s' = false)).
  { intros i HB. split; [eapply chain_ok_Wact; eauto |].
    intros _. rewrite (root_readonly_Wact i s s' HB). auto. }
  assert (Hsame : s' = s ->
            chain_ok s' /\
            (writes_printable e s -> root_readonly s = false ->
             root_readonly s' = false))
    by (intros ->; tauto).
  destruct e as [i t | i d | i c k | i | i | i | i | d | i | i |];
    simpl in He.
  - destruct (s @ i) as [w |] eqn:Hw;
      [rewrite (widget_at_Some _ _ _ Hw), bind_Ok in He
      | unfold widget_at in He; rewrite Hw in He; discriminate].
    destruct (isReadOnly (text_field w)); [apply Hsame; congruence |].
    apply (Hact i). eapply post_eq; [| exact He].
    apply edit_text_spec; [assumption | eapply lookup_lt, Hw | lia].
  - destruct (s @ i) as [w |] eqn:Hw;
      [rewrite (widget_at_Some _ _ _ Hw), bind_Ok in He
      | unfold widget_at in He; rewrite Hw in He; discriminate].
    destruct (_read_only (hex_field w)); [apply Hsame; congruence |].
    apply (Hact i). eapply post_eq; [| exact He].
    apply edit_hex_spec; [assumption | eapply lookup_lt, Hw | lia].
  - destruct (Nat.eqb_spec k 0) as [-> | Hk]; simpl in He;
      [apply Hsame; congruence |].
    destruct (negb _); [apply Hsame; congruence |].
    destruct (s @ i) as [w |] eqn:Hw;
      [| unfold setCurrentIndex, widget_at in He; rewrite Hw in He;
         discriminate].
    apply (Hact i). eapply post_eq; [| exact He].
    apply select_spec; [assumption | eapply lookup_lt, Hw | lia | exact Hk].
  - destruct (s @ i) as [wi |] eqn:Hwi;
      [rewrite (widget_at_Some _ _ _ Hwi), bind_Ok in He
      | unfold widget_at in He; rewrite Hwi in He; discriminate].
    destruct i as [| j].
    + assert (Hp := clear_root_spec R fuel 0 s wi Hi Hwi ltac:(lia)).
      apply (post_eq _ _ _ Hp) in He. destruct He as (w' & Hs' & Hc).
      destruct Hc as (C1 & C2 & C3 & C4 & C5 & C6 & C7 & C8 & _).
      destruct (Hr wi Hwi) as [Hst Hcd].
      split.
      * eapply chain_ok_singleton; [exact Hs' | | congruence | congruence].
        rewrite C8. intros [x Hx]. discriminate.
      * intros _ _. unfold root_readonly. rewrite Hs'. exact C7.
    + destruct (decide (S j < length (widgets s))) as [Hlt | Hge].
      * rewrite clear_follower in He by exact Hlt.
        assert (s' = truncate (S j) s) by congruence. subst s'.
        split; [apply chain_ok_truncate; [lia | exact Hok] |].
        intros _. rewrite root_readonly_truncate by lia. auto.
      * apply lookup_lt in Hwi. lia.
  - destruct (s @ i) as [wi |] eqn:Hwi;
      [| unfold move_content_to_root, move_content_to_root_step,
           widget_at in He; rewrite Hwi in He; discriminate].
    destruct (chain_ok_root s Hok) as [w Hw].
    assert (Hp := move_content_to_root_spec R fuel i s w wi Hi Hw Hwi Hmu).
    apply (post_eq _ _ _ Hp) in He.
    destruct He as (w' & Hs' & M1 & M2 & M3 & M4 & M5 & M6).
    destruct (Hr w Hw) as [Hst Hcd].
    split.
    + eapply chain_ok_singleton; [exact Hs' | | congruence | congruence].
      rewrite M6. intros [x Hx]. discriminate.
    + intros Hwp _. unfold root_readonly. rewrite Hs'. simpl. rewrite M2.
      unfold writes_printable, root_hex_view in Hwp. rewrite Hw in Hwp.
      destruct Hwp as [-> | Hwp]; [reflexivity |].
      rewrite (Hwp wi Hwi). apply andb_false_r.
  - destruct (s @ i) as [w |] eqn:Hw;
      [rewrite (widget_at_Some _ _ _ Hw), bind_Ok in He
      | unfold widget_at in He; rewrite Hw in He; discriminate].
    apply (Hact i). eapply post_eq; [| exact He].
    apply view_text_spec; [assumption | eapply lookup_lt, Hw | lia].
  - destruct (s @ i) as [w |] eqn:Hw;
      [rewrite (widget_at_Some _ _ _ Hw), bind_Ok in He
      | unfold widget_at in He; rewrite Hw in He; discriminate].
    apply (Hact i). eapply post_eq; [| exact He].
    apply view_hex_Wact; [assumption | eapply lookup_lt, Hw | lia].
  - unfold set_root_content, set_root_content_step in He.
    destruct d as [| b d]; [apply Hsame; congruence |].
    destruct (chain_ok_root s Hok) as [w Hw].
    assert (Hp := content_setter_readonly R fuel 0 (b :: d) s w Hi Hw
                    ltac:(lia)).
    apply (post_eq _ _ _ Hp) in He.
    destruct He as ([[HB _] _] & w' & Hw' & Hro).
    split.
    + eapply chain_ok_B; [apply Wset_Wroot | | exact HB | exact Hok].
      intros H. lia.
    + intros Hwp Hr0. unfold root_readonly in *. rewrite Hw in Hr0.
      rewrite Hw', Hro, Hr0. unfold writes_printable, root_hex_view in Hwp.
      rewrite Hw in Hwp. destruct Hwp as [-> | ->]; simpl;
        [reflexivity | apply andb_false_r].
  - destruct (s @ i) as [w |] eqn:Hw;
      [rewrite (widget_at_Some _ _ _ Hw), bind_Ok in He
      | unfold widget_at in He; rewrite Hw in He; discriminate].
    assert (s' = modify i (on_text_field (text_setFocus_ true)) (blur_all s))
      by congruence. subst s'.
    destruct (chain_ok_focus (on_text_field (text_setFocus_ true)) i s)
      as [H1 H2]; [| exact Hok |].
    + intros [? ? ? [? ? ? ? ?] ? ? ? ? ? ? ? ?]. simpl. tauto.
    + split; [exact H1 | intros _; rewrite H2; auto].
  - destruct (s @ i) as [w |] eqn:Hw;
      [rewrite (widget_at_Some _ _ _ Hw), bind_Ok in He
      | unfold widget_at in He; rewrite Hw in He; discriminate].
    assert (s' = modify i (on_hex_field (hex_setFocus_ true)) (blur_all s))
      by congruence. subst s'.
    destruct (chain_ok_focus (on_hex_field (hex_setFocus_ true)) i s)
      as [H1 H2]; [| exact Hok |].
    + intros [? ? ? ? [? ? ? ?] ? ? ? ? ? ? ?]. simpl. tauto.
    + split; [exact H1 | intros _; rewrite H2; auto].
  - assert (s' = blur_all s) by congruence. subst s'.
    destruct (chain_ok_focus (fun x => x) 0 s) as [H1 H2];
      [tauto | exact Hok |].
    assert (Hid : modify 0 (fun x => x) (blur_all s) = blur_all s).
    { unfold modify. simpl. rewrite list_alter_id by reflexivity.
      reflexivity. }
    rewrite Hid in H1, H2.
    split; [exact H1 | intros _; rewrite H2; auto].
Qed.

Lemma reachable_chain_ok R s : reachable R s -> chain_ok s.
Proof.
  induction 1 as [| s fuel e s' _ IH Hmu He].
  - apply chain_ok_init.
  - apply (handle_preserves R fuel e s s' IH Hmu He).
Qed.

Lemma reachable_printable_reachable R s :
  reachable_printable R s -> reachable R s.
Proof.
  induction 1; [apply reachable_init | eapply reachable_step; eauto].
Qed.

(** ** One dispatch, step by step *)

Lemma setCurrentIndex_frame R fuel i c s w :
  s @ i = Some w ->
  exists s' w',
    setCurrentIndex (emit_action R (S fuel)) i c 0 s = Ok s' /\
    length (widgets s') = length (widgets s) /\
    LOGGER s' = LOGGER s /\
    (forall k, k <> i -> s' @ k = s @ k) /\
    s' @ i = Some w' /\
    current_pick w' = current_pick w /\
    current_combo w' = current_combo w /\
    currentIndex c (combos w') = 0.
Proof.
  intros Hw. unfold setCurrentIndex.
  rewrite (widget_at_Some _ _ _ Hw), bind_Ok.
  destruct (Nat.eqb_spec (currentIndex c (combos w)) 0) as [E | E].
  - exists s, w. repeat split; auto.
  - set (g := fun x => set_combos (with_index c 0 (combos x)) x).
    assert (Hw0 : modify i g s @ i = Some (g w))
      by (rewrite modify_eq, Hw; reflexivity).
    assert (Hc0 : currentIndex c (combos (g w)) = 0)
      by (unfold g; destruct c; reflexivity).
    unfold emit_action.
    rewrite (action_placeholder R fuel i c _ _ Hw0 Hc0).
    unfold fill. destruct (_content (g w)) eqn:Ec.
    + eexists _, _. split; [reflexivity |].
      rewrite !modify_length.
      split; [reflexivity |]. split; [reflexivity |].
      split; [intros k Hk; rewrite !modify_ne by auto; reflexivity |].
      split; [rewrite modify_eq, Hw0; reflexivity |].
      unfold g. destruct c, w; simpl; auto.
    + eexists _, _. split; [reflexivity |].
      rewrite !modify_length.
      split; [reflexivity |]. split; [reflexivity |].
      split; [intros k Hk; rewrite !modify_ne by auto; reflexivity |].
      split; [exact Hw0 |].
      unfold g. destruct c, w; simpl; auto.
Qed.

Lemma follower_eq i s s' : s' @ (S i) = s @ (S i) -> follower i s' = follower i s.
Proof. unfold follower. intros ->. reflexivity. Qed.

Lemma with_next_LOGGER i s : LOGGER (with_next i s) = LOGGER s.
Proof. unfold with_next. destruct (_ =? _); reflexivity. Qed.

Lemma action_finish_spec R fuel i s w err :
  s @ i = Some w ->
  post (action_finish (emit_action R (S fuel)) i s err)
    (fun s' =>
       length (widgets s') = Nat.max (length (widgets s)) (i + 2) /\
       LOGGER s' = LOGGER s /\
       (forall k, k < i -> s' @ k = s @ k) /\
       (exists w', s' @ i = Some w' /\
          current_pick w' = current_pick w /\
          current_combo w' = current_combo w /\
          forall c, current_combo w = Some c ->
                    currentIndex c (combos w') = 0) /\
       s' @ (S i) =
         Some (action_finish_local (current_pick w) err (follower i s))).
Proof.
  intros Hw. assert (Hn := lookup_lt _ _ _ Hw). unfold action_finish.
  rewrite (widget_at_Some _ _ _ Hw), bind_Ok.
  assert (H1 : exists s1 w1,
             match current_combo w with
             | Some c => setCurrentIndex (emit_action R (S fuel)) i c 0 s
             | None => Ok s
             end = Ok s1 /\
             length (widgets s1) = length (widgets s) /\
             LOGGER s1 = LOGGER s /\
             (forall k, k <> i -> s1 @ k = s @ k) /\
             s1 @ i = Some w1 /\
             current_pick w1 = current_pick w /\
             current_combo w1 = current_combo w /\
             forall c, current_combo w = Some c ->
                       currentIndex c (combos w1) = 0).
  { destruct (current_combo w) as [c |] eqn:Ec.
    - destruct (setCurrentIndex_frame R fuel i c s w Hw)
        as (s1 & w1 & E & L & G & F & H & P & C & X).
      exists s1, w1. repeat split; auto; try congruence.
    - exists s, w. repeat split; auto. intros c Hc. discriminate. }
  destruct H1 as (s1 & w1 & -> & L1 & G1 & F1 & Hw1 & P1 & C1 & X1).
  rewrite bind_Ok.
  assert (Hn1 : i < length (widgets s1)) by lia.
  rewrite (next_with_next i s1 Hn1), bind_Ok. cbv beta iota.
  set (s2 := with_next i s1).
  assert (L2 : length (widgets s2) = Nat.max (length (widgets s)) (i + 2))
    by (unfold s2; rewrite with_next_length, L1 by exact Hn1; reflexivity).
  assert (Hf2 : s2 @ (S i) = Some (follower i s)).
  { unfold s2. rewrite with_next_follower by exact Hn1. f_equal.
    apply follower_eq, F1. lia. }
  assert (Hw2 : s2 @ i = Some w1)
    by (unfold s2; rewrite with_next_before by exact Hn1; exact Hw1).
  assert (G2 : LOGGER s2 = LOGGER s)
    by (unfold s2; rewrite with_next_LOGGER; exact G1).
  assert (F2 : forall k, k < i -> s2 @ k = s @ k).
  { intros k Hk. unfold s2. rewrite with_next_before by lia.
    apply F1. lia. }
  clearbody s2.
  rewrite (widget_at_Some _ _ _ Hf2), bind_Ok.
  rewrite (widget_at_Some _ _ _ Hw2), bind_Ok.
  assert (Hnx : forall g, next i (modify (S i) g s2) =
                          Ok (S i, modify (S i) g s2))
    by (intros g; apply next_exists; rewrite modify_length; lia).
  assert (Hnx0 : next i s2 = Ok (S i, s2)) by (apply next_exists; lia).
  unfold action_finish_local. cbv zeta. rewrite P1.
  destruct (isReadOnly (text_field (follower i s)) && truthy (current_pick w))
    eqn:Hc.
  - rewrite Hnx0, bind_Ok. cbv beta iota.
    rewrite (widget_at_Some _ _ _ Hw2), bind_Ok. cbv zeta.
    rewrite Hnx, bind_Ok. cbv beta iota. rewrite bind_Ok, modify_modify.
    destruct err.
    + apply post_Ok. rewrite modify_length.
      split; [exact L2 |]. split; [exact G2 |].
      split; [intros k Hk; rewrite modify_ne by lia; apply F2, Hk |].
      split; [exists w1; rewrite modify_ne by lia; auto |].
      rewrite modify_eq, Hf2, P1. simpl.
      destruct (follower i s). reflexivity.
    + rewrite Hnx, bind_Ok. cbv beta iota. apply post_Ok.
      rewrite modify_modify, modify_length.
      split; [exact L2 |]. split; [exact G2 |].
      split; [intros k Hk; rewrite modify_ne by lia; apply F2, Hk |].
      split; [exists w1; rewrite modify_ne by lia; auto |].
      rewrite modify_eq, Hf2, P1. simpl.
      destruct (follower i s). reflexivity.
  - rewrite bind_Ok. destruct err.
    + apply post_Ok. repeat split; auto. exists w1. auto.
    + rewrite Hnx0, bind_Ok. cbv beta iota. apply post_Ok.
      rewrite modify_length.
      split; [exact L2 |]. split; [exact G2 |].
      split; [intros k Hk; rewrite modify_ne by lia; apply F2, Hk |].
      split; [exists w1; rewrite modify_ne by lia; auto |].
      rewrite modify_eq, Hf2. reflexivity.
Qed.

Lemma pick_in_true p l : In p l -> pick_in (Some p) l = true.
Proof.
  intros H. unfold pick_in. apply existsb_exists. exists p.
  split; [exact H | apply String.eqb_refl].
Qed.

Lemma pick_in_false p l : ~ In p l -> pick_in (Some p) l = false.
Proof.
  intros H. unfold pick_in. apply not_true_is_false. intros E.
  apply existsb_exists in E. destruct E as (x & Hx & Ex).
  apply String.eqb_eq in Ex. subst x. exact (H Hx).
Qed.

Lemma fill_eq w i s :
  s @ i = Some w -> fill w i s = modify i (set__content (filled w)) s.
Proof.
  intros Hw. unfold fill, filled. destruct (_content w) eqn:E.
  - reflexivity.
  - symmetry. eapply modify_id; [exact Hw |]. rewrite <- E.
    destruct w. reflexivity.
Qed.

Lemma truncate_lookup j s k : k < j -> truncate j s @ k = s @ k.
Proof. intros H. unfold truncate. simpl. apply lookup_take_lt, H. Qed.

Lemma errored_spec e i s :
  i < length (widgets s) ->
  set_error_next i (LOGGER_error e s) = Ok (errored e i s) /\
  length (widgets (errored e i s)) = S (S i) /\
  LOGGER (errored e i s) = (LOGGER s ++ [e])%list /\
  (forall k, k <= i -> errored e i s @ k = s @ k) /\
  errored e i s @ (S i) =
    Some (on_text_field (setStyleSheet_ red) (follower i s)).
Proof.
  intros Hn.
  assert (Hn' : i < length (widgets (LOGGER_error e s))) by exact Hn.
  split; [apply (set_error_next_eq i (LOGGER_error e s) Hn') |].
  unfold errored. split; [| split; [| split]].
  - unfold truncate. cbn [widgets]. rewrite length_take, modify_length.
    rewrite with_next_length by exact Hn'. cbn [widgets LOGGER_error]. lia.
  - unfold truncate, modify. cbn [LOGGER]. rewrite with_next_LOGGER.
    reflexivity.
  - intros k Hk. rewrite truncate_lookup by lia.
    rewrite modify_ne by lia. rewrite with_next_before by (simpl; lia).
    reflexivity.
  - rewrite truncate_lookup by lia.
    rewrite modify_eq, with_next_follower by exact Hn'. reflexivity.
Qed.

Lemma fail_path R fuel i s e out :
  i < length (widgets s) -> armed (follower i s) = false ->
  exists sb,
    set_content_next R (field_content_changed R (S fuel)) i out
      (errored e i s) = Ok sb /\
    length (widgets sb) = i + 2 /\
    LOGGER sb = (LOGGER s ++ [e])%list /\
    (forall k, k <= i -> sb @ k = s @ k) /\
    sb @ (S i) =
      Some (set_content_next_local R out
              (on_text_field (setStyleSheet_ red) (follower i s))).
Proof.
  intros Hn Ha.
  destruct (errored_spec e i s Hn) as (_ & Hla & Hga & Hka & Hta).
  assert (Haa : armed (on_text_field (setStyleSheet_ red) (follower i s)) =
                false)
    by (rewrite <- Ha;
        destruct (follower i s) as [? ? ? [? ? ? ? ?] ? ? ? ? ? ? ? ?];
        reflexivity).
  rewrite (set_content_next_leaf R fuel i out _ _ Hta Hla Haa).
  eexists. split; [reflexivity |].
  rewrite modify_length. split; [lia |]. split; [exact Hga |].
  split; [intros k Hk; rewrite modify_ne by lia; apply Hka, Hk |].
  rewrite modify_eq, Hta. reflexivity.
Qed.

Lemma String_eqb_false a b : a <> b -> String.eqb a b = false.
Proof. apply String.eqb_neq. Qed.

(** [action], from the transformer on, when the operation fails and the
    follower does not dispatch on its own. *)
Lemma action_transform_fails R fuel i s w p c out e :
  s @ i = Some w -> current_pick w = Some p -> current_combo w = Some c ->
  fails R p c (_content w) out e -> armed (follower i s) = false ->
  post (action_transform R (field_content_changed R (S fuel))
          (emit_action R (S fuel)) i s)
    (fun s' =>
       length (widgets s') = i + 2 /\
       LOGGER s' = (LOGGER s ++ [e])%list /\
       (forall k, k < i -> s' @ k = s @ k) /\
       (exists w', s' @ i = Some w' /\
          current_pick w' = Some p /\ current_combo w' = Some c /\
          currentIndex c (combos w') = 0) /\
       s' @ (S i) =
         Some (action_finish_local (Some p) (Some e)
                 (set_content_next_local R out
                    (on_text_field (setStyleSheet_ red) (follower i s))))).
Proof.
  intros Hw Hp Hc Hf Ha. assert (Hn := lookup_lt _ _ _ Hw).
  destruct (errored_spec e i s Hn) as (Hse & _ & _ & Hka & _).
  destruct (fail_path R fuel i s e out Hn Ha)
    as (sb & Hsb & Lb & Gb & Kb & Tb).
  assert (Hwb : sb @ i = Some w) by (rewrite Kb by lia; exact Hw).
  assert (Hfin : post (action_finish (emit_action R (S fuel)) i sb (Some e))
            (fun s' =>
               length (widgets s') = i + 2 /\
               LOGGER s' = (LOGGER s ++ [e])%list /\
               (forall k, k < i -> s' @ k = s @ k) /\
               (exists w', s' @ i = Some w' /\
                  current_pick w' = Some p /\ current_combo w' = Some c /\
                  currentIndex c (combos w') = 0) /\
               s' @ (S i) =
                 Some (action_finish_local (Some p) (Some e)
                         (set_content_next_local R out
                            (on_text_field (setStyleSheet_ red)
                               (follower i s)))))).
  { eapply post_weaken; [apply (action_finish_spec R fuel i sb w), Hwb |].
    intros s' (L & G & F & (w' & Hw' & P' & C' & X') & T).
    split; [lia |]. split; [congruence |].
    split; [intros k Hk; rewrite F by exact Hk; apply Kb; lia |].
    split; [exists w'; repeat split; try congruence; apply X', Hc |].
    rewrite T, Hp. unfold follower at 1. rewrite Tb. reflexivity. }
  unfold action_transform. rewrite (widget_at_Some _ _ _ Hw), bind_Ok.
  cbv zeta. rewrite Hp. change (default "" (Some p)) with p.
  unfold current_combo_model. rewrite Hc.
  destruct Hf as [out e HE Hpl Hd | out e HE HC Hpl Hd
                 | e HE HC HH HM HX Hcr Hd].
  - rewrite (pick_in_true _ _ HE), bind_Ok.
    rewrite (String_eqb_false _ _ Hpl), Hd, Hse, bind_Ok, Hsb, bind_Ok.
    exact Hfin.
  - rewrite (pick_in_false _ _ HE), (pick_in_true _ _ HC), bind_Ok.
    rewrite (String_eqb_false _ _ Hpl), Hd, Hse, bind_Ok, Hsb, bind_Ok.
    exact Hfin.
  - rewrite (pick_in_false _ _ HE), (pick_in_false _ _ HC),
      (pick_in_false _ _ HH), (pick_in_true _ _ HM).
    subst p. change (pick_is (Some "X509Certificate") "ALL") with false.
    change (pick_is (Some "X509Certificate") "X509Certificate") with true.
    rewrite Hcr, Hd. cbn [orb andb]. cbv iota.
    rewrite Hse, bind_Ok.
    assert (Hwe : errored e i s @ i = Some w)
      by (rewrite Hka by lia; exact Hw).
    rewrite (widget_at_Some _ _ _ Hwe), bind_Ok, Hsb, bind_Ok.
    exact Hfin.
Qed.

(** [action(combo)] up to the transformer: the buffer is filled and the
    selection is recorded. *)
Lemma action_dispatch R fuel i combo s w p c :
  s @ i = Some w -> selection R combo w = Some (p, c) ->
  exists s1 w1,
    action R (S fuel) i combo s =
      action_transform R (field_content_changed R fuel)
        (emit_action R fuel) i s1 /\
    s1 @ i = Some w1 /\
    current_pick w1 = Some p /\ current_combo w1 = Some c /\
    _content w1 = filled w /\
    length (widgets s1) = length (widgets s) /\
    LOGGER s1 = LOGGER s /\
    (forall k, k <> i -> s1 @ k = s @ k).
Proof.
  intros Hw Hsel. simpl. unfold action_step.
  rewrite (widget_at_Some _ _ _ Hw), bind_Ok. fold (fill w i s).
  rewrite (fill_eq w i s Hw).
  destruct combo as [c0 |]; simpl in Hsel.
  - rewrite (widget_at_modify _ _ _ _ Hw), bind_Ok.
    replace (combos (set__content (filled w) w)) with (combos w)
      by (destruct w; reflexivity).
    destruct (currentIndex c0 (combos w) =? 0); [discriminate |].
    injection Hsel as <- <-. rewrite modify_modify.
    eexists _, _. split; [reflexivity |].
    split; [rewrite modify_eq, Hw; reflexivity |].
    rewrite modify_length.
    repeat split; try (destruct w; reflexivity).
    intros k Hk. apply modify_ne. auto.
  - destruct (current_pick w) as [p0 |] eqn:Hp; [| discriminate].
    destruct (current_combo w) as [c0 |] eqn:Hc; [| discriminate].
    injection Hsel as <- <-.
    eexists _, _. split; [reflexivity |].
    split; [rewrite modify_eq, Hw; reflexivity |].
    rewrite modify_length.
    repeat split; try (destruct w; simpl in *; congruence).
    intros k Hk. apply modify_ne. auto.
Qed.

(** A dispatch that fails, when the follower does not dispatch on its
    own. *)
Lemma action_fails R fuel i combo s w p c out e :
  s @ i = Some w -> selection R combo w = Some (p, c) ->
  fails R p c (filled w) out e -> armed (follower i s) = false ->
  post (action R (S (S fuel)) i combo s)
    (fun s' =>
       length (widgets s') = i + 2 /\
       LOGGER s' = (LOGGER s ++ [e])%list /\
       (forall k, k < i -> s' @ k = s @ k) /\
       (exists w', s' @ i = Some w' /\
          current_pick w' = Some p /\ current_combo w' = Some c /\
          currentIndex c (combos w') = 0) /\
       s' @ (S i) =
         Some (action_finish_local (Some p) (Some e)
                 (set_content_next_local R out
                    (on_text_field (setStyleSheet_ red) (follower i s))))).
Proof.
  intros Hw Hsel Hf Ha.
  destruct (action_dispatch R (S fuel) i combo s w p c Hw Hsel)
    as (s1 & w1 & -> & Hw1 & P1 & C1 & D1 & L1 & G1 & F1).
  assert (Hfo : follower i s1 = follower i s)
    by (apply follower_eq, F1; lia).
  eapply post_weaken.
  - apply (action_transform_fails R fuel i s1 w1 p c out e); auto.
    + rewrite D1. exact Hf.
    + rewrite Hfo. exact Ha.
  - intros s' (L & G & F & X & T).
    split; [exact L |]. split; [congruence |].
    split; [intros k Hk; rewrite F by exact Hk; apply F1; lia |].
    split; [exact X |]. rewrite T, Hfo. reflexivity.
Qed.

(** [action], from the transformer on, for the certificate parser when the
    OpenSSL import has failed: nothing is transformed, nothing is logged,
    and the follower is marked as a success. *)
Lemma action_transform_skips R emit fuel i s w c :
  s @ i = Some w -> current_pick w = Some "X509Certificate" ->
  current_combo w = Some c ->
  ~ In "X509Certificate" (ENCODINGS R) ->
  ~ In "X509Certificate" (COMPRESSIONS R) ->
  ~ In "X509Certificate" (HASHS R) ->
  crypto R = false ->
  post (action_transform R emit (emit_action R (S fuel)) i s)
    (fun s' =>
       length (widgets s') = Nat.max (length (widgets s)) (i + 2) /\
       LOGGER s' = LOGGER s /\
       (forall k, k < i -> s' @ k = s @ k) /\
       s' @ (S i) =
         Some (action_finish_local (Some "X509Certificate") None
                 (follower i s))).
Proof.
  intros Hw Hp Hc HE HC HH Hcr.
  unfold action_transform. rewrite (widget_at_Some _ _ _ Hw), bind_Ok.
  cbv zeta. rewrite Hp.
  rewrite (pick_in_false _ _ HE), (pick_in_false _ _ HC),
    (pick_in_false _ _ HH), Hcr.
  change (pick_is (Some "X509Certificate") "ALL") with false.
  rewrite andb_false_r. cbn [orb].
  assert (Hm : (if pick_in (Some "X509Certificate") (MISC R)
                then mret (s, None) else mret (s, None)) =
               (Ok (s, None) : result (EncoderWidget * option string)))
    by (destruct (pick_in _ _); reflexivity).
  rewrite Hm, bind_Ok.
  eapply post_weaken; [apply (action_finish_spec R fuel i s w), Hw |].
  intros s' (L & G & F & _ & T). rewrite Hp in T. auto.
Qed.

(** [field_content_changed] of an editable widget: the chain is cut behind
    the follower, and nothing but the follower is appended again. *)
Lemma field_content_changed_editable R fuel i s w :
  inv s -> s @ i = Some w -> isReadOnly (text_field w) = false ->
  mu s <= i + S fuel ->
  (armed w = true -> unarmed_from (S i) s) ->
  post (field_content_changed R (S fuel) i s)
    (fun s' => length (widgets s') <= i + 2).
Proof.
  intros Hi Hw Hro Hmu Hun. assert (Hn := lookup_lt _ _ _ Hw).
  simpl. unfold field_content_changed_step.
  rewrite (widget_at_Some _ _ _ Hw), bind_Ok.
  match goal with
  | |- context [has_next i ?s0'] =>
    set (s0 := s0'); assert (E0 : Efcc i s s0)
  end.
  { unfold s0. destruct (action_panel_isHidden w).
    - eapply Efcc_modify; [exact Hw | solve_W].
    - apply Efcc_refl, Hn. }
  clearbody s0. rewrite Hro. cbn [negb]. rewrite andb_true_r, andb_false_r.
  assert (Hn0 := Eset_length _ _ _ (Efcc_Eset _ _ _ E0)).
  eapply post_bind with
    (P := fun s1 => Efcc i s0 s1 /\ length (widgets s1) <= i + 2).
  { unfold has_next.
    destruct (Nat.eqb_spec (length (widgets s0) - 1) i) as [Hl | Hl];
      cbn [negb].
    - apply post_Ok. split; [apply Efcc_refl, Hn0 | lia].
    - rewrite (remove_next_widgets_take i None 2 s0) by exact Hn0.
      change (default i None) with i.
      destruct (Nat.leb_spec (i + 2) (length (widgets s0))); [| lia].
      rewrite Nat.max_r by lia. apply post_Ok.
      fold (truncate (i + 2) s0).
      destruct (Rel_truncate i (i + 2) s0) as [R1 G1]; try lia.
      split; [split; [apply Rel_eq_Wself, R1 | exact G1] |].
      unfold truncate. simpl. rewrite length_take. lia. }
  intros s1 [E1 L1].
  assert (E01 := Efcc_trans _ _ _ _ E0 E1).
  destruct (Efcc_lookup _ _ _ _ E01 Hw) as (w1 & Hw1 & HW1).
  rewrite (widget_at_Some _ _ _ Hw1), bind_Ok.
  unfold update_readonly_field, update_length_field.
  match goal with
  | |- context [widget_at i ?s2'] =>
    set (s2 := s2');
    assert (E2 : Efcc i s1 s2 /\ length (widgets s2) = length (widgets s1))
  end.
  { unfold s2. destruct (isReadOnly (text_field w1)) eqn:Ero; cbn [negb].
    - rewrite modify_modify, modify_length. split; [| reflexivity].
      eapply Efcc_modify; [exact Hw1 | revert Ero; solve_W].
    - destruct (hex_view w1); cbn [negb];
        rewrite !modify_modify, modify_length;
        (split; [| reflexivity]);
        (eapply Efcc_modify; [exact Hw1 | revert Ero; solve_W]). }
  destruct E2 as [E2 L2].
  assert (E02 := Efcc_trans _ _ _ _ E01 E2).
  clearbody s2.
  destruct (Efcc_lookup _ _ _ _ E02 Hw) as (w2 & Hw2 & HW2).
  rewrite (widget_at_Some _ _ _ Hw2), bind_Ok.
  fold (focused w2). fold (armed w2).
  destruct (armed w2) eqn:Ha.
  - eapply post_weaken.
    + eapply (action_step_spec R _ _ fuel (field_content_changed_spec R fuel)
                (emit_action_placeholder R fuel) i s2 w2).
      * eapply Efcc_inv; eauto.
      * exact Hw2.
      * apply truthy_is_Some. unfold armed in Ha.
        apply andb_true_iff in Ha. tauto.
      * destruct E02 as [(_ & ? & _) _]. lia.
    + intros s' (_ & _ & G).
      assert (Haw : armed w = true)
        by (rewrite <- (Wk_armed w w2); [exact Ha | apply Wself_Wk, HW2]).
      assert (Hu2 : unarmed_from (S i) s2).
      { eapply (B_unarmed Wself); [apply Wself_Wk | | apply E02 | auto].
        lia. }
      specialize (G Hu2). lia.
  - apply post_Ok. lia.
Qed.

(** ** The stages of the chain *)

Lemma stages_lookup s k : stages s !! k = stage_of <$> s @ k.
Proof. unfold stages. apply list_lookup_fmap. Qed.

Lemma stages_length s : length (stages s) = length (widgets s).
Proof. unfold stages. apply length_map. Qed.

Lemma substring_all t : String.substring 0 (String.length t) t = t.
Proof. induction t as [| a t IH]; simpl; [reflexivity | rewrite IH; reflexivity]. Qed.

Lemma strip_prefix_append q p : strip_prefix q (q +:+ p) = Some p.
Proof.
  unfold strip_prefix.
  assert (H : String.prefix q (q +:+ p) = true /\
              String.substring (String.length q)
                (String.length (q +:+ p) - String.length q) (q +:+ p) = p).
  { induction q as [| a q [IH1 IH2]].
    - change ("" +:+ p) with p. split; [destruct p; reflexivity |].
      change (String.length "") with 0.
      rewrite Nat.sub_0_r. apply substring_all.
    - change (String a q +:+ p) with (String a (q +:+ p)). split.
      + cbn [String.prefix]. destruct (ascii_dec a a); [exact IH1 | tauto].
      + exact IH2. }
  destruct H as [-> ->]. reflexivity.
Qed.

Lemma strip_prefix_Transformer p :
  strip_prefix "Transformer: " ("Transformer: " +:+ p) = Some p.
Proof. apply strip_prefix_append. Qed.

Lemma follower_readonly i s :
  followers_readonly s -> isReadOnly (text_field (follower i s)) = true.
Proof.
  intros Hf. unfold follower. destruct (s @ (S i)) as [t |] eqn:E.
  - apply (Hf (S i) t); [lia | exact E].
  - reflexivity.
Qed.

(** The stage that a failed dispatch leaves behind widget [i]. *)
Lemma failed_follower_stage R p e out t :
  isReadOnly (text_field t) = true -> p <> "" ->
  stage_of (action_finish_local (Some p) (Some e)
              (set_content_next_local R out
                 (on_text_field (setStyleSheet_ red) t))) =
  mkStage out false true (Some p).
Proof.
  intros Hro Hp.
  destruct (set_content_next_local_effect R out
              (on_text_field (setStyleSheet_ red) t))
    as (V & Ro & C & S & K & _).
  set (t1 := set_content_next_local R out _) in *.
  assert (Ro1 : isReadOnly (text_field t1) = true).
  { rewrite Ro. destruct t as [? ? ? [? ? ? ? ?] ? ? ? ? ? ? ? ?].
    simpl in *. rewrite Hro. reflexivity. }
  assert (S1 : styleSheet (text_field t1) = red)
    by (rewrite S; destruct t as [? ? ? [? ? ? ? ?] ? ? ? ? ? ? ? ?];
        reflexivity).
  unfold action_finish_local. cbv zeta. rewrite Ro1.
  assert (Ht : truthy (Some p) = true)
    by (simpl; rewrite (String_eqb_false _ _ Hp); reflexivity).
  rewrite Ht. cbn [andb default].
  unfold stage_of. destruct t1 as [? ? ? [? ? ? ? ?] ? ? ? ? ? ? ? ?].
  simpl in *. subst. rewrite strip_prefix_Transformer, Ro1. reflexivity.
Qed.

Lemma failed_follower_error R p e out t :
  error (stage_of (action_finish_local (Some p) (Some e)
                     (set_content_next_local R out
                        (on_text_field (setStyleSheet_ red) t)))) = true.
Proof.
  destruct (set_content_next_local_effect R out
              (on_text_field (setStyleSheet_ red) t))
    as (_ & _ & _ & S & _).
  set (t1 := set_content_next_local R out _) in *.
  assert (S1 : styleSheet (text_field t1) = red)
    by (rewrite S; destruct t as [? ? ? [? ? ? ? ?] ? ? ? ? ? ? ? ?];
        reflexivity).
  unfold action_finish_local. cbv zeta.
  destruct (_ && _); unfold stage_of;
    destruct t1 as [? ? ? [? ? ? ? ?] ? ? ? ? ? ? ? ?]; simpl in *;
    subst; reflexivity.
Qed.

(** ** Chains made by running events *)

Lemma run_reachable R fuel es s :
  reachable R s -> returns R fuel es s = true ->
  exists s', run R fuel es s = Ok s' /\ reachable R s'.
Proof.
  revert s. induction es as [| e es IH]; intros s Hs Hr.
  - exists s. split; [reflexivity | exact Hs].
  - simpl in Hr. apply andb_true_iff in Hr. destruct Hr as [Hmu Hr].
    apply Nat.ltb_lt in Hmu.
    destruct (handle R fuel e s) as [s1 | |] eqn:He; try discriminate.
    destruct (IH s1 (reachable_step R s fuel e s1 Hs Hmu He) Hr)
      as (s' & Hrun & Hs').
    exists s'. split; [| exact Hs']. simpl. rewrite He. exact Hrun.
Qed.

Lemma after_reachable R fuel es :
  returns R fuel es EncoderWidget_init = true -> reachable R (after R fuel es).
Proof.
  intros Hr.
  destruct (run_reachable R fuel es _ (reachable_init R) Hr) as (s' & E & H).
  unfold after. rewrite E. exact H.
Qed.

(** Evaluate a statement about an example, part by part, from left to
    right. *)
Ltac evaluate :=
  lazymatch goal with
  | |- _ /\ _ => split; [evaluate | evaluate]
  | |- ex _ => eexists; evaluate
  | |- _ => vm_compute; reflexivity
  end.

(** * The claims *)

(** ** Navigation *)

(** C10. [previous] returns the widget it is called on, for every widget of
    the chain, the root or not: the guard compares the boolean that
    [has_previous] returns with the widget, the two are never equal, and
    the branch that returns [self] is taken. *)
Theorem previous_returns_self self s :
  py_eq (PyBool (has_previous self s)) (PyWidget self) = false /\
  previous self s = Some self.
Proof. split; reflexivity. Qed.

(** ** Clearing and promoting *)

Lemma stages_truncate j s : stages (truncate j s) = take j (stages s).
Proof. unfold stages, truncate. cbn [widgets]. apply fmap_take. Qed.

Lemma cleared_stage w w' :
  styleSheet (text_field w) = "" -> label_isHidden (codec_field w) = true ->
  cleared w w' -> stage_of w' = mkStage [] true false None.
Proof.
  intros Hst Hc (_ & _ & St & Co & _ & _ & Ro & _ & Ct & _).
  unfold stage_of. rewrite Ct, Ro, St, Hst, Co, Hc. reflexivity.
Qed.

(** C8, as the code behaves.  The clear button of the root empties the root
    and removes every follower: the chain is the one of a new encoder.  The
    clear button of another stage removes that stage together with its
    followers, and leaves the stages before it as they are. *)
Theorem clear_content_stages R fuel i s :
  reachable R s -> i < length (widgets s) -> mu s <= fuel ->
  exists s',
    handle R fuel (Click_clear i) s = Ok s' /\
    stages s' =
      match i with
      | 0 => stages EncoderWidget_init
      | S j => take (S j) (stages s)
      end.
Proof.
  intros Hr Hn Hmu. destruct (lookup_ex s i Hn) as [wi Hwi].
  cbn [handle]. rewrite (widget_at_Some _ _ _ Hwi), bind_Ok.
  destruct i as [| j].
  - pose proof (reachable_chain_ok R s Hr) as (Hi & _ & _ & _ & Hp).
    destruct (Hp wi Hwi) as [Hst Hc].
    destruct (post_inv _ _ (clear_root_spec R fuel 0 s wi Hi Hwi Hmu))
      as (s' & E & w' & Hs' & Hcl).
    exists s'. split; [exact E |].
    unfold stages. rewrite Hs'. cbn [map].
    rewrite (cleared_stage wi w' Hst Hc Hcl). reflexivity.
  - exists (truncate (S j) s).
    split; [apply clear_follower, Hn | apply stages_truncate].
Qed.

Lemma three_stages_reachable : reachable with_openssl three_stages.
Proof. apply after_reachable. vm_compute. reflexivity. Qed.

Lemma clear_content_stages_witness :
  exists s',
    handle with_openssl 5 (Click_clear 1) three_stages = Ok s' /\
    stages s' = take 1 (stages three_stages).
Proof.
  apply (clear_content_stages with_openssl 5 1 three_stages).
  - exact three_stages_reachable.
  - vm_compute. lia.
  - vm_compute. lia.
Defined.

(** The clear button of stage 1 of three stages leaves the root alone:
    stage 1 is gone, not only stage 2. *)
Lemma clear_content_removes_the_stage :
  length (stages three_stages) = 3 /\
  exists s',
    handle with_openssl 5 (Click_clear 1) three_stages = Ok s' /\
    length (stages s') = 1.
Proof.
  evaluate.
Qed.

(** C7, amended.  [move_content_to_root] of stage [k] returns and leaves
    one stage: the root, with the content that stage [k] had, no error
    mark and no operation.  The root can be edited after it when it shows
    the hex view or when every byte of the content is printable; otherwise
    the [content] setter has made its text field read-only. *)
Theorem move_content_to_root_stages R fuel k s st :
  reachable R s -> stages s !! k = Some st -> mu s < fuel ->
  exists s',
    handle R fuel (Click_move k) s = Ok s' /\
    stages s' =
      [mkStage (content st)
         (root_hex_view s || all_printable (content st)) false None].
Proof.
  intros Hr Hk Hmu.
  pose proof (reachable_chain_ok R s Hr) as Hok.
  pose proof Hok as (Hi & _ & _ & _ & Hp).
  destruct (chain_ok_root s Hok) as [w Hw].
  rewrite stages_lookup in Hk.
  destruct (s @ k) as [wk |] eqn:Hwk; [| discriminate].
  injection Hk as <-.
  destruct (post_inv _ _
              (move_content_to_root_spec R fuel k s w wk Hi Hw Hwk Hmu))
    as (s' & E & w' & Hs' & Ct & Ro & St & Co & _).
  exists s'. split; [exact E |].
  destruct (Hp w Hw) as [Hst Hc].
  unfold stages. rewrite Hs'. cbn [map]. f_equal.
  unfold stage_of at 1. rewrite Ct, Ro, St, Hst, Co, Hc.
  unfold root_hex_view. rewrite Hw. cbn [content stage_of].
  rewrite negb_andb, !negb_involutive. reflexivity.
Qed.

Lemma two_stages_reachable : reachable with_openssl two_stages.
Proof. apply after_reachable. vm_compute. reflexivity. Qed.

Lemma move_content_to_root_stages_witness :
  exists s',
    handle with_openssl 5 (Click_move 1) two_stages = Ok s' /\
    stages s' = [mkStage (codes "6162") true false None].
Proof.
  apply (move_content_to_root_stages with_openssl 5 1 two_stages
           (mkStage (codes "6162") false false (Some "Hex"))).
  - exact two_stages_reachable.
  - vm_compute. reflexivity.
  - vm_compute. lia.
Defined.

(** C7 as stated fails on [decoded_zero]: the root that takes the byte 0
    of stage 1 cannot be edited. *)
Lemma move_content_to_root_read_only :
  reachable with_openssl decoded_zero /\
  (content <$> stages decoded_zero !! 1) = Some [0%Z] /\
  exists s',
    handle with_openssl 5 (Click_move 1) decoded_zero = Ok s' /\
    stages s' = [mkStage [0%Z] false false None].
Proof.
  split; [apply after_reachable; vm_compute; reflexivity |].
  evaluate.
Qed.

(** ** Editing *)

Lemma single_focus_unarmed i s w :
  single_focus s -> s @ i = Some w -> armed w = true ->
  unarmed_from (S i) s.
Proof.
  intros Hf Hw Ha k x Hk Hx. unfold armed in *.
  apply andb_true_iff in Ha. destruct Ha as [Ha _].
  destruct (focused x) eqn:Fx; [| reflexivity].
  pose proof (Hf i k w x Hw Hx Ha Fx). lia.
Qed.

Lemma field_content_changed_edited R fuel i g s w :
  chain_ok s -> s @ i = Some w -> isReadOnly (text_field w) = false ->
  mu s < fuel ->
  (forall x, current_pick (g x) = current_pick x /\
             current_combo (g x) = current_combo x /\
             isReadOnly (text_field (g x)) = isReadOnly (text_field x) /\
             focused (g x) = focused x) ->
  exists s',
    field_content_changed R fuel i (modify i g s) = Ok s' /\
    length (stages s') <= i + 2.
Proof.
  intros Hok Hw Hro Hmu Hg. destruct fuel as [| f]; [lia |].
  pose proof Hok as (Hi & _ & _ & Hf & _).
  destruct (Hg w) as (Gp & Gc & Gr & Gf).
  assert (Hi' : inv (modify i g s)).
  { apply inv_modify; [exact Hi |]. intros x Hx.
    destruct (Hg x) as (-> & -> & _). apply (Hi i x Hx). }
  assert (Hw' : modify i g s @ i = Some (g w))
    by (rewrite modify_eq, Hw; reflexivity).
  assert (Hro' : isReadOnly (text_field (g w)) = false) by congruence.
  assert (Hmu' : mu (modify i g s) <= i + S f).
  { rewrite mu_modify; [lia |]. intros x _. apply (Hg x). }
  assert (Hun : armed (g w) = true -> unarmed_from (S i) (modify i g s)).
  { intros Ha.
    assert (Ha' : armed w = true)
      by (unfold armed in *; rewrite <- Gp, <- Gf; exact Ha).
    pose proof (single_focus_unarmed i s w Hf Hw Ha') as Hu.
    intros k x Hk Hx. rewrite modify_ne in Hx by lia.
    apply (Hu k x Hk Hx). }
  destruct (post_inv _ _
              (field_content_changed_editable R f i (modify i g s) (g w)
                 Hi' Hw' Hro' Hmu' Hun))
    as (s' & Es & Hl).
  exists s'. split; [exact Es |]. rewrite stages_length. exact Hl.
Qed.

(** C5.  An edit of a stage that can be edited returns and leaves at most
    the stage and one follower behind it: the text field takes any text,
    and the hex field, when it is not read-only, takes any bytes. *)
Theorem edit_truncates R fuel i s st :
  reachable R s -> stages s !! i = Some st -> editable st = true ->
  mu s < fuel ->
  (forall t, exists s',
      handle R fuel (Edit_text i t) s = Ok s' /\
      length (stages s') <= i + 2) /\
  (forall d,
      (_read_only <$> (hex_field <$> s @ i)) = Some false ->
      exists s',
        handle R fuel (Edit_hex i d) s = Ok s' /\
        length (stages s') <= i + 2).
Proof.
  intros Hr Hst He Hmu. pose proof (reachable_chain_ok R s Hr) as Hok.
  rewrite stages_lookup in Hst.
  destruct (s @ i) as [w |] eqn:Hw; [| discriminate].
  injection Hst as <-. cbn [editable stage_of] in He.
  apply negb_true_iff in He.
  split.
  - intros t. cbn [handle]. rewrite (widget_at_Some _ _ _ Hw), bind_Ok, He.
    unfold setPlainText.
    apply (field_content_changed_edited R fuel i _ s w Hok Hw He Hmu).
    intros x. destruct x as [? ? ? [? ? ? ? ?] [? ? ? ?] ? ? ? ? ? ? ?].
    repeat split.
  - intros d Hd. cbn [handle].
    rewrite (widget_at_Some _ _ _ Hw), bind_Ok.
    cbn in Hd. injection Hd as ->.
    apply (field_content_changed_edited R fuel i _ s w Hok Hw He Hmu).
    intros x. destruct x as [? ? ? [? ? ? ? ?] [? ? ? ?] ? ? ? ? ? ? ?].
    repeat split.
Qed.

Lemma edit_truncates_witness :
  (forall t, exists s',
      handle with_openssl 5 (Edit_text 0 t) three_stages = Ok s' /\
      length (stages s') <= 0 + 2) /\
  (forall d,
      (_read_only <$> (hex_field <$> three_stages @ 0)) = Some false ->
      exists s',
        handle with_openssl 5 (Edit_hex 0 d) three_stages = Ok s' /\
        length (stages s') <= 0 + 2).
Proof.
  apply (edit_truncates with_openssl 5 0 three_stages
           (mkStage (codes "ab") true false None)).
  - exact three_stages_reachable.
  - vm_compute. reflexivity.
  - reflexivity.
  - vm_compute. lia.
Defined.

(** ** The root *)

(** C3, amended.  The root can be edited in every state that the program
    reaches by events that assign to the content of a root in text view
    nothing but printable bytes (through [set_root_content] or through
    [move_content_to_root]). *)
Theorem root_editable R s :
  reachable_printable R s -> (editable <$> stages s !! 0) = Some true.
Proof.
  intros Hr.
  assert (H : chain_ok s /\ root_readonly s = false).
  { induction Hr as [| s fuel e s' _ [Hok Hro] Hmu Hp He].
    - split; [apply chain_ok_init | reflexivity].
    - destruct (handle_preserves R fuel e s s' Hok Hmu He) as [Hok' Hro'].
      split; [exact Hok' | apply Hro'; assumption]. }
  destruct H as [Hok Hro]. destruct (chain_ok_root s Hok) as [w Hw].
  rewrite stages_lookup, Hw. unfold root_readonly in Hro. rewrite Hw in Hro.
  cbn. rewrite Hro. reflexivity.
Qed.

Lemma root_editable_witness :
  (editable <$> stages loaded_abc !! 0) = Some true.
Proof.
  apply (root_editable with_openssl loaded_abc).
  apply (reachable_printable_step with_openssl EncoderWidget_init 5
           (Set_root_content (codes "abc"))).
  - apply reachable_printable_init.
  - vm_compute. lia.
  - right. vm_compute. reflexivity.
  - vm_compute. reflexivity.
Defined.

(** C3 as stated fails: [set_root_content] with the byte 0 leaves a root
    that cannot be edited. *)
Lemma root_read_only :
  exists s',
    handle with_openssl 5 (Set_root_content [0%Z]) EncoderWidget_init =
      Ok s' /\
    reachable with_openssl s' /\
    stages s' = [mkStage [0%Z] false false None].
Proof.
  eexists. split; [vm_compute; reflexivity |].
  split; [| vm_compute; reflexivity].
  apply (reachable_step with_openssl EncoderWidget_init 5
           (Set_root_content [0%Z]));
    [apply reachable_init | vm_compute; lia | vm_compute; reflexivity].
Qed.

(** ** Operations that fail *)

(** C6, amended.  A dispatch at stage [i] of an operation that fails
    returns; the chain has [i + 2] stages after it, the last of them, at
    [i + 1], carries the error mark, and the error is logged.  This is so
    whenever the follower of [i] does not hold the focus together with a
    remembered operation (a follower that does dispatches on its own when
    its content is written, and appends a stage behind it). *)
Theorem action_fails_length R fuel i combo s w p c out e :
  s @ i = Some w -> selection R combo w = Some (p, c) ->
  fails R p c (filled w) out e -> armed (follower i s) = false ->
  exists s',
    action R (S (S fuel)) i combo s = Ok s' /\
    length (stages s') = i + 2 /\
    (error <$> stages s' !! (S i)) = Some true /\
    stages s' !! (i + 2) = None /\
    LOGGER s' = (LOGGER s ++ [e])%list.
Proof.
  intros Hw Hsel Hf Ha.
  destruct (post_inv _ _
              (action_fails R fuel i combo s w p c out e Hw Hsel Hf Ha))
    as (s' & E & L & G & _ & _ & T).
  exists s'. split; [exact E |]. rewrite stages_length.
  split; [exact L |].
  split; [rewrite stages_lookup, T; cbn [fmap option_fmap option_map];
          f_equal; apply (failed_follower_error R p e out) |].
  split; [| exact G].
  apply lookup_ge_None_2. rewrite stages_length. lia.
Qed.

Lemma action_fails_length_witness :
  exists s',
    action with_openssl 2 0 None failed_zz = Ok s' /\
    length (stages s') = 0 + 2 /\
    (error <$> stages s' !! 1) = Some true /\
    stages s' !! (0 + 2) = None /\
    LOGGER s' =
      (LOGGER failed_zz ++ ["Non-hexadecimal digit found"])%list.
Proof.
  eapply (action_fails_length with_openssl 0 0 None failed_zz _
            "Hex" decoding_combo [] "Non-hexadecimal digit found").
  - vm_compute. reflexivity.
  - vm_compute. reflexivity.
  - apply fails_decode.
    + left. reflexivity.
    + discriminate.
    + vm_compute. reflexivity.
  - vm_compute. reflexivity.
Defined.

(** C6 as stated fails: stage 1 remembers the checksum and holds the
    focus; the decoding of [zz] at the root fails, and the chain has three
    stages after it. *)
Lemma action_fails_three_stages :
  exists s s',
    run with_openssl 5
      [Edit_text 0 (codes "zz"); Select 0 encoding_combo 1;
       Select 1 hash_combo 1; Focus_text 1] EncoderWidget_init = Ok s /\
    decode with_openssl "Hex" (codes "zz") =
      ([], Some "Non-hexadecimal digit found") /\
    handle with_openssl 5 (Select 0 decoding_combo 1) s = Ok s' /\
    length (stages s') = 3 /\
    (error <$> stages s' !! 1) = Some true /\
    LOGGER s' = ["Non-hexadecimal digit found"].
Proof.
  evaluate.
Qed.

(** C1, amended.  A dispatch at stage [i] of an operation [p] that fails
    returns and leaves at [i + 1] a stage with the error mark and with [p]
    as its operation.  Its content is what the decoder or the decompressor
    returned beside the error, and the content of stage [i] itself when
    the certificate parser raised ([out] in [fails]).  This is so when the followers are
    read-only, as they are in every chain the program builds, and the
    follower of [i] does not hold the focus together with a remembered
    operation. *)
Theorem action_fails_stage R fuel i combo s w p c out e :
  followers_readonly s -> s @ i = Some w ->
  selection R combo w = Some (p, c) -> p <> "" ->
  fails R p c (filled w) out e -> armed (follower i s) = false ->
  exists s',
    action R (S (S fuel)) i combo s = Ok s' /\
    stages s' !! (S i) = Some (mkStage out false true (Some p)).
Proof.
  intros Hro Hw Hsel Hp Hf Ha.
  destruct (post_inv _ _
              (action_fails R fuel i combo s w p c out e Hw Hsel Hf Ha))
    as (s' & E & _ & _ & _ & _ & T).
  exists s'. split; [exact E |].
  rewrite stages_lookup, T. cbn [fmap option_fmap option_map]. f_equal.
  apply failed_follower_stage; [apply follower_readonly, Hro | exact Hp].
Qed.

Lemma action_fails_stage_witness :
  exists s',
    action with_openssl 2 0 None failed_zz = Ok s' /\
    stages s' !! 1 = Some (mkStage [] false true (Some "Hex")).
Proof.
  eapply (action_fails_stage with_openssl 0 0 None failed_zz _
            "Hex" decoding_combo [] "Non-hexadecimal digit found").
  - apply (reachable_chain_ok with_openssl).
    apply after_reachable. vm_compute. reflexivity.
  - vm_compute. reflexivity.
  - vm_compute. reflexivity.
  - discriminate.
  - apply fails_decode.
    + left. reflexivity.
    + discriminate.
    + vm_compute. reflexivity.
  - vm_compute. reflexivity.
Defined.

(** C1 as stated fails: [abc] is no certificate, the parser raises, and
    stage 1 holds [abc] with the error mark. *)
Lemma certificate_failure_keeps_content :
  X509Certificate_decode with_openssl (codes "abc") = inr "crypto.Error" /\
  exists s',
    handle with_openssl 5 (Select 0 misc_combo 1) (typed_abc with_openssl) =
      Ok s' /\
    stages s' !! 1 =
      Some (mkStage (codes "abc") false true (Some "X509Certificate")) /\
    LOGGER s' = ["crypto.Error"].
Proof.
  evaluate.
Qed.

(** ** An operation that is not available *)

Lemma skipped_follower_stage p t :
  error (stage_of (action_finish_local p None t)) = false /\
  content (stage_of (action_finish_local p None t)) = _content t /\
  editable (stage_of (action_finish_local p None t)) =
    negb (isReadOnly (text_field t)).
Proof.
  unfold action_finish_local. cbv zeta.
  destruct (_ && _); destruct t as [? ? ? [? ? ? ? ?] ? ? ? ? ? ? ? ?];
    repeat split.
Qed.

(** C2, amended.  Without the OpenSSL bindings a dispatch of
    [X509Certificate] at stage [i] returns without an error: nothing is
    logged, no stage is removed, the follower of [i] (a new, empty one
    when [i] was the last stage) keeps its content and carries no error
    mark. *)
Theorem certificate_skipped R fuel i combo s w c :
  s @ i = Some w -> selection R combo w = Some ("X509Certificate", c) ->
  ~ In "X509Certificate" (ENCODINGS R) ->
  ~ In "X509Certificate" (COMPRESSIONS R) ->
  ~ In "X509Certificate" (HASHS R) ->
  crypto R = false ->
  exists s' st,
    action R (S (S fuel)) i combo s = Ok s' /\
    LOGGER s' = LOGGER s /\
    length (stages s') = Nat.max (length (stages s)) (i + 2) /\
    stages s' !! (S i) = Some st /\
    error st = false /\
    content st = _content (follower i s).
Proof.
  intros Hw Hsel HE HC HH Hcr.
  destruct (action_dispatch R (S fuel) i combo s w _ c Hw Hsel)
    as (s1 & w1 & -> & Hw1 & P1 & C1 & _ & L1 & G1 & F1).
  assert (Hfo : follower i s1 = follower i s)
    by (apply follower_eq, F1; lia).
  destruct (post_inv _ _
              (action_transform_skips R (field_content_changed R (S fuel))
                 fuel i s1 w1 c Hw1 P1 C1 HE HC HH Hcr))
    as (s' & E & L & G & _ & T).
  destruct (skipped_follower_stage (Some "X509Certificate") (follower i s))
    as (He & Hc & _).
  exists s', (stage_of (action_finish_local (Some "X509Certificate") None
                          (follower i s))).
  split; [exact E |]. split; [congruence |].
  split; [rewrite !stages_length; lia |].
  split; [rewrite stages_lookup, T, Hfo; reflexivity |].
  split; [exact He | exact Hc].
Qed.

Lemma certificate_skipped_witness :
  exists s' st,
    action without_openssl 2 0 None skipped_abc = Ok s' /\
    LOGGER s' = LOGGER skipped_abc /\
    length (stages s') = Nat.max (length (stages skipped_abc)) (0 + 2) /\
    stages s' !! 1 = Some st /\
    error st = false /\
    content st = _content (follower 0 skipped_abc).
Proof.
  eapply (certificate_skipped without_openssl 0 0 None skipped_abc _
            misc_combo).
  - vm_compute. reflexivity.
  - vm_compute. reflexivity.
  - vm_compute. intros [H | []]. discriminate.
  - vm_compute. intros [H | []]. discriminate.
  - vm_compute. intros [H | []]. discriminate.
  - reflexivity.
Defined.

(** C2 as stated fails: without OpenSSL the selection of
    [X509Certificate] on [abc] marks no error and logs nothing, where the
    parser that is there raises and marks stage 1. *)
Lemma certificate_unavailable_no_error :
  crypto without_openssl = false /\
  (exists s',
     handle without_openssl 5 (Select 0 misc_combo 1)
       (typed_abc without_openssl) = Ok s' /\
     stages s' !! 1 =
       Some (mkStage [] false false (Some "X509Certificate")) /\
     LOGGER s' = []) /\
  (exists s',
     handle with_openssl 5 (Select 0 misc_combo 1)
       (typed_abc with_openssl) = Ok s' /\
     (error <$> stages s' !! 1) = Some true).
Proof.
  evaluate.
Qed.

(** * Further properties of the code *)

(** ** The list of widgets *)

(** X1. [remove_next_widgets(widget, offset)] returns when [widget] is in
    the chain, and cuts the chain to the widgets before position
    [index(widget) + offset]: the root stays in any case, and so does the
    whole chain but the root when that position is beyond the end of the
    chain.  Nothing is logged. *)
Theorem remove_next_widgets_keeps self widget offset s :
  default self widget < length (widgets s) ->
  exists s',
    remove_next_widgets self widget offset s = Ok s' /\
    LOGGER s' = LOGGER s /\
    0 < length (widgets s') /\
    widgets s' =
      take (if default self widget + offset <=? length (widgets s)
            then Nat.max 1 (default self widget + offset) else 1)
        (widgets s).
Proof.
  intros H. rewrite (remove_next_widgets_take self widget offset s H).
  eexists. split; [reflexivity |]. split; [reflexivity |].
  split; [| reflexivity]. cbn [widgets]. rewrite length_take.
  destruct (_ <=? _); lia.
Qed.

Lemma remove_next_widgets_keeps_witness :
  exists s',
    remove_next_widgets 0 (Some 1) 5 three_stages = Ok s' /\
    LOGGER s' = LOGGER three_stages /\
    0 < length (widgets s') /\
    widgets s' = take 1 (widgets three_stages).
Proof.
  destruct (remove_next_widgets_keeps 0 (Some 1) 5 three_stages)
    as (s' & E & L & P & W); [vm_compute; lia |].
  exists s'. split; [exact E |]. split; [exact L |]. split; [exact P |].
  rewrite W. vm_compute. reflexivity.
Defined.

(** X2. [next()] of a widget of the chain returns the widget behind it.
    For the last widget it appends that widget first: read-only, empty,
    with its action panel hidden.  The widgets that were there stay as they
    are, and a second call returns the same widget and changes nothing. *)
Theorem next_once n s :
  n < length (widgets s) ->
  exists s1,
    next n s = Ok (S n, s1) /\
    next n s1 = Ok (S n, s1) /\
    LOGGER s1 = LOGGER s /\
    widgets s1 =
      (if length (widgets s) =? S n
       then (widgets s ++ [DeenWidget_init true false])%list
       else widgets s).
Proof.
  intros Hn. exists (with_next n s).
  split; [apply next_with_next, Hn |].
  split.
  - apply next_exists. rewrite with_next_length by exact Hn. lia.
  - split; [apply with_next_LOGGER |].
    unfold with_next. destruct (_ =? _); reflexivity.
Qed.

Lemma next_once_witness :
  exists s1,
    next 2 three_stages = Ok (3, s1) /\
    next 2 s1 = Ok (3, s1) /\
    LOGGER s1 = LOGGER three_stages /\
    widgets s1 = (widgets three_stages ++ [DeenWidget_init true false])%list.
Proof.
  destruct (next_once 2 three_stages) as (s1 & E1 & E2 & L & W);
    [vm_compute; lia |].
  exists s1. split; [exact E1 |]. split; [exact E2 |]. split; [exact L |].
  rewrite W. vm_compute. reflexivity.
Defined.

(** ** The chains the program builds *)

(** X5. In every chain that the program reaches there is a root, the root
    carries no error mark and no operation, and no stage behind the root
    can be edited. *)
Theorem reachable_stages R s :
  reachable R s ->
  exists root followers,
    stages s = root :: followers /\
    error root = false /\ producing_operation root = None /\
    Forall (fun st => editable st = false) followers.
Proof.
  intros Hr. pose proof (reachable_chain_ok R s Hr) as (_ & Hn & Hf & _ & Hp).
  unfold stages. destruct s as [[| w l] g]; [simpl in Hn; lia |].
  exists (stage_of w), (map stage_of l). split; [reflexivity |].
  destruct (Hp w eq_refl) as [Hst Hc].
  split; [cbn; rewrite Hst; reflexivity |].
  split; [cbn; rewrite Hc; reflexivity |].
  apply Forall_lookup. intros k st Hk. rewrite list_lookup_fmap in Hk.
  destruct (l !! k) as [x |] eqn:Hx; [| discriminate].
  injection Hk as <-. cbn.
  rewrite (Hf (S k) x); [reflexivity | lia | exact Hx].
Qed.

Lemma reachable_stages_witness :
  exists root followers,
    stages three_stages = root :: followers /\
    error root = false /\ producing_operation root = None /\
    Forall (fun st => editable st = false) followers.
Proof.
  apply (reachable_stages with_openssl three_stages).
  apply after_reachable. vm_compute. reflexivity.
Defined.

(** ** Every user action returns *)

Lemma handle_local R fuel e i s :
  inv s -> mu s < fuel -> handled_by e = Some i -> i < length (widgets s) ->
  post (handle R fuel e s) (fun s' => forall k, k < i -> s' @ k = s @ k).
Proof.
  intros Hi Hmu He Hn. destruct (lookup_ex s i Hn) as [w Hw].
  assert (Hact : forall m,
            post m (B Wact i s) ->
            post m (fun s' => forall k, k < i -> s' @ k = s @ k)).
  { intros m Hm. eapply post_weaken; [exact Hm |]. intros s' [H _]. exact H. }
  destruct e as [j t | j d | j c k | j | j | j | j | d | j | j |];
    simpl in He; try discriminate; injection He as ->; cbn [handle].
  - rewrite (widget_at_Some _ _ _ Hw), bind_Ok.
    destruct (isReadOnly (text_field w)); [apply post_Ok; auto |].
    apply Hact, edit_text_spec; [assumption | assumption | lia].
  - rewrite (widget_at_Some _ _ _ Hw), bind_Ok.
    destruct (_read_only (hex_field w)); [apply post_Ok; auto |].
    apply Hact, edit_hex_spec; [assumption | assumption | lia].
  - destruct (Nat.eqb_spec k 0) as [-> | Hk]; cbn [orb];
      [apply post_Ok; auto |].
    destruct (negb _); [apply post_Ok; auto |].
    apply Hact, select_spec; assumption.
  - rewrite (widget_at_Some _ _ _ Hw), bind_Ok.
    destruct i as [| j]; [| rewrite clear_follower by exact Hn].
    + eapply post_weaken;
        [apply (clear_root_spec R fuel 0 s w Hi Hw); lia |].
      intros s' _ k Hk. lia.
    + apply post_Ok. intros k Hk. apply truncate_lookup. lia.
  - rewrite (widget_at_Some _ _ _ Hw), bind_Ok.
    apply Hact, view_text_spec; [assumption | assumption | lia].
  - rewrite (widget_at_Some _ _ _ Hw), bind_Ok.
    apply Hact, view_hex_Wact; [assumption | assumption | lia].
Qed.

Lemma mu_bound s : mu s <= length (widgets s) + 1.
Proof.
  unfold mu. destruct (s @ _) as [x |]; [destruct (current_pick x) |]; lia.
Qed.

(** X3. On a chain that the program reaches, no user action fails on the
    list of widgets: every [widgets[...]], [widgets.index(...)] and
    [self.next()] of the handlers finds its widget (no [IndexError], no
    [ValueError], no [AttributeError] on [None]), and the signals that the
    handlers emit nest no deeper than the length of the chain and two.
    The events carry byte strings and code points, and the transformers
    return byte strings; what Python raises on arguments of other types,
    or on text that UTF-8 cannot encode, is not part of [handle]. *)
Theorem handle_returns R fuel e s :
  reachable R s -> length (widgets s) + 1 < fuel -> in_range e s ->
  exists s', handle R fuel e s = Ok s'.
Proof.
  intros Hr Hfuel Hin. pose proof (reachable_chain_ok R s Hr) as Hok.
  pose proof Hok as (Hi & Hlen & _).
  assert (Hmu : mu s < fuel) by (pose proof (mu_bound s); lia).
  destruct (handled_by e) as [i |] eqn:He.
  - assert (Hn : i < length (widgets s))
      by (destruct e; simpl in He; try discriminate; injection He as <-;
          exact Hin).
    destruct (post_inv _ _ (handle_local R fuel e i s Hi Hmu He Hn))
      as (s' & E & _).
    eauto.
  - destruct e as [j t | j d | j c k | j | j | j | j | d | j | j |];
      simpl in He; try discriminate; cbn [handle]; simpl in Hin.
    + destruct (chain_ok_root s Hok) as [w Hw].
      destruct (lookup_ex s j Hin) as [wj Hwj].
      destruct (post_inv _ _
                  (move_content_to_root_spec R fuel j s w wj Hi Hw Hwj Hmu))
        as (s' & E & _).
      eauto.
    + unfold set_root_content, set_root_content_step.
      destruct d as [| b d]; [eauto |].
      destruct (chain_ok_root s Hok) as [w Hw].
      destruct (post_inv _ _
                  (content_setter_readonly R fuel 0 (b :: d) s w Hi Hw
                     ltac:(lia)))
        as (s' & E & _).
      eauto.
    + destruct (lookup_ex s j Hin) as [wj Hwj].
      rewrite (widget_at_Some _ _ _ Hwj), bind_Ok. eauto.
    + destruct (lookup_ex s j Hin) as [wj Hwj].
      rewrite (widget_at_Some _ _ _ Hwj), bind_Ok. eauto.
    + eauto.
Qed.

Lemma handle_returns_witness :
  exists s',
    handle with_openssl 5 (Select 1 decoding_combo 1) three_stages = Ok s'.
Proof.
  apply (handle_returns with_openssl 5 (Select 1 decoding_combo 1)
           three_stages).
  - apply after_reachable. vm_compute. reflexivity.
  - vm_compute. lia.
  - vm_compute. lia.
Defined.

(** X4. Editing a stage, selecting an operation on it, switching its view
    and clearing it leave every widget before that stage exactly as it is:
    the handlers of a stage write to that stage and behind it only. *)
Theorem handle_keeps_upstream R fuel e i s :
  reachable R s -> length (widgets s) + 1 < fuel -> handled_by e = Some i ->
  i < length (widgets s) ->
  exists s',
    handle R fuel e s = Ok s' /\
    (forall k, k < i -> s' @ k = s @ k) /\
    take i (stages s') = take i (stages s).
Proof.
  intros Hr Hfuel He Hn. pose proof (reachable_chain_ok R s Hr) as (Hi & _).
  assert (Hmu : mu s < fuel) by (pose proof (mu_bound s); lia).
  destruct (post_inv _ _ (handle_local R fuel e i s Hi Hmu He Hn))
    as (s' & E & H).
  exists s'. split; [exact E |]. split; [exact H |].
  apply list_eq. intros k. destruct (decide (k < i)) as [Hk | Hk].
  - rewrite !lookup_take_lt by exact Hk. rewrite !stages_lookup, H by exact Hk.
    reflexivity.
  - rewrite !lookup_take_ge by lia. reflexivity.
Qed.

Lemma handle_keeps_upstream_witness :
  exists s',
    handle with_openssl 5 (Select 1 decoding_combo 1) three_stages = Ok s' /\
    (forall k, k < 1 -> s' @ k = three_stages @ k) /\
    take 1 (stages s') = take 1 (stages three_stages).
Proof.
  apply (handle_keeps_upstream with_openssl 5 (Select 1 decoding_combo 1) 1
           three_stages).
  - apply after_reachable. vm_compute. reflexivity.
  - vm_compute. lia.
  - reflexivity.
  - vm_compute. lia.
Defined.

(** ** Typing into a stage *)

Lemma truncate_modify j n g s :
  truncate j (modify n g s) = modify n g (truncate j s).
Proof.
  unfold truncate, modify. cbn [widgets LOGGER]. f_equal.
  apply list_eq. intros k. destruct (decide (k < j)) as [Hk | Hk].
  - rewrite lookup_take_lt by exact Hk.
    destruct (decide (n = k)) as [<- | Hne].
    + rewrite !list_lookup_alter_eq, lookup_take_lt by exact Hk. reflexivity.
    + rewrite !list_lookup_alter_ne by exact Hne.
      rewrite lookup_take_lt by exact Hk. reflexivity.
  - rewrite lookup_take_ge by lia.
    destruct (decide (n = k)) as [<- | Hne].
    + rewrite list_lookup_alter_eq, lookup_take_ge by lia. reflexivity.
    + rewrite list_lookup_alter_ne by exact Hne.
      rewrite lookup_take_ge by lia. reflexivity.
Qed.

Lemma truncate_all j s : length (widgets s) <= j -> truncate j s = s.
Proof.
  intros H. destruct s as [l g]. unfold truncate. cbn [widgets LOGGER] in *.
  rewrite take_ge by exact H. reflexivity.
Qed.

(** The first branch of [field_content_changed], for a widget that can be
    edited. *)
Lemma remove_behind_follower n s :
  n < length (widgets s) ->
  (if has_next n s then remove_next_widgets n None 2 s else Ok s) =
  Ok (truncate (n + 2) s).
Proof.
  intros Hn. unfold has_next.
  destruct (Nat.eqb_spec (length (widgets s) - 1) n) as [E | E]; cbn [negb].
  - rewrite truncate_all by lia. reflexivity.
  - rewrite (remove_next_widgets_take n None 2 s) by exact Hn.
    change (default n None) with n.
    destruct (Nat.leb_spec (n + 2) (length (widgets s))); [| lia].
    rewrite Nat.max_r by lia. reflexivity.
Qed.

(** [field_content_changed] of a widget that can be edited and does not
    dispatch. *)
Lemma field_content_changed_editable_eq R fuel n s w :
  s @ n = Some w -> isReadOnly (text_field w) = false -> armed w = false ->
  field_content_changed R (S fuel) n s =
  Ok (modify n field_content_changed_local (truncate (n + 2) s)).
Proof.
  intros Hw Hro Ha. assert (Hn := lookup_lt _ _ _ Hw).
  simpl. unfold field_content_changed_step.
  rewrite (widget_at_Some _ _ _ Hw), bind_Ok. rewrite Hro.
  cbn [negb]. rewrite andb_true_r, andb_false_r.
  set (s0 := if action_panel_isHidden w
             then modify n (set_action_panel_isHidden false) s else s).
  set (w0 := if action_panel_isHidden w
             then set_action_panel_isHidden false w else w).
  assert (Hw0 : s0 @ n = Some w0).
  { unfold s0, w0. destruct (action_panel_isHidden w);
      [rewrite modify_eq, Hw; reflexivity | exact Hw]. }
  assert (Hs0 : truncate (n + 2) s0 =
                modify n (fun x => if action_panel_isHidden x
                                   then set_action_panel_isHidden false x
                                   else x) (truncate (n + 2) s)).
  { assert (Hwt : truncate (n + 2) s @ n = Some w)
      by (rewrite truncate_lookup by lia; exact Hw).
    unfold s0. destruct (action_panel_isHidden w) eqn:Eh.
    - rewrite truncate_modify. eapply modify_ext; [exact Hwt |].
      rewrite Eh. reflexivity.
    - symmetry. eapply modify_id; [exact Hwt |]. rewrite Eh. reflexivity. }
  assert (Hn0 : n < length (widgets s0)) by (eapply lookup_lt, Hw0).
  match goal with
  | |- context [?m ≫= _] =>
    match m with
    | context [remove_next_widgets] =>
      replace m with (Ok (truncate (n + 2) s0) : result EncoderWidget)
    end
  end.
  2:{ rewrite <- (remove_behind_follower n s0 Hn0).
      destruct (has_next n s0); reflexivity. }
  rewrite bind_Ok.
  assert (Hw1 : truncate (n + 2) s0 @ n = Some w0)
    by (rewrite truncate_lookup by lia; exact Hw0).
  rewrite Hs0 in *. clear Hs0.
  assert (Hwt : truncate (n + 2) s @ n = Some w)
    by (rewrite truncate_lookup by lia; exact Hw).
  generalize dependent (truncate (n + 2) s). intros t Hw1 Hwt.
  unfold update_readonly_field, update_length_field,
    field_content_changed_local.
  unfold armed, focused in Ha. subst w0. clear s0 Hw0 Hn0.
  destruct w as [? ? ? [? ro ? ? ?] [? ? ? ?] ? hv ah ? ? ? ?].
  cbn in Ha, Hro. subst ro.
  destruct ah, hv; run_widget Hwt; rewrite ?Ha; f_equal;
    (eapply modify_ext; [exact Hwt | reflexivity]).
Qed.

Lemma stages_modify i g s w :
  s @ i = Some w -> stages (modify i g s) = <[i := stage_of (g w)]> (stages s).
Proof.
  intros Hw. apply list_eq. intros k. rewrite stages_lookup.
  destruct (decide (i = k)) as [<- | Hne].
  - rewrite modify_eq, Hw, list_lookup_insert_eq
      by (rewrite stages_length; eapply lookup_lt, Hw).
    reflexivity.
  - rewrite modify_ne, list_lookup_insert_ne by exact Hne.
    rewrite stages_lookup. reflexivity.
Qed.

Lemma edited_stage w w' ro c t h :
  effect w w' ro c t h ->
  stage_of w' =
  mkStage c (negb ro) (error (stage_of w)) (producing_operation (stage_of w)).
Proof.
  intros (St & Co & _ & _ & _ & _ & Ro & Ct & _).
  unfold stage_of. rewrite St, Co, Ro, Ct. reflexivity.
Qed.

(** X6. Typing into a stage that can be edited and that does not dispatch
    (it has not both the focus and a remembered operation) returns, logs
    nothing, and makes the UTF-8 bytes of the text the content of the
    stage; bytes typed in the hex view become the content as they are.
    The stage behind it stays as it is, with the result of the text that
    was there before, and the stages behind that one are removed. *)
Theorem typing_sets_content R fuel i s w :
  s @ i = Some w -> isReadOnly (text_field w) = false -> armed w = false ->
  (hex_view w = false -> forall t,
     exists s',
       handle R (S fuel) (Edit_text i t) s = Ok s' /\
       LOGGER s' = LOGGER s /\
       stages s' =
         <[i := mkStage (utf8 t) true (error (stage_of w))
                  (producing_operation (stage_of w))]>
           (take (i + 2) (stages s))) /\
  (hex_view w = true -> _read_only (hex_field w) = false -> forall d,
     exists s',
       handle R (S fuel) (Edit_hex i d) s = Ok s' /\
       LOGGER s' = LOGGER s /\
       stages s' =
         <[i := mkStage d true (error (stage_of w))
                  (producing_operation (stage_of w))]>
           (take (i + 2) (stages s))).
Proof.
  intros Hw Hro Ha. assert (Hn := lookup_lt _ _ _ Hw).
  assert (Hwt : truncate (i + 2) s @ i = Some w)
    by (rewrite truncate_lookup by lia; exact Hw).
  split.
  - intros Hv t. cbn [handle].
    rewrite (widget_at_Some _ _ _ Hw), bind_Ok, Hro. unfold setPlainText.
    rewrite (field_content_changed_editable_eq R fuel i _
               (on_text_field (setPlainText_ t) w)).
    + eexists. split; [reflexivity |]. split; [reflexivity |].
      rewrite truncate_modify, modify_modify.
      rewrite (stages_modify i _ _ w Hwt), stages_truncate.
      f_equal. fold (setPlainText_local t w).
      destruct (setPlainText_local_effect t w) as [_ He].
      rewrite (edited_stage _ _ _ _ _ _ He), Hro, Hv. reflexivity.
    + rewrite modify_eq, Hw. reflexivity.
    + rewrite <- Hro. destruct w as [? ? ? [? ? ? ? ?] ? ? ? ? ? ? ? ?].
      reflexivity.
    + rewrite <- Ha. destruct w as [? ? ? [? ? ? ? ?] ? ? ? ? ? ? ? ?].
      reflexivity.
  - intros Hv Hh d. cbn [handle].
    rewrite (widget_at_Some _ _ _ Hw), bind_Ok, Hh.
    rewrite (field_content_changed_editable_eq R fuel i _
               (on_hex_field (hex_set_content_ d) w)).
    + eexists. split; [reflexivity |]. split; [reflexivity |].
      rewrite truncate_modify, modify_modify.
      rewrite (stages_modify i _ _ w Hwt), stages_truncate.
      f_equal.
      destruct (field_content_changed_local_effect
                  (on_hex_field (hex_set_content_ d) w)) as [_ He].
      rewrite (edited_stage _ _ _ _ _ _ He).
      destruct w as [? ? ? [? ? ? ? ?] [? ? ? ?] ? ? ? ? ? ? ?].
      cbn in *. subst. reflexivity.
    + rewrite modify_eq, Hw. reflexivity.
    + rewrite <- Hro. destruct w as [? ? ? ? [? ? ? ?] ? ? ? ? ? ? ?].
      reflexivity.
    + rewrite <- Ha. destruct w as [? ? ? ? [? ? ? ?] ? ? ? ? ? ? ?].
      reflexivity.
Qed.

Lemma typing_sets_content_witness :
  exists s',
    handle with_openssl 1 (Edit_text 0 (codes "xy")) three_stages = Ok s' /\
    stages s' =
      [mkStage (codes "xy") true false None;
       mkStage (codes "6162") false false (Some "Hex")].
Proof.
  destruct (typing_sets_content with_openssl 0 0 three_stages
              (default (DeenWidget_init false true) (three_stages @ 0)))
    as [H _]; try (vm_compute; reflexivity).
  destruct (H ltac:(vm_compute; reflexivity) (codes "xy"))
    as (s' & E & _ & St).
  exists s'. split; [exact E |]. rewrite St. vm_compute. reflexivity.
Defined.

(** ** Writing to the stages behind a stage *)

Lemma Wq_Wset w w' : Wq w w' -> Wset w w'.
Proof.
  unfold Wq, Wtop, Wset, Wk.
  intros ((-> & -> & -> & -> & -> & _) & -> & -> & _). tauto.
Qed.

Lemma Wset_quiet w w' : Wset w w' -> quiet w = true -> quiet w' = true.
Proof.
  intros H. unfold quiet. rewrite (Wk_armed w w' (Wset_Wk _ _ H)).
  destruct H as ((_ & _ & _ & _ & H) & _).
  destruct (isReadOnly (text_field w)); [| discriminate].
  rewrite H by reflexivity. tauto.
Qed.

Lemma quiet_true w :
  quiet w = true -> isReadOnly (text_field w) = true /\ armed w = false.
Proof.
  unfold quiet. intros H. apply andb_true_iff in H. destruct H as [-> H].
  apply negb_true_iff in H. auto.
Qed.

Lemma kept_refl j s : kept j s s.
Proof.
  split; [reflexivity |]. split; [reflexivity |]. split; [reflexivity |].
  intros k w _ Hw. exists w. split; [exact Hw | apply Wset_refl].
Qed.

Lemma kept_trans j s1 s2 s3 : kept j s1 s2 -> kept j s2 s3 -> kept j s1 s3.
Proof.
  intros (L1 & G1 & P1 & K1) (L2 & G2 & P2 & K2).
  split; [congruence |]. split; [congruence |].
  split; [intros k Hk; rewrite P2, P1 by exact Hk; reflexivity |].
  intros k w Hk Hw. destruct (K1 k w Hk Hw) as (w2 & Hw2 & HW2).
  destruct (K2 k w2 Hk Hw2) as (w3 & Hw3 & HW3).
  exists w3. split; [exact Hw3 | eapply Wset_trans; eauto].
Qed.

Lemma kept_modify j g s w :
  s @ j = Some w -> Wset w (g w) -> kept j s (modify j g s).
Proof.
  intros Hw HW. split; [apply modify_length |]. split; [reflexivity |].
  split; [intros k Hk; apply modify_ne; lia |].
  intros k x Hk Hx. destruct (decide (j = k)) as [<- | Hne].
  - assert (x = w) by congruence. subst x.
    exists (g w). split; [rewrite modify_eq, Hw; reflexivity | exact HW].
  - exists x. split; [rewrite modify_ne by exact Hne; exact Hx |].
    apply Wset_refl.
Qed.

Lemma kept_quiet j s s' : kept j s s' -> quiet_from j s -> quiet_from j s'.
Proof.
  intros (L & _ & _ & K) Hq k w' Hk Hw'.
  assert (Hlt : k < length (widgets s))
    by (rewrite <- L; eapply lookup_lt, Hw').
  destruct (lookup_ex s k Hlt) as [w Hw].
  destruct (K k w Hk Hw) as (x & Hx & HW).
  assert (x = w') by congruence. subst x.
  apply (Wset_quiet w w' HW), (Hq k w Hk Hw).
Qed.

Lemma kept_lookup j s s' k w :
  kept j s s' -> j <= k -> s @ k = Some w ->
  exists w', s' @ k = Some w' /\ Wset w w'.
Proof. intros (_ & _ & _ & K). apply K. Qed.

Lemma kept_weaken j s s' : kept (S j) s s' -> kept j s s'.
Proof.
  intros (L & G & P & K). split; [exact L |]. split; [exact G |].
  split; [intros k Hk; apply P; lia |].
  intros k w Hk Hw. destruct (decide (k = j)) as [-> | Hne].
  - exists w. split; [rewrite P by lia; exact Hw | apply Wset_refl].
  - apply K; [lia | exact Hw].
Qed.

Lemma quiet_from_weaken j k s : j <= k -> quiet_from j s -> quiet_from k s.
Proof. intros H Hq i w Hi. apply Hq. lia. Qed.

Lemma holds_from_modify j d g s w :
  holds_from j d s -> s @ j = Some w -> _content (g w) = d ->
  holds_from j d (modify j g s).
Proof.
  intros Hh Hw Hc k x Hk Hx. destruct (decide (j = k)) as [<- | Hne].
  - rewrite modify_eq, Hw in Hx. injection Hx as <-. exact Hc.
  - rewrite modify_ne in Hx by exact Hne. apply (Hh k x Hk Hx).
Qed.

Lemma with_next_quiet i s :
  i < length (widgets s) -> quiet_from (S i) s ->
  quiet_from (S i) (with_next i s).
Proof.
  intros Hn Hq k w Hk Hw. unfold with_next in Hw.
  destruct (Nat.eqb_spec (length (widgets s)) (S i)) as [E | E].
  - unfold appended in Hw. cbn [widgets] in Hw.
    rewrite lookup_app_r in Hw by lia.
    destruct (k - length (widgets s)) as [| m]; [| discriminate].
    injection Hw as <-. reflexivity.
  - apply (Hq k w Hk Hw).
Qed.

(** Prove a frame condition of a record update. *)
Ltac solve_Wq :=
  repeat match goal with
         | w : DeenWidget |- _ =>
           destruct w as [? ? ? [? ? ? ? ?] [? ? ? ?] ? ? ? ? ? ? ?]
         end;
  unfold Wq, Wself, Wtop, Wset, Wk; cbn in *; intuition (auto; congruence).

Section Cascade.

Variable R : Runtime.
Variable emit_changed : nat -> EncoderWidget -> result EncoderWidget.
Variable emit_currentIndexChanged :
  nat -> Combo -> EncoderWidget -> result EncoderWidget.

(** The emissions below nest [f] levels deep. *)
Variable f : nat.

Hypothesis emit_changed_quiet : forall k s,
  k < length (widgets s) -> quiet_from k s ->
  length (widgets s) <= k + f ->
  post (emit_changed k s) (passed_on k s).

(** A field of widget [j] is changed and the signal is emitted. *)
Lemma emit_after_modify j g s0 t x d :
  kept j s0 t -> quiet_from j s0 -> length (widgets s0) <= j + f ->
  t @ j = Some x -> Wset x (g x) -> _content (g x) = d ->
  post (emit_changed j (modify j g t))
    (fun t' => kept j s0 t' /\ holds_from j d t' /\
               exists x', t' @ j = Some x' /\ Wq (g x) x').
Proof.
  intros Hk Hq Hf Hx HW Hd.
  assert (Hk1 : kept j s0 (modify j g t))
    by (eapply kept_trans; [exact Hk | eapply kept_modify; eauto]).
  assert (Hx1 : modify j g t @ j = Some (g x))
    by (rewrite modify_eq, Hx; reflexivity).
  eapply post_weaken.
  - apply emit_changed_quiet.
    + eapply lookup_lt, Hx1.
    + eapply kept_quiet; eauto.
    + destruct Hk1 as (-> & _). exact Hf.
  - intros t' (Hk' & w & w' & Hw & Hw' & HWq & Hh).
    assert (w = g x) by congruence. subst w.
    split; [eapply kept_trans; eauto |].
    split; [rewrite <- Hd; exact Hh |]. eauto.
Qed.

(** The setter of [content], for a quiet widget. *)
Lemma content_setter_quiet j d s0 t x :
  kept j s0 t -> quiet_from j s0 -> length (widgets s0) <= j + f ->
  t @ j = Some x ->
  post (content_setter R emit_changed j d t)
    (fun t' => kept j s0 t' /\
               exists x', t' @ j = Some x' /\ _content x' = d).
Proof.
  intros Hk Hq Hf Hx. unfold content_setter. cbv zeta.
  rewrite (widget_at_modify _ _ _ _ Hx), bind_Ok.
  replace (hex_view (set__content d x)) with (hex_view x)
    by (destruct x; reflexivity).
  replace (_content (set__content d x)) with d by (destruct x; reflexivity).
  destruct (hex_view x).
  - unfold hex_field_set_content. cbv zeta. rewrite modify_modify.
    destruct (hex_content_emits R).
    + eapply post_weaken.
      * apply (emit_after_modify j _ s0 t x d Hk Hq Hf Hx);
          [solve_Wq | destruct x; reflexivity].
      * intros t' (K & _ & x' & Hx' & HW). split; [exact K |].
        exists x'. split; [exact Hx' |].
        destruct HW as (_ & _ & _ & ->). destruct x; reflexivity.
    + apply post_Ok. split.
      * eapply kept_trans; [exact Hk |].
        eapply kept_modify; [exact Hx | solve_Wq].
      * eexists. split; [rewrite modify_eq, Hx; reflexivity |].
        destruct x; reflexivity.
  - unfold setPlainText.
    destruct (all_printable d); cbn [negb]; rewrite !modify_modify.
    + eapply post_weaken.
      * apply (emit_after_modify j _ s0 t x d Hk Hq Hf Hx);
          [solve_Wq | destruct x; reflexivity].
      * intros t' (K & _ & x' & Hx' & HW). split; [exact K |].
        exists x'. split; [exact Hx' |].
        destruct HW as (_ & _ & _ & ->). destruct x; reflexivity.
    + eapply post_weaken.
      * apply (emit_after_modify j _ s0 t x d Hk Hq Hf Hx);
          [solve_Wq | destruct x; reflexivity].
      * intros t' (K & _ & x' & Hx' & HW). split; [exact K |].
        exists x'. split; [exact Hx' |].
        destruct HW as (_ & _ & _ & ->). destruct x; reflexivity.
Qed.

(** [set_content_next], when the widgets behind [i] are quiet. *)
Lemma set_content_next_quiet i d s :
  i < length (widgets s) -> quiet_from (S i) s ->
  length (widgets (with_next i s)) <= S i + f ->
  post (set_content_next R emit_changed i d s)
    (fun s' => kept (S i) (with_next i s) s' /\ holds_from (S i) d s').
Proof.
  intros Hn Hq Hf. unfold set_content_next.
  rewrite (next_with_next i s Hn), bind_Ok. cbv beta iota.
  assert (Hq0 : quiet_from (S i) (with_next i s))
    by (apply with_next_quiet; assumption).
  assert (Hx0 : with_next i s @ (S i) = Some (follower i s))
    by (apply with_next_follower, Hn).
  set (s0 := with_next i s) in *. clearbody s0.
  assert (Hl0 : S i < length (widgets s0)) by (eapply lookup_lt, Hx0).
  assert (Hnx : forall t, kept (S i) s0 t -> next i t = Ok (S i, t)).
  { intros t (L & _). apply next_exists. lia. }
  eapply post_bind.
  { apply (content_setter_quiet (S i) d s0 s0 _ (kept_refl _ _) Hq0 Hf Hx0). }
  intros t1 (K1 & x1 & Hx1 & Hc1). cbv beta.
  rewrite (Hnx t1 K1), bind_Ok. cbv beta iota.
  rewrite (Hnx t1 K1), bind_Ok. cbv beta iota.
  rewrite (widget_at_Some _ _ _ Hx1), bind_Ok. rewrite Hc1.
  unfold setPlainText.
  eapply post_bind.
  { apply (emit_after_modify (S i) _ s0 t1 x1 d K1 Hq0 Hf Hx1);
      [solve_Wq | destruct x1; exact Hc1]. }
  intros t2 (K2 & H2 & x2 & Hx2 & HW2). cbv beta.
  assert (Hc2 : _content x2 = d) by (apply (H2 (S i) x2); [lia | exact Hx2]).
  assert (Ht2 : toPlainText (text_field x2) = toUnicode d).
  { destruct HW2 as ((_ & _ & _ & _ & _ & -> & _) & _).
    destruct x1 as [? ? ? [? ? ? ? ?] ? ? ? ? ? ? ? ?]. reflexivity. }
  clear HW2.
  rewrite (Hnx t2 K2), bind_Ok. cbv beta iota zeta.
  unfold update_length_field.
  match goal with
  | |- context [modify (S i) ?h' t2] => set (h := h')
  end.
  assert (K3 : kept (S i) s0 (modify (S i) h t2)).
  { eapply kept_trans; [exact K2 |].
    eapply kept_modify; [exact Hx2 | unfold h; solve_Wq]. }
  assert (H3 : holds_from (S i) d (modify (S i) h t2)).
  { eapply holds_from_modify; [exact H2 | exact Hx2 |].
    unfold h. destruct x2. exact Hc2. }
  assert (Hx3 : modify (S i) h t2 @ (S i) = Some (h x2))
    by (rewrite modify_eq, Hx2; reflexivity).
  rewrite (Hnx _ K3), bind_Ok. cbv beta iota.
  rewrite (widget_at_Some _ _ _ Hx3), bind_Ok.
  destruct (hex_view (h x2)) eqn:Hv; [| apply post_Ok; auto].
  rewrite (Hnx _ K3), bind_Ok. cbv beta iota.
  unfold view_hex. cbv zeta. rewrite !modify_modify.
  rewrite (widget_at_modify _ _ _ _ Hx2), bind_Ok.
  match goal with
  | |- context [match _content ?y with [] => _ | _ :: _ => _ end] =>
    replace (_content y) with d
      by (unfold h; destruct x2 as [? ? ? [? ? ? ? ?] [? ? ? ?] ? ? ? ? ? ? ?];
          symmetry; exact Hc2);
    replace (toPlainText (text_field y)) with (toUnicode d)
      by (unfold h; destruct x2 as [? ? ? [? ? ? ? ?] [? ? ? ?] ? ? ? ? ? ? ?];
          symmetry; exact Ht2)
  end.
  destruct d as [| b d'].
  - rewrite modify_modify.
    rewrite (widget_at_modify _ _ _ _ Hx2), bind_Ok.
    unfold hex_field_set_content. cbv zeta. rewrite modify_modify.
    destruct (hex_content_emits R).
    + eapply post_weaken.
      * apply (emit_after_modify (S i) _ s0 t2 x2 [] K2 Hq0 Hf Hx2);
          [unfold h; solve_Wq | unfold h; destruct x2; reflexivity].
      * intros t' (K & H & _). auto.
    + apply post_Ok. split.
      * eapply kept_trans; [exact K2 |].
        eapply kept_modify; [exact Hx2 | unfold h; solve_Wq].
      * eapply holds_from_modify; [exact H2 | exact Hx2 |].
        unfold h. destruct x2. reflexivity.
  - rewrite (widget_at_modify _ _ _ _ Hx2), bind_Ok.
    unfold hex_field_set_content. cbv zeta. rewrite modify_modify.
    destruct (hex_content_emits R).
    + eapply post_weaken.
      * apply (emit_after_modify (S i) _ s0 t2 x2 (b :: d') K2 Hq0 Hf Hx2);
          [unfold h; solve_Wq
          | unfold h; destruct x2 as [? ? ? [? ? ? ? ?] [? ? ? ?] ? ? ? ? ? ? ?];
            exact Hc2].
      * intros t' (K & H & _). auto.
    + apply post_Ok. split.
      * eapply kept_trans; [exact K2 |].
        eapply kept_modify; [exact Hx2 | unfold h; solve_Wq].
      * eapply holds_from_modify; [exact H2 | exact Hx2 |].
        unfold h. destruct x2 as [? ? ? [? ? ? ? ?] [? ? ? ?] ? ? ? ? ? ? ?].
        exact Hc2.
Qed.

(** [field_content_changed] of a quiet widget, the widgets behind it being
    quiet. *)
Lemma field_content_changed_step_quiet j s :
  j < length (widgets s) -> quiet_from j s ->
  length (widgets s) <= j + S f ->
  post (field_content_changed_step R emit_changed emit_currentIndexChanged
          j s) (passed_on j s).
Proof.
  intros Hn Hq Hf. destruct (lookup_ex s j Hn) as [w Hw].
  destruct (quiet_true w (Hq j w (le_n j) Hw)) as [Hro Ha].
  unfold field_content_changed_step.
  rewrite (widget_at_Some _ _ _ Hw), bind_Ok. rewrite Hro.
  cbn [negb]. rewrite andb_false_r, andb_true_r.
  set (g0 := fun x : DeenWidget =>
               if action_panel_isHidden w
               then set_action_panel_isHidden false x else x).
  set (s0 := if action_panel_isHidden w
             then modify j (set_action_panel_isHidden false) s else s).
  assert (Hs0 : s0 = modify j g0 s).
  { unfold s0, g0. destruct (action_panel_isHidden w); [reflexivity |].
    symmetry. eapply modify_id; [exact Hw | reflexivity]. }
  assert (HW0 : Wq w (g0 w))
    by (unfold g0; destruct (action_panel_isHidden w); solve_Wq).
  assert (Hw0 : s0 @ j = Some (g0 w))
    by (rewrite Hs0, modify_eq, Hw; reflexivity).
  assert (K0 : kept j s s0)
    by (rewrite Hs0; eapply kept_modify; [exact Hw | apply Wq_Wset, HW0]).
  assert (Hq0 : quiet_from j s0) by (eapply kept_quiet; eauto).
  assert (L0 : length (widgets s0) = length (widgets s)) by apply K0.
  clearbody s0.
  eapply post_bind with
    (P := fun t => kept (S j) s0 t /\ holds_from (S j) (_content w) t).
  { unfold has_next.
    destruct (Nat.eqb_spec (length (widgets s0) - 1) j) as [E | E];
      cbn [negb].
    - apply post_Ok. split; [apply kept_refl |].
      intros k x Hk Hx. apply lookup_lt in Hx. lia.
    - assert (Hwn : with_next j s0 = s0).
      { unfold with_next.
        destruct (Nat.eqb_spec (length (widgets s0)) (S j)); [lia |].
        reflexivity. }
      eapply post_weaken.
      + apply set_content_next_quiet.
        * lia.
        * eapply quiet_from_weaken; [| exact Hq0]. lia.
        * rewrite Hwn. lia.
      + intros t' [K H]. rewrite Hwn in K. auto. }
  intros t [K1 H1].
  assert (Hwt : t @ j = Some (g0 w))
    by (destruct K1 as (_ & _ & P & _); rewrite P by lia; exact Hw0).
  rewrite (widget_at_Some _ _ _ Hwt), bind_Ok.
  replace (isReadOnly (text_field (g0 w))) with true
    by (rewrite <- Hro; unfold g0; destruct (action_panel_isHidden w), w;
        reflexivity).
  cbn [negb]. unfold update_readonly_field, update_length_field.
  rewrite modify_modify.
  rewrite (widget_at_modify _ _ _ _ Hwt), bind_Ok.
  match goal with
  | |- context [modify j ?h' t] => set (h := h')
  end.
  assert (HWh : Wq w (h (g0 w))).
  { unfold h, g0. destruct (action_panel_isHidden w); solve_Wq. }
  match goal with
  | |- post (if (hex_hasFocus (hex_field ?y) || _) && _ then _ else _) _ =>
    change y with (h (g0 w))
  end.
  change (hex_hasFocus (hex_field (h (g0 w)))
          || text_hasFocus (text_field (h (g0 w)))) with (focused (h (g0 w))).
  change (focused (h (g0 w)) && truthy (current_pick (h (g0 w))))
    with (armed (h (g0 w))).
  rewrite (Wk_armed w (h (g0 w)) (Wset_Wk _ _ (Wq_Wset _ _ HWh))), Ha.
  apply post_Ok. split.
  - eapply kept_trans; [exact K0 |].
    eapply kept_trans; [apply kept_weaken, K1 |].
    eapply kept_modify; [exact Hwt |].
    apply Wq_Wset. unfold h, g0.
    destruct (action_panel_isHidden w); solve_Wq.
  - exists w, (h (g0 w)). split; [exact Hw |].
    split; [rewrite modify_eq, Hwt; reflexivity |].
    split; [exact HWh |].
    intros k x Hk Hx. destruct (decide (j = k)) as [<- | Hne].
    + rewrite modify_eq, Hwt in Hx. injection Hx as <-. apply HWh.
    + rewrite modify_ne in Hx by exact Hne. apply (H1 k x); [lia | exact Hx].
Qed.

End Cascade.

(** The content that is written to a quiet stage reaches every stage
    behind it, when these are quiet as well. *)
Lemma field_content_changed_quiet R fuel : forall j s,
  j < length (widgets s) -> quiet_from j s ->
  length (widgets s) <= j + fuel ->
  post (field_content_changed R fuel j s) (passed_on j s).
Proof.
  induction fuel as [| f IH]; intros j s Hn Hq Hf; [lia |].
  simpl. apply field_content_changed_step_quiet with (f := f); assumption.
Qed.

(** ** Operations that succeed *)

Lemma post_and {A} (m : result A) (P Q : A -> Prop) :
  post m P -> post m Q -> post m (fun a => P a /\ Q a).
Proof. destruct m; simpl; tauto. Qed.

Lemma with_next_behind i s k :
  S i < k -> with_next i s @ k = s @ k.
Proof.
  intros Hk. unfold with_next.
  destruct (Nat.eqb_spec (length (widgets s)) (S i)) as [E | E];
    [| reflexivity].
  unfold appended. cbn [widgets].
  rewrite lookup_ge_None_2 by (rewrite length_app; simpl; lia).
  symmetry. apply lookup_ge_None_2. lia.
Qed.

(** The end of [action] writes to the follower and to no widget behind
    it. *)
Lemma action_finish_behind R fuel i s w err :
  s @ i = Some w ->
  post (action_finish (emit_action R (S fuel)) i s err)
    (fun s' => forall k, S i < k -> s' @ k = s @ k).
Proof.
  intros Hw. assert (Hn := lookup_lt _ _ _ Hw). unfold action_finish.
  rewrite (widget_at_Some _ _ _ Hw), bind_Ok.
  assert (H1 : exists s1 w1,
             match current_combo w with
             | Some c => setCurrentIndex (emit_action R (S fuel)) i c 0 s
             | None => Ok s
             end = Ok s1 /\
             length (widgets s1) = length (widgets s) /\
             (forall k, k <> i -> s1 @ k = s @ k) /\
             s1 @ i = Some w1).
  { destruct (current_combo w) as [c |] eqn:Ec.
    - destruct (setCurrentIndex_frame R fuel i c s w Hw)
        as (s1 & w1 & E & L & G & F & H & _).
      exists s1, w1. auto.
    - exists s, w. auto. }
  destruct H1 as (s1 & w1 & -> & L1 & F1 & Hw1).
  rewrite bind_Ok.
  assert (Hn1 : i < length (widgets s1)) by lia.
  rewrite (next_with_next i s1 Hn1), bind_Ok. cbv beta iota.
  set (s2 := with_next i s1).
  assert (L2 : S i < length (widgets s2))
    by (unfold s2; rewrite with_next_length by exact Hn1; lia).
  assert (Hf2 : s2 @ (S i) = Some (follower i s1))
    by (apply with_next_follower, Hn1).
  assert (Hw2 : s2 @ i = Some w1)
    by (unfold s2; rewrite with_next_before by exact Hn1; exact Hw1).
  assert (F2 : forall k, S i < k -> s2 @ k = s @ k).
  { intros k Hk. unfold s2. rewrite with_next_behind by exact Hk.
    apply F1. lia. }
  clearbody s2.
  rewrite (widget_at_Some _ _ _ Hf2), bind_Ok.
  rewrite (widget_at_Some _ _ _ Hw2), bind_Ok.
  assert (Hnx : forall g, next i (modify (S i) g s2) =
                          Ok (S i, modify (S i) g s2))
    by (intros g; apply next_exists; rewrite modify_length; lia).
  assert (Hnx0 : next i s2 = Ok (S i, s2)) by (apply next_exists; lia).
  destruct (isReadOnly (text_field (follower i s1))
            && truthy (current_pick w1)).
  - rewrite Hnx0, bind_Ok. cbv beta iota.
    rewrite (widget_at_Some _ _ _ Hw2), bind_Ok. cbv zeta.
    rewrite Hnx, bind_Ok. cbv beta iota. rewrite bind_Ok, modify_modify.
    destruct err.
    + apply post_Ok. intros k Hk. rewrite modify_ne by lia. apply F2, Hk.
    + rewrite Hnx, bind_Ok. cbv beta iota. apply post_Ok.
      intros k Hk. rewrite !modify_ne by lia. apply F2, Hk.
  - rewrite bind_Ok. destruct err.
    + apply post_Ok. exact F2.
    + rewrite Hnx0, bind_Ok. cbv beta iota. apply post_Ok.
      intros k Hk. rewrite modify_ne by lia. apply F2, Hk.
Qed.

(** ** The stage that dispatches *)

Lemma filled_twice w : filled (set__content (filled w) w) = filled w.
Proof.
  unfold filled. destruct w as [? ? ? [t ? ? ? ?] ? c ? ? ? ? ? ?].
  cbn -[utf8]. destruct c as [| b c]; [| reflexivity].
  destruct (utf8 t); reflexivity.
Qed.

(** [action(combo)] up to the transformer, and the stage of its widget. *)
Lemma action_dispatch_own R fuel i combo s w p c :
  s @ i = Some w -> selection R combo w = Some (p, c) ->
  exists s1 w1,
    action R (S fuel) i combo s =
      action_transform R (field_content_changed R fuel)
        (emit_action R fuel) i s1 /\
    s1 @ i = Some w1 /\
    current_pick w1 = Some p /\ current_combo w1 = Some c /\
    _content w1 = filled w /\ filled w1 = filled w /\
    stage_of w1 =
      mkStage (filled w) (editable (stage_of w)) (error (stage_of w))
        (producing_operation (stage_of w)) /\
    length (widgets s1) = length (widgets s) /\
    LOGGER s1 = LOGGER s /\
    (forall k, k <> i -> s1 @ k = s @ k).
Proof.
  intros Hw Hsel. simpl. unfold action_step.
  rewrite (widget_at_Some _ _ _ Hw), bind_Ok. fold (fill w i s).
  rewrite (fill_eq w i s Hw).
  pose proof (filled_twice w) as Hft.
  destruct combo as [c0 |]; simpl in Hsel.
  - rewrite (widget_at_modify _ _ _ _ Hw), bind_Ok.
    replace (combos (set__content (filled w) w)) with (combos w)
      by (destruct w; reflexivity).
    destruct (currentIndex c0 (combos w) =? 0); [discriminate |].
    injection Hsel as <- <-. rewrite modify_modify.
    eexists _, _. split; [reflexivity |].
    split; [rewrite modify_eq, Hw; reflexivity |].
    rewrite modify_length.
    split; [destruct w; reflexivity |].
    split; [destruct w; reflexivity |].
    split; [destruct w; reflexivity |].
    split; [etransitivity; [| exact Hft]; destruct w; reflexivity |].
    split; [destruct w; reflexivity |].
    split; [reflexivity |]. split; [reflexivity |].
    intros k Hk. apply modify_ne. auto.
  - destruct (current_pick w) as [p0 |] eqn:Hp; [| discriminate].
    destruct (current_combo w) as [c0 |] eqn:Hc; [| discriminate].
    injection Hsel as <- <-.
    eexists _, _. split; [reflexivity |].
    split; [rewrite modify_eq, Hw; reflexivity |].
    rewrite modify_length.
    split; [destruct w; exact Hp |].
    split; [destruct w; exact Hc |].
    split; [destruct w; reflexivity |].
    split; [exact Hft |].
    split; [destruct w; reflexivity |].
    split; [reflexivity |]. split; [reflexivity |].
    intros k Hk. apply modify_ne. auto.
Qed.

(** The end of [action] leaves the stage of its own widget as it is, when
    the buffer of the widget has been filled. *)
Lemma action_finish_own R fuel i s w err :
  s @ i = Some w -> filled w = _content w ->
  post (action_finish (emit_action R (S fuel)) i s err)
    (fun s' => exists w', s' @ i = Some w' /\ stage_of w' = stage_of w).
Proof.
  intros Hw Hfw. assert (Hn := lookup_lt _ _ _ Hw). unfold action_finish.
  rewrite (widget_at_Some _ _ _ Hw), bind_Ok.
  assert (H1 : exists s1 w1,
             match current_combo w with
             | Some c => setCurrentIndex (emit_action R (S fuel)) i c 0 s
             | None => Ok s
             end = Ok s1 /\
             length (widgets s1) = length (widgets s) /\
             s1 @ i = Some w1 /\ stage_of w1 = stage_of w).
  { destruct (current_combo w) as [c |] eqn:Ec; [| exists s, w; auto].
    unfold setCurrentIndex. rewrite (widget_at_Some _ _ _ Hw), bind_Ok.
    destruct (currentIndex c (combos w) =? 0); [exists s, w; auto |].
    set (g := fun x => set_combos (with_index c 0 (combos x)) x).
    assert (Hw0 : modify i g s @ i = Some (g w))
      by (rewrite modify_eq, Hw; reflexivity).
    assert (Hc0 : currentIndex c (combos (g w)) = 0)
      by (unfold g; destruct c; reflexivity).
    unfold emit_action.
    rewrite (action_placeholder R fuel i c _ _ Hw0 Hc0).
    rewrite (fill_eq _ _ _ Hw0), modify_modify.
    eexists _, _. split; [reflexivity |].
    split; [apply modify_length |].
    split; [rewrite modify_eq, Hw; reflexivity |].
    replace (filled (g w)) with (_content w)
      by (rewrite <- Hfw; unfold g; destruct w; reflexivity).
    unfold g. destruct w. reflexivity. }
  destruct H1 as (s1 & w1 & -> & L1 & Hw1 & St1).
  rewrite bind_Ok.
  assert (Hn1 : i < length (widgets s1)) by lia.
  rewrite (next_with_next i s1 Hn1), bind_Ok. cbv beta iota.
  set (s2 := with_next i s1).
  assert (L2 : S i < length (widgets s2))
    by (unfold s2; rewrite with_next_length by exact Hn1; lia).
  assert (Hf2 : s2 @ (S i) = Some (follower i s1))
    by (apply with_next_follower, Hn1).
  assert (Hw2 : s2 @ i = Some w1)
    by (unfold s2; rewrite with_next_before by exact Hn1; exact Hw1).
  clearbody s2.
  rewrite (widget_at_Some _ _ _ Hf2), bind_Ok.
  rewrite (widget_at_Some _ _ _ Hw2), bind_Ok.
  assert (Hnx : forall g, next i (modify (S i) g s2) =
                          Ok (S i, modify (S i) g s2))
    by (intros g; apply next_exists; rewrite modify_length; lia).
  assert (Hnx0 : next i s2 = Ok (S i, s2)) by (apply next_exists; lia).
  assert (Hres : forall g, exists w',
             modify (S i) g s2 @ i = Some w' /\ stage_of w' = stage_of w)
    by (intros g; exists w1; rewrite modify_ne by lia; auto).
  destruct (isReadOnly (text_field (follower i s1))
            && truthy (current_pick w1)).
  - rewrite Hnx0, bind_Ok. cbv beta iota.
    rewrite (widget_at_Some _ _ _ Hw2), bind_Ok. cbv zeta.
    rewrite Hnx, bind_Ok. cbv beta iota. rewrite bind_Ok, modify_modify.
    destruct err.
    + apply post_Ok. apply Hres.
    + rewrite Hnx, bind_Ok. cbv beta iota. apply post_Ok.
      rewrite modify_modify. apply Hres.
  - rewrite bind_Ok. destruct err.
    + apply post_Ok. exists w1. auto.
    + rewrite Hnx0, bind_Ok. cbv beta iota. apply post_Ok. apply Hres.
Qed.

Lemma bind_assoc_pair (m : result EncoderWidget)
    (k : EncoderWidget -> option string -> result EncoderWidget) :
  ('(s, error) ← (s ← m; mret (s, @None string)); k s error) =
  (s ← m; k s None).
Proof. destruct m; reflexivity. Qed.

(** [action], from the transformer on, when the operation succeeds. *)
Lemma action_transform_succeeds R emit emit_c i s w p c out :
  s @ i = Some w -> current_pick w = Some p -> current_combo w = Some c ->
  succeeds R p c (_content w) out ->
  action_transform R emit emit_c i s =
  (sb ← set_content_next R emit i out s; action_finish emit_c i sb None).
Proof.
  intros Hw Hp Hc Hs. unfold action_transform.
  rewrite (widget_at_Some _ _ _ Hw), bind_Ok. cbv zeta. rewrite Hp.
  change (default "" (Some p)) with p.
  unfold current_combo_model. rewrite Hc.
  destruct Hs as [HE Hpl | out HE Hpl Hd | HE HC Hpl | out HE HC Hpl Hd
                 | HE HC HH | out HE HC HH HM HX Hcr Hd].
  - rewrite (pick_in_true _ _ HE), bind_Ok, Hpl.
    change (String.eqb "Encode" "Encode") with true. cbv iota.
    apply bind_assoc_pair.
  - rewrite (pick_in_true _ _ HE), bind_Ok.
    rewrite (String_eqb_false _ _ Hpl), Hd, bind_Ok.
    apply bind_assoc_pair.
  - rewrite (pick_in_false _ _ HE), (pick_in_true _ _ HC), bind_Ok, Hpl.
    change (String.eqb "Compress" "Compress") with true. cbv iota.
    apply bind_assoc_pair.
  - rewrite (pick_in_false _ _ HE), (pick_in_true _ _ HC), bind_Ok.
    rewrite (String_eqb_false _ _ Hpl), Hd, bind_Ok.
    apply bind_assoc_pair.
  - rewrite (pick_in_false _ _ HE), (pick_in_false _ _ HC).
    replace (pick_in (Some p) (HASHS R) || pick_is (Some p) "ALL")
      with true.
    + apply bind_assoc_pair.
    + symmetry. destruct HH as [HH | ->].
      * rewrite (pick_in_true _ _ HH). reflexivity.
      * apply orb_true_r.
  - rewrite (pick_in_false _ _ HE), (pick_in_false _ _ HC),
      (pick_in_false _ _ HH), (pick_in_true _ _ HM).
    subst p. change (pick_is (Some "X509Certificate") "ALL") with false.
    change (pick_is (Some "X509Certificate") "X509Certificate") with true.
    rewrite Hcr, Hd. cbn [orb andb]. cbv iota.
    apply bind_assoc_pair.
Qed.

Lemma finished_stage p t :
  isReadOnly (text_field t) = true -> p <> "" ->
  stage_of (action_finish_local (Some p) None t) =
  mkStage (_content t) false false (Some p).
Proof.
  intros Hro Hp. unfold action_finish_local. cbv zeta. rewrite Hro.
  assert (Ht : truthy (Some p) = true)
    by (simpl; rewrite (String_eqb_false _ _ Hp); reflexivity).
  rewrite Ht. cbn [andb default].
  unfold stage_of. destruct t as [? ? ? [? ? ? ? ?] ? ? ? ? ? ? ? ?].
  simpl in *. subst. rewrite strip_prefix_Transformer. reflexivity.
Qed.

Lemma passed_stage x x' d :
  Wset x x' -> quiet x = true -> _content x' = d ->
  stage_of x' =
  mkStage d false (error (stage_of x)) (producing_operation (stage_of x)).
Proof.
  intros HW Hq Hc. destruct (quiet_true _ (Wset_quiet _ _ HW Hq)) as [Hro _].
  destruct HW as (_ & St & Co).
  unfold stage_of. rewrite Hc, Hro, St, Co. reflexivity.
Qed.

(** A dispatch of an operation that succeeds, the stages behind it being
    quiet. *)
Lemma action_succeeds_cascade R fuel i combo s w p c out :
  s @ i = Some w -> selection R combo w = Some (p, c) -> p <> "" ->
  succeeds R p c (filled w) out -> quiet_from (S i) s ->
  length (widgets s) <= i + 2 + fuel ->
  exists s',
    action R (S (S fuel)) i combo s = Ok s' /\
    LOGGER s' = LOGGER s /\
    length (stages s') = Nat.max (length (stages s)) (i + 2) /\
    take i (stages s') = take i (stages s) /\
    stages s' !! i =
      Some (mkStage (filled w) (editable (stage_of w)) (error (stage_of w))
              (producing_operation (stage_of w))) /\
    stages s' !! (S i) = Some (mkStage out false false (Some p)) /\
    (forall k st, S i < k -> stages s !! k = Some st ->
       stages s' !! k =
       Some (mkStage out false (error st) (producing_operation st))).
Proof.
  intros Hw Hsel Hp Hs Hq Hf. assert (Hn := lookup_lt _ _ _ Hw).
  destruct (action_dispatch_own R (S fuel) i combo s w p c Hw Hsel)
    as (s1 & w1 & -> & Hw1 & P1 & C1 & D1 & D2 & St1 & L1 & G1 & F1).
  rewrite <- D1 in Hs.
  rewrite (action_transform_succeeds R _ _ i s1 w1 p c out Hw1 P1 C1 Hs).
  assert (Hn1 : i < length (widgets s1)) by lia.
  assert (Hq1 : quiet_from (S i) s1).
  { intros k x Hk Hx. rewrite F1 in Hx by lia. apply (Hq k x Hk Hx). }
  assert (Hl1 : length (widgets (with_next i s1)) <= S i + S fuel)
    by (rewrite with_next_length by exact Hn1; lia).
  destruct (post_inv _ _
              (set_content_next_quiet R (field_content_changed R (S fuel))
                 (emit_action R (S fuel)) (S fuel)
                 (field_content_changed_quiet R (S fuel))
                 i out s1 Hn1 Hq1 Hl1))
    as (sb & -> & Kb & Hb).
  rewrite bind_Ok.
  assert (Hwb : sb @ i = Some w1).
  { destruct Kb as (_ & _ & P & _). rewrite P by lia.
    rewrite with_next_before by exact Hn1. exact Hw1. }
  assert (Hfw : filled w1 = _content w1) by congruence.
  destruct (post_inv _ _
              (post_and _ _ _
                 (post_and _ _ _ (action_finish_spec R fuel i sb w1 None Hwb)
                    (action_finish_behind R fuel i sb w1 None Hwb))
                 (action_finish_own R fuel i sb w1 None Hwb Hfw)))
    as (s' & -> & ((L & G & F & _ & T) & B) & w' & Hw' & St').
  pose proof Kb as (Lb & Gb & Pb & Xb).
  exists s'. split; [reflexivity |].
  split; [rewrite G, Gb, with_next_LOGGER; exact G1 |].
  assert (Ls' : length (widgets s') = Nat.max (length (widgets s)) (i + 2)).
  { rewrite L, Lb, with_next_length by exact Hn1. lia. }
  split; [rewrite !stages_length; exact Ls' |].
  split.
  { apply list_eq. intros k. destruct (decide (k < i)) as [Hk | Hk].
    - rewrite !lookup_take_lt by exact Hk. rewrite !stages_lookup.
      rewrite F, Pb by lia. rewrite with_next_before by lia.
      rewrite F1 by lia. reflexivity.
    - rewrite !lookup_take_ge by lia. reflexivity. }
  split.
  { rewrite stages_lookup, Hw'. cbn [fmap option_fmap option_map].
    rewrite St', St1. reflexivity. }
  split.
  - rewrite stages_lookup, T, P1. cbn [fmap option_fmap option_map].
    f_equal.
    destruct (Xb (S i) (follower i s1) (le_n _)
                (with_next_follower i s1 Hn1)) as (x' & Hx' & HW).
    unfold follower at 1. rewrite Hx'. cbn [default id].
    assert (Hq0 : quiet (follower i s1) = true).
    { apply (with_next_quiet i s1 Hn1 Hq1 (S i) _ (le_n _)
               (with_next_follower i s1 Hn1)). }
    destruct (quiet_true _ (Wset_quiet _ _ HW Hq0)) as [Hro _].
    rewrite (finished_stage p x' Hro Hp). f_equal.
    apply (Hb (S i) x' (le_n _) Hx').
  - intros k st Hk Hst. rewrite stages_lookup in Hst.
    destruct (s @ k) as [x |] eqn:Hx; [| discriminate].
    injection Hst as <-.
    assert (Hx1 : with_next i s1 @ k = Some x).
    { rewrite with_next_behind by exact Hk. rewrite F1 by lia. exact Hx. }
    destruct (Xb k x ltac:(lia) Hx1) as (x' & Hx' & HW).
    rewrite stages_lookup, B, Hx' by exact Hk.
    cbn [fmap option_fmap option_map]. f_equal.
    apply (passed_stage x x' out HW).
    + apply (Hq k x); [lia | exact Hx].
    + apply (Hb k x'); [lia | exact Hx'].
Qed.

(** X7. A dispatch at stage [i] of an operation that succeeds, the stages
    behind [i] being quiet (read-only, and not holding the focus together
    with a remembered operation), returns and logs nothing.  Stage [i]
    keeps its marks and holds the input of the operation.  The stage
    behind [i], which is created when [i] was the last one, holds the
    output, carries no error mark and shows the operation.  Every stage
    behind that one holds the same output as well: it is not computed
    again from its own operation, which it still shows. *)
Theorem action_succeeds R fuel i combo s w p c out :
  s @ i = Some w -> selection R combo w = Some (p, c) -> p <> "" ->
  succeeds R p c (filled w) out -> quiet_from (S i) s ->
  length (widgets s) <= i + 2 + fuel ->
  exists s',
    action R (S (S fuel)) i combo s = Ok s' /\
    LOGGER s' = LOGGER s /\
    length (stages s') = Nat.max (length (stages s)) (i + 2) /\
    take i (stages s') = take i (stages s) /\
    stages s' !! i =
      Some (mkStage (filled w) (editable (stage_of w)) (error (stage_of w))
              (producing_operation (stage_of w))) /\
    stages s' !! (S i) = Some (mkStage out false false (Some p)) /\
    (forall k st, S i < k -> stages s !! k = Some st ->
       stages s' !! k =
       Some (mkStage out false (error st) (producing_operation st))).
Proof. apply action_succeeds_cascade. Qed.

Lemma action_succeeds_witness :
  exists s',
    action with_openssl 3 0 None three_stages = Ok s' /\
    stages s' !! 1 = Some (mkStage (codes "6162") false false (Some "Hex")) /\
    stages s' !! 2 = Some (mkStage (codes "6162") false false (Some "Sum")).
Proof.
  destruct (action_succeeds with_openssl 1 0 None three_stages
              (default (DeenWidget_init false true) (three_stages @ 0))
              "Hex" encoding_combo (codes "6162"))
    as (s' & E & _ & _ & _ & _ & H1 & H2).
  - vm_compute. reflexivity.
  - vm_compute. reflexivity.
  - discriminate.
  - replace (codes "6162")
      with (encode with_openssl "Hex"
              (filled (default (DeenWidget_init false true)
                         (three_stages @ 0))))
      by (vm_compute; reflexivity).
    apply succeeds_encode; [left; reflexivity | reflexivity].
  - intros k x Hk Hx.
    destruct k as [| [| [| k]]]; [lia | | |];
      vm_compute in Hx; try discriminate;
      injection Hx as <-; vm_compute; reflexivity.
  - vm_compute. lia.
  - exists s'. split; [exact E |]. split; [exact H1 |].
    apply (H2 2 (mkStage (codes "cf") false false (Some "Sum")));
      [lia | vm_compute; reflexivity].
Defined.

(** ** Switching the view of a derived stage *)

Lemma kept_stages j d s s' :
  kept j s s' -> quiet_from j s -> holds_from j d s' ->
  LOGGER s' = LOGGER s /\
  take j (stages s') = take j (stages s) /\
  length (stages s') = length (stages s) /\
  forall k st, j <= k -> stages s !! k = Some st ->
    stages s' !! k =
    Some (mkStage d false (error st) (producing_operation st)).
Proof.
  intros (L & G & P & K) Hq Hh. split; [exact G |]. split.
  { apply list_eq. intros k. destruct (decide (k < j)) as [Hk | Hk].
    - rewrite !lookup_take_lt by exact Hk.
      rewrite !stages_lookup, P by exact Hk. reflexivity.
    - rewrite !lookup_take_ge by lia. reflexivity. }
  split; [rewrite !stages_length; exact L |].
  intros k st Hk Hst. rewrite stages_lookup in Hst.
  destruct (s @ k) as [x |] eqn:Hx; [| discriminate].
  injection Hst as <-. destruct (K k x Hk Hx) as (x' & Hx' & HW).
  rewrite stages_lookup, Hx'. cbn [fmap option_fmap option_map]. f_equal.
  apply (passed_stage x x' d HW); [apply (Hq k x Hk Hx) |].
  apply (Hh k x' Hk Hx').
Qed.

(** X8. Switching a stage that holds content to the text view sets its
    text again, and the text field reports a change.  When the stage and
    the stages behind it are quiet (read-only, and not holding the focus
    together with a remembered operation), the call returns, nothing is
    logged, the stages before it stay as they are, and the content of the
    stage is written to every stage behind it, which keeps its error mark
    and its operation. *)
Theorem view_text_passes_on R fuel j s w :
  s @ j = Some w -> _content w <> [] -> quiet_from j s ->
  length (widgets s) <= j + fuel ->
  exists s',
    handle R fuel (Check_text j) s = Ok s' /\
    LOGGER s' = LOGGER s /\
    take j (stages s') = take j (stages s) /\
    length (stages s') = length (stages s) /\
    forall k st, j <= k -> stages s !! k = Some st ->
      stages s' !! k =
      Some (mkStage (_content w) false (error st) (producing_operation st)).
Proof.
  intros Hw Hc Hq Hf. cbn [handle].
  rewrite (widget_at_Some _ _ _ Hw), bind_Ok.
  unfold view_text. cbv zeta. rewrite !modify_modify.
  rewrite (widget_at_modify _ _ _ _ Hw), bind_Ok.
  match goal with
  | |- context [match _content ?y with [] => _ | _ :: _ => _ end] =>
    replace (_content y) with (_content w)
      by (destruct w as [? ? ? [? ? ? ? ?] [? ? ? ?] ? ? ? ? ? ? ?];
          reflexivity)
  end.
  destruct (_content w) as [| b d] eqn:Ec; [congruence |].
  unfold setPlainText. rewrite modify_modify.
  match goal with
  | |- context [modify j ?g' s] => set (g := g')
  end.
  assert (HW : Wset w (g w)) by (unfold g; solve_Wq).
  assert (Hd : _content (g w) = b :: d).
  { unfold g. destruct w as [? ? ? [? ? ? ? ?] [? ? ? ?] ? ? ? ? ? ? ?].
    exact Ec. }
  destruct (post_inv _ _
              (emit_after_modify (field_content_changed R fuel) fuel
                 (field_content_changed_quiet R fuel) j g s s w (b :: d)
                 (kept_refl j s) Hq Hf Hw HW Hd))
    as (s' & E & K & H & _).
  exists s'. split; [exact E |].
  apply (kept_stages j (b :: d) s s' K Hq H).
Qed.

Lemma view_text_passes_on_witness :
  exists s',
    handle with_openssl 5 (Check_text 1) three_stages = Ok s' /\
    stages s' !! 2 = Some (mkStage (codes "6162") false false (Some "Sum")).
Proof.
  destruct (view_text_passes_on with_openssl 5 1 three_stages
              (follower 0 three_stages))
    as (s' & E & _ & _ & _ & H).
  - vm_compute. reflexivity.
  - vm_compute. discriminate.
  - intros k x Hk Hx.
    destruct k as [| [| [| k]]]; [lia | | |];
      vm_compute in Hx; try discriminate;
      injection Hx as <-; vm_compute; reflexivity.
  - vm_compute. lia.
  - exists s'. split; [exact E |].
    rewrite (H 2 (mkStage (codes "cf") false false (Some "Sum")));
      [vm_compute; reflexivity | lia | vm_compute; reflexivity].
Defined.

(** ** Two operations in a row *)

Lemma with_next_twice i s :
  i < length (widgets s) -> with_next i (with_next i s) = with_next i s.
Proof.
  intros Hn. unfold with_next at 1.
  rewrite with_next_length by exact Hn.
  destruct (Nat.eqb_spec (Nat.max (length (widgets s)) (i + 2)) (S i));
    [lia | reflexivity].
Qed.

Lemma set_content_next_with_next R emit i d s :
  i < length (widgets s) ->
  set_content_next R emit i d s = set_content_next R emit i d (with_next i s).
Proof.
  intros Hn. unfold set_content_next.
  rewrite (next_with_next i s Hn).
  rewrite (next_with_next i (with_next i s))
    by (rewrite with_next_length by exact Hn; lia).
  rewrite with_next_twice by exact Hn. reflexivity.
Qed.

Lemma combos_field_content_changed_local w :
  combos (field_content_changed_local w) = combos w.
Proof.
  unfold field_content_changed_local.
  destruct w as [? ? ? [? ro ? ? ?] ? ? hv ah ? ? ? ?].
  destruct ah, ro, hv; reflexivity.
Qed.

Lemma combos_setPlainText_local t w :
  combos (setPlainText_local t w) = combos w.
Proof.
  unfold setPlainText_local. rewrite combos_field_content_changed_local.
  destruct w. reflexivity.
Qed.

Lemma combos_hex_field_set_content_local R d w :
  combos (hex_field_set_content_local R d w) = combos w.
Proof.
  unfold hex_field_set_content_local. cbv zeta.
  destruct (hex_content_emits R);
    rewrite ?combos_field_content_changed_local; destruct w; reflexivity.
Qed.

Lemma combos_content_setter_local R d w :
  combos (content_setter_local R d w) = combos w.
Proof.
  unfold content_setter_local. cbv zeta.
  destruct (hex_view (set__content d w)).
  - rewrite combos_hex_field_set_content_local. destruct w. reflexivity.
  - rewrite combos_setPlainText_local.
    destruct (negb _); destruct w; reflexivity.
Qed.

Lemma combos_view_hex_local R w : combos (view_hex_local R w) = combos w.
Proof.
  unfold view_hex_local. cbv zeta.
  rewrite combos_hex_field_set_content_local.
  destruct w as [? ? ? ? ? c ? ? ? ? ? ?]. destruct c; reflexivity.
Qed.

Lemma combos_set_content_next_local R d w :
  combos (set_content_next_local R d w) = combos w.
Proof.
  unfold set_content_next_local. cbv zeta.
  match goal with
  | |- combos (if ?b then _ else _) = _ => destruct b
  end.
  - rewrite combos_view_hex_local.
    match goal with
    | |- combos (set_length_field ?t ?x) = _ =>
      change (combos (set_length_field t x)) with (combos x)
    end.
    rewrite combos_setPlainText_local. apply combos_content_setter_local.
  - match goal with
    | |- combos (set_length_field ?t ?x) = _ =>
      change (combos (set_length_field t x)) with (combos x)
    end.
    rewrite combos_setPlainText_local. apply combos_content_setter_local.
Qed.

Lemma text_set_content_next_local R w :
  hex_view w = false ->
  toPlainText (text_field (set_content_next_local R [] w)) = [].
Proof.
  intros Hv. unfold set_content_next_local. cbv zeta.
  destruct (content_setter_local_effect R [] w) as (V1 & E1).
  set (w1 := content_setter_local R [] w) in *.
  destruct (setPlainText_local_effect (toUnicode (_content w1)) w1)
    as (V2 & E2).
  set (w2 := setPlainText_local (toUnicode (_content w1)) w1) in *.
  assert (Hc1 : _content w1 = []) by apply E1.
  assert (Ht2 : toPlainText (text_field w2) = []).
  { destruct E2 as (_ & _ & _ & _ & _ & _ & _ & _ & -> & _).
    rewrite Hc1. reflexivity. }
  replace (hex_view (set_length_field
             ("Length: " +:+ str_of_nat (length (_content w2))) w2))
    with false
    by (symmetry; rewrite <- Hv, <- V1, <- V2; destruct w2; reflexivity).
  rewrite <- Ht2. destruct w2. reflexivity.
Qed.

Lemma derived_facts R p out :
  p <> "" ->
  stage_of (derived R p out) = mkStage out false false (Some p) /\
  filled (derived R p out) = out /\
  combos (derived R p out) = mkCombos 0 0 0 0 0 0 /\
  armed (derived R p out) = false.
Proof.
  intros Hp. unfold derived.
  destruct (set_content_next_local_effect R out (DeenWidget_init true false))
    as (Hv & Ro & Ct & St & Co & Ar & Pk & Cb).
  pose proof (combos_set_content_next_local R out
                (DeenWidget_init true false)) as Hcs.
  pose proof (text_set_content_next_local R (DeenWidget_init true false)
                eq_refl) as Htx.
  set (t := set_content_next_local R out (DeenWidget_init true false)) in *.
  assert (Hro : isReadOnly (text_field t) = true) by (rewrite Ro; reflexivity).
  split; [rewrite (finished_stage p t Hro Hp), Ct; reflexivity |].
  assert (Ht : truthy (Some p) = true)
    by (simpl; rewrite (String_eqb_false _ _ Hp); reflexivity).
  unfold action_finish_local. cbv zeta. rewrite Hro, Ht. cbn [andb].
  split; [| split].
  - unfold filled.
    replace (_content (on_text_field _ (set_codec_field _ t)))
      with (_content t) by (destruct t; reflexivity).
    replace (toPlainText (text_field (on_text_field (setStyleSheet_ "border: none;")
               (set_codec_field (mkQLabel ("Transformer: " +:+ default "" (Some p)) false) t))))
      with (toPlainText (text_field t))
      by (destruct t as [? ? ? [? ? ? ? ?] ? ? ? ? ? ? ? ?]; reflexivity).
    rewrite Ct. destruct out as [| b r]; [| reflexivity].
    unfold t. rewrite Htx. reflexivity.
  - replace (combos (on_text_field _ (set_codec_field _ t)))
      with (combos t) by (destruct t; reflexivity).
    rewrite Hcs. reflexivity.
  - replace (armed (on_text_field _ (set_codec_field _ t)))
      with (armed t)
      by (destruct t as [? ? ? [? ? ? ? ?] ? ? ? ? ? ? ? ?]; reflexivity).
    rewrite Ar. reflexivity.
Qed.

(** A dispatch at the last stage of an operation that succeeds. *)
Lemma action_succeeds_last R fuel i combo s w p c out :
  s @ i = Some w -> selection R combo w = Some (p, c) ->
  succeeds R p c (filled w) out -> length (widgets s) = S i ->
  post (action R (S (S fuel)) i combo s)
    (fun s' =>
       length (widgets s') = i + 2 /\ LOGGER s' = LOGGER s /\
       (forall k, k < i -> s' @ k = s @ k) /\
       (exists w', s' @ i = Some w' /\
          stage_of w' =
            mkStage (filled w) (editable (stage_of w)) (error (stage_of w))
              (producing_operation (stage_of w))) /\
       s' @ (S i) = Some (derived R p out)).
Proof.
  intros Hw Hsel Hs Hlen. assert (Hn := lookup_lt _ _ _ Hw).
  destruct (action_dispatch_own R (S fuel) i combo s w p c Hw Hsel)
    as (s1 & w1 & -> & Hw1 & P1 & C1 & D1 & D2 & St1 & L1 & G1 & F1).
  rewrite <- D1 in Hs.
  rewrite (action_transform_succeeds R _ _ i s1 w1 p c out Hw1 P1 C1 Hs).
  assert (Hn1 : i < length (widgets s1)) by lia.
  rewrite (set_content_next_with_next R _ i out s1 Hn1).
  assert (Hfo : with_next i s1 @ (S i) = Some (DeenWidget_init true false)).
  { rewrite with_next_follower by exact Hn1. unfold follower.
    rewrite lookup_ge_None_2 by lia. reflexivity. }
  rewrite (set_content_next_leaf R fuel i out (with_next i s1) _ Hfo);
    [| rewrite with_next_length by exact Hn1; lia | reflexivity].
  rewrite bind_Ok.
  set (sb := modify (S i) (set_content_next_local R out) (with_next i s1)).
  assert (Hwb : sb @ i = Some w1).
  { unfold sb. rewrite modify_ne by lia.
    rewrite with_next_before by exact Hn1. exact Hw1. }
  assert (Hfw : filled w1 = _content w1) by congruence.
  eapply post_weaken;
    [apply (post_and _ _ _ (action_finish_spec R fuel i sb w1 None Hwb)
              (action_finish_own R fuel i sb w1 None Hwb Hfw)) |].
  intros s' [(L & G & F & _ & T) (w' & Hw' & St')].
  assert (Lb : length (widgets sb) = i + 2).
  { unfold sb. rewrite modify_length, with_next_length by exact Hn1. lia. }
  split; [lia |].
  split; [rewrite G; unfold sb; cbn [LOGGER modify];
          rewrite with_next_LOGGER; exact G1 |].
  split.
  { intros k Hk. rewrite F by exact Hk. unfold sb.
    rewrite modify_ne by lia. rewrite with_next_before by lia.
    apply F1. lia. }
  split.
  - exists w'. split; [exact Hw' |]. rewrite St'. exact St1.
  - rewrite T, P1. unfold follower, sb. rewrite modify_eq, Hfo.
    reflexivity.
Qed.

(** Selecting entry [S k] of a combo box of the last stage, the operation
    of the entry succeeding. *)
Lemma select_succeeds_last R fuel i c k s w p out :
  s @ i = Some w -> length (widgets s) = S i ->
  currentIndex c (combos w) <> S k ->
  combo_items R c !! (S k) = Some p ->
  succeeds R p c (filled w) out ->
  post (handle R (S (S fuel)) (Select i c (S k)) s)
    (fun s' =>
       length (widgets s') = i + 2 /\ LOGGER s' = LOGGER s /\
       (forall j, j < i -> s' @ j = s @ j) /\
       (exists w', s' @ i = Some w' /\
          stage_of w' =
            mkStage (filled w) (editable (stage_of w)) (error (stage_of w))
              (producing_operation (stage_of w))) /\
       s' @ (S i) = Some (derived R p out)).
Proof.
  intros Hw Hlen Hc Hp Hs. cbn [handle].
  assert (Hk : S k < length (combo_items R c)) by (eapply lookup_lt_Some; eauto).
  replace (S k <? length (combo_items R c)) with true
    by (symmetry; apply Nat.ltb_lt; exact Hk).
  cbn [Nat.eqb orb negb]. unfold setCurrentIndex.
  rewrite (widget_at_Some _ _ _ Hw), bind_Ok.
  replace (currentIndex c (combos w) =? S k) with false
    by (symmetry; apply Nat.eqb_neq; exact Hc).
  set (g := fun x => set_combos (with_index c (S k) (combos x)) x).
  assert (Hg : modify i g s @ i = Some (g w))
    by (rewrite modify_eq, Hw; reflexivity).
  assert (Hci : currentIndex c (combos (g w)) = S k)
    by (unfold g; destruct w, c; reflexivity).
  assert (Hf : filled (g w) = filled w) by (destruct w; reflexivity).
  assert (Hst : stage_of (g w) = stage_of w) by (destruct w; reflexivity).
  assert (Hsel : selection R (Some c) (g w) = Some (p, c)).
  { unfold selection, currentText. rewrite Hci, Hp. reflexivity. }
  unfold emit_action. eapply post_weaken.
  - apply (action_succeeds_last R fuel i (Some c) (modify i g s) (g w) p c out
             Hg Hsel).
    + rewrite Hf. exact Hs.
    + rewrite modify_length. exact Hlen.
  - intros s' (L & G & F & (w' & Hw' & St') & T).
    split; [exact L |]. split; [exact G |].
    split; [intros j Hj; rewrite F by exact Hj; apply modify_ne; lia |].
    split; [| exact T].
    exists w'. split; [exact Hw' |]. rewrite St', Hf, Hst. reflexivity.
Qed.

(** X9. On the last stage of a chain, select an encoding and then, on the
    stage this creates, the decoding of the same name.  When the decoder
    returns the input of the encoder without an error, both selections
    return and log nothing, and the chain has two more stages: the encoded
    data, and the data of the stage the chain ended with. *)
Theorem encode_then_decode R fuel i k s w p :
  s @ i = Some w -> length (widgets s) = S i ->
  currentIndex encoding_combo (combos w) <> S k ->
  ENCODINGS R !! k = Some p -> p <> "" ->
  decode R p (encode R p (filled w)) = (filled w, None) ->
  exists s1 s2,
    handle R (S (S fuel)) (Select i encoding_combo (S k)) s = Ok s1 /\
    handle R (S (S fuel)) (Select (S i) decoding_combo (S k)) s1 = Ok s2 /\
    LOGGER s2 = LOGGER s /\
    stages s2 =
      (take i (stages s) ++
       [mkStage (filled w) (editable (stage_of w)) (error (stage_of w))
          (producing_operation (stage_of w));
        mkStage (encode R p (filled w)) false false (Some p);
        mkStage (filled w) false false (Some p)])%list.
Proof.
  intros Hw Hlen Hc Hk Hp Hd.
  assert (Hin : In p (ENCODINGS R)).
  { apply list_elem_of_In. eapply list_elem_of_lookup_2; eauto. }
  destruct (derived_facts R p (encode R p (filled w)) Hp)
    as (St1 & Fl1 & Co1 & _).
  destruct (post_inv _ _
              (select_succeeds_last R fuel i encoding_combo k s w p
                 (encode R p (filled w)) Hw Hlen Hc Hk
                 (succeeds_encode R p encoding_combo (filled w) Hin eq_refl)))
    as (s1 & E1 & L1 & G1 & F1 & (w1 & Hw1 & Sw1) & T1).
  assert (Hc1 : currentIndex decoding_combo
                  (combos (derived R p (encode R p (filled w)))) <> S k)
    by (rewrite Co1; discriminate).
  assert (Hs2 : succeeds R p decoding_combo
                  (filled (derived R p (encode R p (filled w)))) (filled w)).
  { apply succeeds_decode; [exact Hin | discriminate |].
    rewrite Fl1. exact Hd. }
  destruct (post_inv _ _
              (select_succeeds_last R fuel (S i) decoding_combo k s1 _ p
                 (filled w) T1 ltac:(lia) Hc1 Hk Hs2))
    as (s2 & E2 & L2 & G2 & F2 & (w2 & Hw2 & Sw2) & T2).
  destruct (derived_facts R p (filled w) Hp) as (St2 & _).
  exists s1, s2. split; [exact E1 |]. split; [exact E2 |].
  split; [congruence |].
  assert (Hli : length (stages s) = S i)
    by (unfold stages; rewrite length_map; exact Hlen).
  apply list_eq. intros j. unfold stages at 1. rewrite list_lookup_fmap.
  destruct (Nat.lt_ge_cases j i) as [Hj | Hj].
  - rewrite lookup_app_l by (rewrite length_take; lia).
    rewrite lookup_take_lt by exact Hj.
    rewrite F2 by lia. rewrite F1 by exact Hj.
    unfold stages. rewrite list_lookup_fmap. reflexivity.
  - rewrite lookup_app_r by (rewrite length_take; lia).
    rewrite length_take, Hli.
    replace (j - i `min` S i) with (j - i) by lia.
    destruct (j - i) as [| [| [| d]]] eqn:Ej.
    + assert (j = i) as -> by lia. rewrite F2 by lia. rewrite Hw1.
      cbn [fmap option_fmap option_map lookup list_lookup]. rewrite Sw1.
      reflexivity.
    + assert (j = S i) as -> by lia. rewrite Hw2.
      cbn [fmap option_fmap option_map lookup list_lookup].
      rewrite Sw2, Fl1, St1. reflexivity.
    + assert (j = S (S i)) as -> by lia. rewrite T2.
      cbn [fmap option_fmap option_map lookup list_lookup].
      rewrite St2. reflexivity.
    + rewrite lookup_ge_None_2 by lia. reflexivity.
Qed.

Lemma encode_then_decode_witness :
  exists s1 s2,
    handle with_openssl 2 (Select 0 encoding_combo 1) typed_ab = Ok s1 /\
    handle with_openssl 2 (Select 1 decoding_combo 1) s1 = Ok s2 /\
    stages s2 =
      [mkStage (codes "ab") true false None;
       mkStage (codes "6162") false false (Some "Hex");
       mkStage (codes "ab") false false (Some "Hex")].
Proof.
  destruct (encode_then_decode with_openssl 0 0 0 typed_ab
              (default (DeenWidget_init false true) (typed_ab @ 0)) "Hex")
    as (s1 & s2 & E1 & E2 & _ & St).
  - vm_compute. reflexivity.
  - vm_compute. reflexivity.
  - vm_compute. discriminate.
  - vm_compute. reflexivity.
  - discriminate.
  - vm_compute. reflexivity.
  - exists s1, s2. split; [exact E1 |]. split; [exact E2 |].
    rewrite St. vm_compute. reflexivity.
Defined.

(** ** Loading content into the root *)

(** X10. [set_root_content] with printable bytes, on a root that shows
    text, can be edited and does not dispatch: the call returns, logs
    nothing, and the bytes come back as the content of the root, read from
    the text that the codec made of them.  The stage behind the root stays
    as it is, the stages behind that one are removed. *)
Theorem set_root_content_printable R fuel s w data :
  s @ 0 = Some w -> isReadOnly (text_field w) = false ->
  hex_view w = false -> armed w = false ->
  data <> [] -> all_printable data = true ->
  exists s',
    handle R (S fuel) (Set_root_content data) s = Ok s' /\
    LOGGER s' = LOGGER s /\
    stages s' =
      <[0 := mkStage data true (error (stage_of w))
               (producing_operation (stage_of w))]>
        (take 2 (stages s)).
Proof.
  intros Hw Hro Hv Ha Hd Hp. assert (Hn := lookup_lt _ _ _ Hw).
  assert (Hwt : truncate 2 s @ 0 = Some w)
    by (rewrite truncate_lookup by lia; exact Hw).
  cbn [handle]. unfold set_root_content, set_root_content_step.
  destruct data as [| b d]; [congruence |].
  unfold content_setter. cbv zeta.
  rewrite (widget_at_modify _ _ _ _ Hw), bind_Ok.
  replace (hex_view (set__content (b :: d) w)) with (hex_view w)
    by (destruct w; reflexivity).
  replace (_content (set__content (b :: d) w)) with (b :: d)
    by (destruct w; reflexivity).
  rewrite Hv, Hp. cbn [negb]. unfold setPlainText. rewrite modify_modify.
  set (g := fun x =>
              on_text_field (setPlainText_ (toUnicode (b :: d)))
                (set__content (b :: d) x)).
  rewrite (field_content_changed_editable_eq R fuel 0 _ (g w)).
  - eexists. split; [reflexivity |]. split; [reflexivity |].
    rewrite truncate_modify, modify_modify.
    rewrite (stages_modify 0 _ _ w Hwt), stages_truncate. f_equal.
    change (field_content_changed_local (g w))
      with (setPlainText_local (toUnicode (b :: d))
              (set__content (b :: d) w)).
    destruct (setPlainText_local_effect (toUnicode (b :: d))
                (set__content (b :: d) w)) as [_ He].
    rewrite (edited_stage _ _ _ _ _ _ He).
    replace (isReadOnly (text_field (set__content (b :: d) w)))
      with false by (rewrite <- Hro; destruct w; reflexivity).
    replace (hex_view (set__content (b :: d) w)) with false
      by (rewrite <- Hv; destruct w; reflexivity).
    rewrite (utf8_toUnicode_printable _ Hp).
    destruct w; reflexivity.
  - rewrite modify_eq, Hw. reflexivity.
  - rewrite <- Hro. unfold g.
    destruct w as [? ? ? [? ? ? ? ?] ? ? ? ? ? ? ? ?]. reflexivity.
  - rewrite <- Ha. unfold g.
    destruct w as [? ? ? [? ? ? ? ?] ? ? ? ? ? ? ? ?]. reflexivity.
Qed.

Lemma set_root_content_printable_witness :
  exists s',
    handle with_openssl 1 (Set_root_content (codes "xyz")) three_stages
      = Ok s' /\
    stages s' =
      [mkStage (codes "xyz") true false None;
       mkStage (codes "6162") false false (Some "Hex")].
Proof.
  destruct (set_root_content_printable with_openssl 0 three_stages
              (default (DeenWidget_init false true) (three_stages @ 0))
              (codes "xyz"))
    as (s' & E & _ & St).
  - vm_compute. reflexivity.
  - vm_compute. reflexivity.
  - vm_compute. reflexivity.
  - vm_compute. reflexivity.
  - discriminate.
  - vm_compute. reflexivity.
  - exists s'. split; [exact E |]. rewrite St. vm_compute. reflexivity.
Defined.

(** X11. [set_root_content] on a root that shows text and does not
    dispatch, with bytes that are not all printable or on a root that is
    read-only already, the stages behind the root being quiet: the call
    returns and logs nothing, the root is read-only, and the bytes are the
    content of the root and of every stage behind it, each of which keeps
    its error mark and its operation. *)
Theorem set_root_content_passes_on R fuel s w data :
  s @ 0 = Some w -> hex_view w = false -> armed w = false ->
  quiet_from 1 s ->
  isReadOnly (text_field w) = true \/ all_printable data = false ->
  data <> [] -> length (widgets s) <= fuel ->
  exists s',
    handle R fuel (Set_root_content data) s = Ok s' /\
    LOGGER s' = LOGGER s /\
    length (stages s') = length (stages s) /\
    forall k st, stages s !! k = Some st ->
      stages s' !! k =
      Some (mkStage data false (error st) (producing_operation st)).
Proof.
  intros Hw Hv Ha Hq Hc Hd Hf. assert (Hn := lookup_lt _ _ _ Hw).
  cbn [handle]. unfold set_root_content, set_root_content_step.
  destruct data as [| b d]; [congruence |].
  unfold content_setter. cbv zeta.
  rewrite (widget_at_modify _ _ _ _ Hw), bind_Ok.
  replace (hex_view (set__content (b :: d) w)) with (hex_view w)
    by (destruct w; reflexivity).
  replace (_content (set__content (b :: d) w)) with (b :: d)
    by (destruct w; reflexivity).
  rewrite Hv. unfold setPlainText.
  set (ro := on_text_field (setReadOnly_ true)).
  set (g := fun x =>
              on_text_field (setPlainText_ (toUnicode (b :: d)))
                (ro (set__content (b :: d) x))).
  set (s0 := modify 0 ro s).
  assert (Hw0 : s0 @ 0 = Some (ro w))
    by (unfold s0; rewrite modify_eq, Hw; reflexivity).
  match goal with
  | |- context [field_content_changed R fuel 0 ?t] =>
    assert (Et : t = modify 0 g s0)
  end.
  { unfold s0. rewrite modify_modify.
    destruct (all_printable (b :: d)) eqn:Ep; cbn [negb];
      rewrite ?modify_modify; apply (modify_ext 0 _ _ s w Hw); unfold g, ro.
    - destruct Hc as [Hro | ?]; [| discriminate].
      destruct w as [? ? ? [? ? ? ? ?] ? ? ? ? ? ? ? ?]. cbn in *.
      subst. reflexivity.
    - destruct w as [? ? ? [? ? ? ? ?] ? ? ? ? ? ? ? ?]. reflexivity. }
  rewrite Et. clear Et.
  assert (Hq0 : quiet_from 0 s0).
  { intros k x _ Hx. destruct k as [| k].
    - rewrite Hw0 in Hx. injection Hx as <-. unfold quiet.
      replace (armed (ro w)) with (armed w)
        by (unfold ro; destruct w as [? ? ? [? ? ? ? ?] ? ? ? ? ? ? ? ?];
            reflexivity).
      rewrite Ha. unfold ro.
      destruct w as [? ? ? [? ? ? ? ?] ? ? ? ? ? ? ? ?]. reflexivity.
    - unfold s0 in Hx. rewrite modify_ne in Hx by lia.
      apply (Hq (S k) x); [lia | exact Hx]. }
  assert (Hl0 : length (widgets s0) <= 0 + fuel)
    by (unfold s0; rewrite modify_length; exact Hf).
  assert (HW : Wset (ro w) (g (ro w))) by (unfold g, ro; solve_Wq).
  assert (Hg : _content (g (ro w)) = b :: d)
    by (unfold g, ro; destruct w as [? ? ? [? ? ? ? ?] ? ? ? ? ? ? ? ?];
        reflexivity).
  destruct (post_inv _ _
              (emit_after_modify (field_content_changed R fuel) fuel
                 (field_content_changed_quiet R fuel) 0 g s0 s0 (ro w)
                 (b :: d) (kept_refl 0 s0) Hq0 Hl0 Hw0 HW Hg))
    as (s' & E & K & H & _).
  exists s'. split; [exact E |].
  destruct (kept_stages 0 (b :: d) s0 s' K Hq0 H) as (G & _ & L & F).
  split; [rewrite G; reflexivity |].
  assert (Hst : stages s0 =
                <[0 := mkStage (_content w) false (error (stage_of w))
                         (producing_operation (stage_of w))]> (stages s)).
  { unfold s0. rewrite (stages_modify 0 ro s w Hw). reflexivity. }
  split; [rewrite L, Hst, length_insert; reflexivity |].
  intros k st Hk. destruct k as [| k].
  - rewrite stages_lookup, Hw in Hk. injection Hk as <-.
    rewrite (F 0 (mkStage (_content w) false (error (stage_of w))
                    (producing_operation (stage_of w)))); [reflexivity | lia |].
    rewrite Hst. apply list_lookup_insert_eq. rewrite stages_length. exact Hn.
  - apply F; [lia |]. rewrite Hst, list_lookup_insert_ne by lia. exact Hk.
Qed.

Lemma set_root_content_passes_on_witness :
  exists s',
    handle with_openssl 5 (Set_root_content [0%Z]) three_stages = Ok s' /\
    stages s' =
      [mkStage [0%Z] false false None;
       mkStage [0%Z] false false (Some "Hex");
       mkStage [0%Z] false false (Some "Sum")].
Proof.
  destruct (set_root_content_passes_on with_openssl 5 three_stages
              (default (DeenWidget_init false true) (three_stages @ 0))
              [0%Z])
    as (s' & E & _ & L & H).
  - vm_compute. reflexivity.
  - vm_compute. reflexivity.
  - vm_compute. reflexivity.
  - intros k x Hk Hx.
    destruct k as [| [| [| k]]]; [lia | | |];
      vm_compute in Hx; try discriminate;
      injection Hx as <-; vm_compute; reflexivity.
  - right. vm_compute. reflexivity.
  - discriminate.
  - vm_compute. lia.
  - exists s'. split; [exact E |].
    apply list_eq. intros k.
    destruct k as [| [| [| k]]].
    + rewrite (H 0 (mkStage (codes "ab") true false None));
        [reflexivity | vm_compute; reflexivity].
    + rewrite (H 1 (mkStage (codes "6162") false false (Some "Hex")));
        [reflexivity | vm_compute; reflexivity].
    + rewrite (H 2 (mkStage (codes "cf") false false (Some "Sum")));
        [reflexivity | vm_compute; reflexivity].
    + rewrite lookup_ge_None_2; [reflexivity |].
      rewrite L. vm_compute. lia.
Defined.

(** ** Switching the view of a stage that can be edited *)

(** X12. Switching a stage that can be edited and does not dispatch to the
    text view, its content being printable: the call returns and logs
    nothing.  When the stage holds content, its text is set from it and
    read back, which leaves the content as it is but removes the stages
    behind the follower of the stage; when it holds none, the chain stays
    as it is. *)
Theorem view_text_editable R fuel i s w :
  s @ i = Some w -> isReadOnly (text_field w) = false -> armed w = false ->
  all_printable (_content w) = true ->
  exists s',
    handle R (S fuel) (Check_text i) s = Ok s' /\
    LOGGER s' = LOGGER s /\
    stages s' =
      match _content w with
      | [] => stages s
      | _ => take (i + 2) (stages s)
      end.
Proof.
  intros Hw Hro Ha Hp. assert (Hn := lookup_lt _ _ _ Hw).
  assert (Hwt : truncate (i + 2) s @ i = Some w)
    by (rewrite truncate_lookup by lia; exact Hw).
  cbn [handle]. rewrite (widget_at_Some _ _ _ Hw), bind_Ok.
  unfold view_text. cbv zeta. rewrite !modify_modify.
  rewrite (widget_at_modify _ _ _ _ Hw), bind_Ok.
  match goal with
  | |- context [match _content ?y with [] => _ | _ :: _ => _ end] =>
    replace (_content y) with (_content w)
      by (destruct w as [? ? ? [? ? ? ? ?] [? ? ? ?] ? ? ? ? ? ? ?];
          reflexivity)
  end.
  destruct (_content w) as [| b d] eqn:Ec.
  - eexists. split; [reflexivity |]. split; [reflexivity |].
    rewrite (stages_modify i _ _ w Hw).
    apply list_insert_id. rewrite stages_lookup, Hw.
    reflexivity.
  - unfold setPlainText. rewrite modify_modify.
    match goal with
    | |- context [modify i ?g' s] => set (g := g')
    end.
    set (h := fun x =>
                on_hex_field (hex_setHidden_ true)
                  (on_text_field (text_setHidden_ false)
                     (set_hex_view false x))).
    assert (Hg : g w =
                 on_text_field (setPlainText_ (toUnicode (b :: d))) (h w))
      by reflexivity.
    assert (Hs : stage_of (h w) = stage_of w)
      by (destruct w as [? ? ? [? ? ? ? ?] [? ? ? ?] ? ? ? ? ? ? ?];
          reflexivity).
    rewrite (field_content_changed_editable_eq R fuel i _ (g w)).
    + eexists. split; [reflexivity |]. split; [reflexivity |].
      rewrite truncate_modify, modify_modify.
      rewrite (stages_modify i _ _ w Hwt), stages_truncate.
      apply list_insert_id.
      rewrite lookup_take_lt by lia. rewrite stages_lookup, Hw.
      cbn [fmap option_fmap option_map]. f_equal. rewrite Hg.
      change (field_content_changed_local
                (on_text_field (setPlainText_ (toUnicode (b :: d))) (h w)))
        with (setPlainText_local (toUnicode (b :: d)) (h w)).
      destruct (setPlainText_local_effect (toUnicode (b :: d)) (h w))
        as [_ He].
      rewrite (edited_stage _ _ _ _ _ _ He), Hs.
      replace (isReadOnly (text_field (h w))) with false
        by (rewrite <- Hro;
            destruct w as [? ? ? [? ? ? ? ?] [? ? ? ?] ? ? ? ? ? ? ?];
            reflexivity).
      replace (hex_view (h w)) with false
        by (destruct w as [? ? ? [? ? ? ? ?] [? ? ? ?] ? ? ? ? ? ? ?];
            reflexivity).
      rewrite (utf8_toUnicode_printable _ Hp).
      unfold stage_of. rewrite Ec, Hro. reflexivity.
    + rewrite modify_eq, Hw. reflexivity.
    + rewrite <- Hro. unfold g.
      destruct w as [? ? ? [? ? ? ? ?] [? ? ? ?] ? ? ? ? ? ? ?].
      reflexivity.
    + rewrite <- Ha. unfold g.
      destruct w as [? ? ? [? ? ? ? ?] [? ? ? ?] ? ? ? ? ? ? ?].
      reflexivity.
Qed.

Lemma view_text_editable_witness :
  exists s',
    handle with_openssl 1 (Check_text 0) three_stages = Ok s' /\
    stages s' =
      [mkStage (codes "ab") true false None;
       mkStage (codes "6162") false false (Some "Hex")].
Proof.
  destruct (view_text_editable with_openssl 0 0 three_stages
              (default (DeenWidget_init false true) (three_stages @ 0)))
    as (s' & E & _ & St).
  - vm_compute. reflexivity.
  - vm_compute. reflexivity.
  - vm_compute. reflexivity.
  - vm_compute. reflexivity.
  - exists s'. split; [exact E |]. rewrite St. vm_compute. reflexivity.
Defined.

(** X13. Switching a stage that can be edited and does not dispatch to the
    hex view: the call returns and logs nothing, and the content of the
    stage is its buffer, or the UTF-8 bytes of its text when the buffer is
    empty.  When the assignment to the hex field reports a change, the
    stages behind the follower of the stage are removed. *)
Theorem view_hex_editable R fuel i s w :
  s @ i = Some w -> isReadOnly (text_field w) = false -> armed w = false ->
  exists s',
    handle R (S fuel) (Check_hex i) s = Ok s' /\
    LOGGER s' = LOGGER s /\
    stages s' =
      <[i := mkStage (filled w) true (error (stage_of w))
               (producing_operation (stage_of w))]>
        (if hex_content_emits R then take (i + 2) (stages s) else stages s).
Proof.
  intros Hw Hro Ha. assert (Hn := lookup_lt _ _ _ Hw).
  assert (Hwt : truncate (i + 2) s @ i = Some w)
    by (rewrite truncate_lookup by lia; exact Hw).
  assert (Hmain : forall g : DeenWidget -> DeenWidget,
             isReadOnly (text_field (g w)) = false -> armed (g w) = false ->
             hex_view (g w) = true ->
             hex_content (hex_field (g w)) = filled w ->
             stage_of (g w) =
               mkStage (filled w) true (error (stage_of w))
                 (producing_operation (stage_of w)) ->
             exists s',
               (if hex_content_emits R
                then field_content_changed R (S fuel) i (modify i g s)
                else Ok (modify i g s)) = Ok s' /\
               LOGGER s' = LOGGER s /\
               stages s' =
                 <[i := mkStage (filled w) true (error (stage_of w))
                          (producing_operation (stage_of w))]>
                   (if hex_content_emits R then take (i + 2) (stages s)
                    else stages s)).
  { intros g Hro' Ha' Hv' Hh' Hs. destruct (hex_content_emits R).
    - rewrite (field_content_changed_editable_eq R fuel i _ (g w));
        [| rewrite modify_eq, Hw; reflexivity | exact Hro' | exact Ha'].
      eexists. split; [reflexivity |]. split; [reflexivity |].
      rewrite truncate_modify, modify_modify.
      rewrite (stages_modify i _ _ w Hwt), stages_truncate. f_equal.
      destruct (field_content_changed_local_effect (g w)) as [_ He].
      rewrite (edited_stage _ _ _ _ _ _ He), Hro', Hv', Hh', Hs.
      reflexivity.
    - eexists. split; [reflexivity |]. split; [reflexivity |].
      rewrite (stages_modify i _ _ w Hw), Hs. reflexivity. }
  cbn [handle]. rewrite (widget_at_Some _ _ _ Hw), bind_Ok.
  unfold view_hex. cbv zeta. rewrite !modify_modify.
  rewrite (widget_at_modify _ _ _ _ Hw), bind_Ok.
  match goal with
  | |- context [match _content ?y with [] => _ | _ :: _ => _ end] =>
    replace (_content y) with (_content w)
      by (destruct w as [? ? ? [? ? ? ? ?] [? ? ? ?] ? ? ? ? ? ? ?];
          reflexivity)
  end.
  destruct (_content w) as [| b d] eqn:Ec;
    rewrite ?modify_modify; rewrite (widget_at_modify _ _ _ _ Hw), bind_Ok;
    unfold hex_field_set_content; cbv zeta; rewrite modify_modify;
    match goal with
    | |- context [modify i ?g' s] => apply (Hmain g')
    end;
    unfold stage_of, filled, armed, focused in *;
    destruct w as [? ? ? [? ? ? ? ?] [? ? ? ?] ? ? ? ? ? ? ?];
    cbn -[utf8] in *; subst; first [reflexivity | assumption].
Qed.

Lemma view_hex_editable_witness :
  exists s',
    handle with_openssl 1 (Check_hex 0) three_stages = Ok s' /\
    stages s' =
      [mkStage (codes "ab") true false None;
       mkStage (codes "6162") false false (Some "Hex")].
Proof.
  destruct (view_hex_editable with_openssl 0 0 three_stages
              (default (DeenWidget_init false true) (three_stages @ 0)))
    as (s' & E & _ & St).
  - vm_compute. reflexivity.
  - vm_compute. reflexivity.
  - vm_compute. reflexivity.
  - exists s'. split; [exact E |]. rewrite St. vm_compute. reflexivity.
Defined.

(** ** Searching *)

Lemma search_highlight_loop_merged ms c a p :
  merged (search_highlight_loop ms c) a p =
  map (fun m => (capturedStart m, capturedEnd m)) (take (151 - c) ms).
Proof.
  revert c a p. induction ms as [| m ms IH]; intros c a p.
  - rewrite take_nil. reflexivity.
  - cbn [search_highlight_loop].
    destruct (Nat.ltb_spec 150 c) as [Hc | Hc].
    + replace (151 - c) with 0 by lia. reflexivity.
    + replace (151 - c) with (S (151 - (c + 1))) by lia.
      cbn [app merged firstn take map]. rewrite IH. reflexivity.
Qed.

Lemma search_highlight_loop_values ms c :
  progress_values (search_highlight_loop ms c) =
  seq c (Nat.min (151 - c) (length ms)).
Proof.
  revert c. induction ms as [| m ms IH]; intros c.
  - rewrite Nat.min_0_r. reflexivity.
  - cbn [search_highlight_loop].
    destruct (Nat.ltb_spec 150 c) as [Hc | Hc].
    + replace (151 - c) with 0 by lia. reflexivity.
    + replace (151 - c) with (S (151 - (c + 1))) by lia.
      cbn [length Nat.min seq app]. unfold progress_values in *.
      cbn [omap list_omap]. rewrite IH.
      replace (c + 1) with (S c) by lia. reflexivity.
Qed.

(** X14. [search_highlight] stores every match and shows their number in
    the match label, but gives a yellow background to the first 150 only,
    in their order; the progress bar counts from 1 up to the number of
    matches, 150 at most, and it is shown when there are more than 100
    matches (it is never hidden). *)
Theorem search_highlight_first_150 globalMatch pattern w anchor position :
  let found := globalMatch pattern (toPlainText (text_field w)) in
  let calls := snd (search_highlight globalMatch pattern w) in
  fst (search_highlight globalMatch pattern w) = found /\
  merged calls anchor position =
    map (fun m => (capturedStart m, capturedEnd m)) (take 150 found) /\
  progress_values calls = seq 1 (Nat.min 150 (length found)) /\
  In (search_field_matches_setText
        ("Matches: " +:+ str_of_nat (length found))) calls /\
  (In search_field_progress_show calls <-> 100 < length found).
Proof.
  cbv zeta. unfold search_highlight. cbn [fst snd].
  set (found := globalMatch pattern (toPlainText (text_field w))).
  split; [reflexivity |].
  assert (Hloop : forall c,
             ~ In search_field_progress_show (search_highlight_loop found c)).
  { induction found as [| m ms IH]; intros c; [intros [] |].
    cbn [search_highlight_loop]. destruct (150 <? c); [intros [] |].
    cbn [app In]. intros [H | [H | [H | [H | H]]]]; try discriminate.
    exact (IH _ H). }
  split.
  { destruct (100 <? length found); cbn [app merged];
      apply (search_highlight_loop_merged found 1). }
  split.
  { unfold progress_values.
    destruct (100 <? length found); cbn [app omap list_omap];
      apply (search_highlight_loop_values found 1). }
  split; [right; left; reflexivity |].
  destruct (Nat.ltb_spec 100 (length found)) as [Hl | Hl]; cbn [app In].
  - split; [intros _; exact Hl |].
    intros _. do 4 right. left. reflexivity.
  - split; [| lia].
    intros [H | [H | [H | [H | H]]]]; try discriminate.
    destruct (Hloop 1 H).
Qed.

(** ** What a call leaves alone *)

Lemma wp_Ok {A} (a : A) (P : A -> Prop) : P a -> wp (Ok a) P.
Proof. intros H x E. injection E as <-. exact H. Qed.

Lemma wp_bind {A B} (m : result A) (f : A -> result B) (P : B -> Prop) :
  wp m (fun a => wp (f a) P) -> wp (m ≫= f) P.
Proof.
  intros H b E. destruct (bind_Ok_inv _ _ _ E) as (a & Ea & Eb).
  exact (H a Ea b Eb).
Qed.

Lemma wp_weaken {A} (m : result A) (P Q : A -> Prop) :
  wp m P -> (forall a, P a -> Q a) -> wp m Q.
Proof. intros H HPQ a E. apply HPQ, (H a E). Qed.

Lemma wp_widget_at n s (P : DeenWidget -> Prop) :
  (forall w, s @ n = Some w -> P w) -> wp (widget_at n s) P.
Proof. intros H w E. apply H, widget_at_Ok, E. Qed.

Lemma bind_wp_ext {A B} (m : result A) (f g : A -> result B) :
  wp m (fun a => f a = g a) -> m ≫= f = m ≫= g.
Proof. destruct m as [a | |]; intros H; [apply (H a eq_refl) | reflexivity ..]. Qed.

Lemma set_back_refl w : set_back w w.
Proof. intros c. left. reflexivity. Qed.

Lemma set_back_trans w w' w'' :
  set_back w w' -> set_back w' w'' -> set_back w w''.
Proof.
  intros H1 H2 c. destruct (H2 c) as [E2 | E2]; [| right; exact E2].
  rewrite E2. apply H1.
Qed.

Lemma set_back_placeholders w w' :
  placeholders w -> set_back w w' -> placeholders w'.
Proof. intros H1 H2 c. destruct (H2 c) as [E | E]; [rewrite E; apply H1 | exact E]. Qed.

Lemma set_back_combos w w' : combos w' = combos w -> set_back w w'.
Proof. intros E c. left. rewrite E. reflexivity. Qed.

Lemma onward_refl n s : onward n s s.
Proof.
  split; [reflexivity |]. intros k w' _ H. right. exists w'.
  split; [exact H | apply set_back_refl].
Qed.

Lemma onward_trans n s s' s'' :
  onward n s s' -> onward n s' s'' -> onward n s s''.
Proof.
  intros [P1 Q1] [P2 Q2]. split.
  - intros k Hk. rewrite P2, P1 by exact Hk. reflexivity.
  - intros k w'' Hk H.
    destruct (Q2 k w'' Hk H) as [Z | (w' & Hw' & B2)]; [left; exact Z |].
    destruct (Q1 k w' Hk Hw') as [Z | (w & Hw & B1)].
    + left. eapply set_back_placeholders; eauto.
    + right. exists w. split; [exact Hw | eapply set_back_trans; eauto].
Qed.

Lemma onward_le m n s s' : m <= n -> onward n s s' -> onward m s s'.
Proof.
  intros Hmn [P Q]. split.
  - intros k Hk. apply P. lia.
  - intros k w' Hk H. destruct (decide (k < n)) as [Hlt | Hge].
    + right. exists w'. rewrite <- (P k Hlt).
      split; [exact H | apply set_back_refl].
    + apply (Q k w'); [lia | exact H].
Qed.

Lemma onward_modify n k g s :
  n <= k -> (forall w, set_back w (g w)) -> onward n s (modify k g s).
Proof.
  intros Hk Hg. split.
  - intros j Hj. apply modify_ne. lia.
  - intros j w' _ H. right. destruct (decide (k = j)) as [<- | Hne].
    + rewrite modify_eq in H. destruct (s @ k) as [w |]; [| discriminate].
      injection H as <-. exists w. split; [reflexivity | apply Hg].
    + rewrite modify_ne in H by exact Hne. exists w'.
      split; [exact H | apply set_back_refl].
Qed.

Lemma onward_widgets n s s' :
  widgets s' = widgets s -> onward n s s'.
Proof.
  intros E. split; [intros; rewrite E; reflexivity |].
  intros k w' _ H. rewrite E in H. right. exists w'.
  split; [exact H | apply set_back_refl].
Qed.

Lemma onward_take n j s g :
  n <= j -> onward n s (mkEncoderWidget (take j (widgets s)) g).
Proof.
  intros Hj. split.
  - intros k Hk. cbn [widgets]. apply lookup_take_lt. lia.
  - intros k w' _ H. cbn [widgets] in H. right. exists w'.
    split; [| apply set_back_refl].
    destruct (decide (k < j)) as [Hlt | Hge].
    + rewrite lookup_take_lt in H by exact Hlt. exact H.
    + rewrite lookup_take_ge in H by lia. discriminate.
Qed.

Lemma placeholders_init ro ea : placeholders (DeenWidget_init ro ea).
Proof. intros []; reflexivity. Qed.

Lemma onward_with_next n s :
  n < length (widgets s) -> onward (S n) s (with_next n s).
Proof.
  intros Hn. unfold with_next.
  destruct (Nat.eqb_spec (length (widgets s)) (S n)) as [E | E];
    [| apply onward_refl].
  split.
  - intros k Hk. unfold appended. cbn [widgets]. apply lookup_app_l. lia.
  - intros k w' Hk H. unfold appended in H. cbn [widgets] in H.
    rewrite lookup_app_r in H by lia.
    destruct (k - length (widgets s)) as [| d]; [| destruct d; discriminate].
    injection H as <-. left. apply placeholders_init.
Qed.

Lemma since_refl n s : n < length (widgets s) -> since n s s.
Proof. intros H. split; [exact H |]. split; [exact H | apply onward_refl]. Qed.

Lemma since_trans n s s' s'' : since n s s' -> since n s' s'' -> since n s s''.
Proof.
  intros (L1 & _ & O1) (_ & L2 & O2).
  split; [exact L1 |]. split; [exact L2 | eapply onward_trans; eauto].
Qed.

Lemma since_modify n g s :
  n < length (widgets s) -> (forall w, combos (g w) = combos w) ->
  since n s (modify n g s).
Proof.
  intros H Hg. split; [exact H |]. split; [rewrite modify_length; exact H |].
  apply onward_modify; [lia |]. intros w. apply set_back_combos, Hg.
Qed.

Lemma behind_since n s s' :
  n < length (widgets s) -> behind n s s' -> since n s s'.
Proof.
  intros Hn [L O]. split; [exact Hn |]. split; [lia |].
  apply (onward_le n (S n)); [lia | exact O].
Qed.

Lemma since_behind n s s' s'' :
  behind n s s' -> since (S n) s' s'' -> behind n s s''.
Proof.
  intros [L1 O1] (_ & L2 & O2). split; [exact L2 |].
  eapply onward_trans; eauto.
Qed.

Lemma behind_trans n s s' s'' :
  behind n s s' -> behind n s' s'' -> behind n s s''.
Proof.
  intros [L1 O1] [L2 O2]. split; [exact L2 | eapply onward_trans; eauto].
Qed.

Lemma behind_with_next n s :
  n < length (widgets s) -> behind n s (with_next n s).
Proof.
  intros Hn. split; [rewrite with_next_length by exact Hn; lia |].
  apply onward_with_next, Hn.
Qed.

Lemma behind_modify n g s s' :
  behind n s s' -> (forall w, combos (g w) = combos w) ->
  behind n s (modify (S n) g s').
Proof.
  intros [L O] Hg. split; [rewrite modify_length; exact L |].
  eapply onward_trans; [exact O |].
  apply onward_modify; [lia |]. intros w. apply set_back_combos, Hg.
Qed.

Lemma behind_same n s s' k :
  behind n s s' -> k <= n -> s' @ k = s @ k.
Proof. intros [_ [P _]] Hk. apply P. lia. Qed.

Lemma with_next_exists n s :
  S n < length (widgets s) -> with_next n s = s.
Proof.
  intros H. unfold with_next.
  destruct (Nat.eqb_spec (length (widgets s)) (S n)); [lia | reflexivity].
Qed.

Lemma next_behind n s s' :
  behind n s s' -> next n s' = Ok (S n, s').
Proof. intros [L _]. apply next_exists, L. Qed.

Ltac solve_combos :=
  let w := fresh "w" in
  intros w; destruct w as [? ? ? [? ? ? ? ?] [? ? ? ?] ? ? ? ? ? ? ?];
  cbn;
  repeat match goal with
         | |- context [if ?b then _ else _] => destruct b
         end;
  reflexivity.

Section Onward.

Variable R : Runtime.
Variable emit_changed : nat -> EncoderWidget -> result EncoderWidget.
Variable emit_currentIndexChanged :
  nat -> Combo -> EncoderWidget -> result EncoderWidget.

Hypothesis emit_changed_since : forall n s,
  wp (emit_changed n s) (since n s).

Hypothesis emit_currentIndexChanged_since : forall n c s,
  wp (emit_currentIndexChanged n c s) (since n s).

Lemma emit_modify_since n g s :
  (forall w, combos (g w) = combos w) ->
  wp (emit_changed n (modify n g s)) (since n s).
Proof.
  intros Hg s' E. pose proof (emit_changed_since _ _ _ E) as H.
  assert (Hn : n < length (widgets s))
    by (destruct H as (L & _); rewrite modify_length in L; exact L).
  eapply since_trans; [apply (since_modify n g s Hn Hg) | exact H].
Qed.

Lemma setPlainText_since n t s :
  wp (setPlainText emit_changed n t s) (since n s).
Proof. unfold setPlainText. apply emit_modify_since. solve_combos. Qed.

Lemma hex_field_set_content_since n d s :
  n < length (widgets s) ->
  wp (hex_field_set_content R emit_changed n d s) (since n s).
Proof.
  intros Hn. unfold hex_field_set_content. cbv zeta.
  destruct (hex_content_emits R).
  - apply emit_modify_since. solve_combos.
  - apply wp_Ok, since_modify; [exact Hn | solve_combos].
Qed.

Lemma content_setter_since n d s :
  wp (content_setter R emit_changed n d s) (since n s).
Proof.
  unfold content_setter. cbv zeta. apply wp_bind, wp_widget_at.
  intros w Hw. assert (Hn := lookup_lt _ _ _ Hw).
  rewrite modify_length in Hn.
  assert (H0 : since n s (modify n (set__content d) s))
    by (apply since_modify; [exact Hn | solve_combos]).
  destruct (hex_view w).
  - eapply wp_weaken; [apply hex_field_set_content_since |].
    + rewrite modify_length. exact Hn.
    + intros s' H. eapply since_trans; eauto.
  - eapply wp_weaken; [apply setPlainText_since |].
    intros s' H. eapply since_trans; [exact H0 |].
    eapply since_trans; [| exact H].
    destruct (negb _); [| apply since_refl; rewrite modify_length; exact Hn].
    apply since_modify; [rewrite modify_length; exact Hn | solve_combos].
Qed.

Lemma view_text_since n s :
  wp (view_text emit_changed n s) (since n s).
Proof.
  unfold view_text. cbv zeta. rewrite !modify_modify.
  apply wp_bind, wp_widget_at. intros w Hw.
  assert (Hn := lookup_lt _ _ _ Hw). rewrite modify_length in Hn.
  match goal with
  | |- context [modify n ?g' s] => set (g := g') in *
  end.
  assert (H0 : since n s (modify n g s))
    by (apply since_modify; [exact Hn | unfold g; solve_combos]).
  destruct (_content w).
  - apply wp_Ok, H0.
  - eapply wp_weaken; [apply setPlainText_since |].
    intros s' H. eapply since_trans; eauto.
Qed.

Lemma view_hex_since n s :
  wp (view_hex R emit_changed n s) (since n s).
Proof.
  unfold view_hex. cbv zeta. rewrite !modify_modify.
  apply wp_bind, wp_widget_at. intros w Hw.
  assert (Hn := lookup_lt _ _ _ Hw). rewrite modify_length in Hn.
  match goal with
  | |- context [modify n ?g' s] => set (g := g') in *
  end.
  assert (H0 : since n s (modify n g s))
    by (apply since_modify; [exact Hn | unfold g; solve_combos]).
  match goal with
  | |- wp (widget_at n ?t' ≫= _) _ => set (t := t')
  end.
  assert (H1 : since n s t).
  { unfold t. destruct (_content w); [| exact H0].
    eapply since_trans; [exact H0 |].
    apply since_modify; [rewrite modify_length; exact Hn | solve_combos]. }
  assert (Hn1 : n < length (widgets t)) by apply H1.
  clearbody t.
  apply wp_bind, wp_widget_at. intros w1 _.
  eapply wp_weaken; [apply hex_field_set_content_since, Hn1 |].
  intros s' H. eapply since_trans; eauto.
Qed.

Ltac next_step B :=
  rewrite (next_behind _ _ _ B); rewrite bind_Ok; cbv beta iota.

Lemma set_content_next_behind n d s :
  n < length (widgets s) ->
  wp (set_content_next R emit_changed n d s) (behind n s).
Proof.
  intros Hn. unfold set_content_next.
  rewrite (next_with_next n s Hn), bind_Ok. cbv beta iota.
  pose proof (behind_with_next n s Hn) as B0.
  apply wp_bind. eapply wp_weaken; [apply content_setter_since |].
  intros s1 H1. pose proof (since_behind _ _ _ _ B0 H1) as B1.
  next_step B1. next_step B1.
  apply wp_bind, wp_widget_at. intros w' _.
  apply wp_bind. eapply wp_weaken; [apply setPlainText_since |].
  intros s2 H2. pose proof (since_behind _ _ _ _ B1 H2) as B2.
  next_step B2. cbv zeta. unfold update_length_field.
  match goal with
  | |- context [modify (S n) ?g' s2] =>
    assert (B3 : behind n s (modify (S n) g' s2))
      by (apply behind_modify; [exact B2 | solve_combos])
  end.
  next_step B3.
  apply wp_bind, wp_widget_at. intros w _.
  destruct (hex_view w); [| apply wp_Ok, B3].
  next_step B3.
  eapply wp_weaken; [apply view_hex_since |].
  intros s3 H3. apply (since_behind _ _ _ _ B3 H3).
Qed.

Lemma set_error_next_behind n s :
  n < length (widgets s) ->
  wp (set_error_next n s) (behind n s).
Proof.
  intros Hn. unfold set_error_next.
  rewrite (next_with_next n s Hn), bind_Ok. cbv beta iota zeta.
  pose proof (behind_with_next n s Hn) as B0.
  match goal with
  | |- context [modify (S n) ?g' (with_next n s)] =>
    assert (B1 : behind n s (modify (S n) g' (with_next n s)))
      by (apply behind_modify; [exact B0 | solve_combos]);
    set (t := modify (S n) g' (with_next n s)) in *
  end.
  destruct B1 as [L1 O1].
  rewrite remove_next_widgets_take by exact L1.
  change (default n (Some (S n))) with (S n).
  destruct (Nat.leb_spec (S n + 1) (length (widgets t))) as [_ | ?]; [| lia].
  apply wp_Ok. split.
  - cbn [widgets]. rewrite length_take. lia.
  - eapply onward_trans; [exact O1 |]. apply onward_take. lia.
Qed.

Lemma above_refl n s : n < length (widgets s) -> above n s s.
Proof. intros H. split; [exact H |]. split; [exact H | apply onward_refl]. Qed.

Lemma above_behind n s s' s'' :
  above n s s' -> behind n s' s'' -> above n s s''.
Proof.
  intros (L & L' & O) [L2 O2]. split; [exact L |]. split; [lia |].
  eapply onward_trans; eauto.
Qed.

Lemma above_LOGGER_error n s s' e :
  above n s s' -> above n s (LOGGER_error e s').
Proof.
  intros (L & L' & O). split; [exact L |]. split; [exact L' |].
  eapply onward_trans; [exact O | apply onward_widgets; reflexivity].
Qed.

Lemma above_since n s s' : above n s s' -> since n s s'.
Proof.
  intros (L & L' & O). split; [exact L |]. split; [exact L' |].
  apply (onward_le n (S n)); [lia | exact O].
Qed.

Lemma set_content_next_above n d s s' (err : option string) :
  above n s s' ->
  wp (x ← set_content_next R emit_changed n d s'; mret (x, err))
    (fun p => above n s (fst p)).
Proof.
  intros A. apply wp_bind.
  eapply wp_weaken; [apply set_content_next_behind, A |].
  intros x B. apply wp_Ok. cbn [fst]. eapply above_behind; eauto.
Qed.

Lemma set_error_next_above n s s' e :
  above n s s' ->
  wp (set_error_next n (LOGGER_error e s')) (above n s).
Proof.
  intros A. pose proof (above_LOGGER_error n s s' e A) as A1.
  eapply wp_weaken; [apply set_error_next_behind, A1 |].
  intros x B. eapply above_behind; eauto.
Qed.

Lemma action_transform_parts n s :
  exists body : result (EncoderWidget * option string),
    (forall emit',
       action_transform R emit_changed emit' n s =
       ('(x, err) ← body; action_finish emit' n x err)) /\
    wp body (fun p => above n s (fst p)).
Proof.
  unfold action_transform.
  destruct (widget_at n s) as [w | e |] eqn:Ew;
    [| exists (Raise e); split; [reflexivity | intros ? ?; discriminate]
     | exists OutOfFuel; split; [reflexivity | intros ? ?; discriminate]].
  assert (A : above n s s)
    by (apply above_refl; eapply lookup_lt, widget_at_Ok, Ew).
  eexists. split; [intros emit'; rewrite bind_Ok; cbv zeta; reflexivity |].
  destruct (pick_in (current_pick w) (ENCODINGS R)).
  { apply wp_bind. intros c _. destruct (String.eqb _ _).
    - apply set_content_next_above, A.
    - destruct (decode R _ _) as [decoded [e |]].
      + apply wp_bind. eapply wp_weaken; [apply set_error_next_above, A |].
        intros x Ax. apply set_content_next_above, Ax.
      + rewrite bind_Ok. apply set_content_next_above, A. }
  destruct (pick_in (current_pick w) (COMPRESSIONS R)).
  { apply wp_bind. intros c _. destruct (String.eqb _ _).
    - apply set_content_next_above, A.
    - destruct (uncompress R _ _) as [decoded [e |]].
      + apply wp_bind. eapply wp_weaken; [apply set_error_next_above, A |].
        intros x Ax. apply set_content_next_above, Ax.
      + rewrite bind_Ok. apply set_content_next_above, A. }
  destruct (_ || _); [apply set_content_next_above, A |].
  destruct (pick_in _ _); [| apply wp_Ok, A].
  destruct (_ && _); [| apply wp_Ok, A].
  destruct (X509Certificate_decode R _) as [decoded | e].
  - apply set_content_next_above, A.
  - apply wp_bind. eapply wp_weaken; [apply set_error_next_above, A |].
    intros x Ax. apply wp_bind, wp_widget_at. intros w1 _.
    apply set_content_next_above, Ax.
Qed.

Lemma set_back_with_index c k w :
  k = 0 -> set_back w (set_combos (with_index c k (combos w)) w).
Proof.
  intros -> c'. destruct w as [? ? ? ? ? ? ? ? ? ? ? [? ? ? ? ? ?]].
  destruct c, c'; cbn; auto.
Qed.

Lemma action_finish_since n s err :
  wp (action_finish emit_currentIndexChanged n s err) (since n s).
Proof.
  unfold action_finish. apply wp_bind, wp_widget_at. intros w Hw.
  assert (Hn := lookup_lt _ _ _ Hw).
  apply wp_bind.
  apply (wp_weaken _ (since n s)).
  { destruct (current_combo w) as [c |]; [| apply wp_Ok, since_refl, Hn].
    unfold setCurrentIndex. rewrite (widget_at_Some _ _ _ Hw), bind_Ok.
    destruct (_ =? 0); [apply wp_Ok, since_refl, Hn |].
    intros s1 E. apply emit_currentIndexChanged_since in E.
    eapply since_trans; [| exact E].
    split; [exact Hn |]. split; [rewrite modify_length; exact Hn |].
    apply onward_modify; [lia |]. intros x. apply set_back_with_index.
    reflexivity. }
  intros s1 H1. pose proof H1 as (_ & Hn1 & _).
  rewrite (next_with_next n s1 Hn1), bind_Ok. cbv beta iota.
  pose proof (behind_with_next n s1 Hn1) as B0.
  apply wp_bind, wp_widget_at. intros wn _.
  apply wp_bind, wp_widget_at. intros w1 _.
  apply wp_bind.
  apply (wp_weaken _ (behind n s1)).
  { destruct (_ && _); [| apply wp_Ok, B0].
    next_step B0. apply wp_bind, wp_widget_at. intros w2 _. cbv zeta.
    match goal with
    | |- context [modify (S n) ?g' (with_next n s1)] =>
      assert (B1 : behind n s1 (modify (S n) g' (with_next n s1)))
        by (apply behind_modify; [exact B0 | solve_combos])
    end.
    next_step B1. apply wp_Ok.
    eapply behind_trans; [exact B1 |].
    split; [rewrite modify_length; apply B1 |].
    apply onward_modify; [lia |]. intros x. apply set_back_combos.
    destruct x. reflexivity. }
  intros s2 B2.
  assert (H2 : since n s s2)
    by (eapply since_trans; [exact H1 | apply behind_since; assumption]).
  destruct err; [apply wp_Ok, H2 |].
  next_step B2. apply wp_Ok.
  eapply since_trans; [exact H2 |].
  split; [apply H2 |]. split; [rewrite modify_length; apply H2 |].
  apply onward_modify; [lia |]. intros x. apply set_back_combos.
  destruct x as [? ? ? [? ? ? ? ?] ? ? ? ? ? ? ? ?]. reflexivity.
Qed.

Lemma action_transform_since n s :
  wp (action_transform R emit_changed emit_currentIndexChanged n s)
    (since n s).
Proof.
  destruct (action_transform_parts n s) as (body & E & Hb). rewrite E.
  apply wp_bind. eapply wp_weaken; [exact Hb |].
  intros [x err] A. cbn [fst] in A.
  eapply wp_weaken; [apply action_finish_since |].
  intros s' H. eapply since_trans; [apply above_since, A | exact H].
Qed.

Lemma action_step_since n combo s :
  wp (action_step R emit_changed emit_currentIndexChanged n combo s)
    (since n s).
Proof.
  unfold action_step. apply wp_bind, wp_widget_at. intros w Hw.
  assert (Hn := lookup_lt _ _ _ Hw). cbv zeta. fold (fill w n s).
  assert (H0 : since n s (fill w n s)).
  { unfold fill. destruct (_content w); [| apply since_refl, Hn].
    apply since_modify; [exact Hn | solve_combos]. }
  destruct combo as [c |].
  - apply wp_bind, wp_widget_at. intros w1 _.
    destruct (_ =? 0); [apply wp_Ok, H0 |].
    eapply wp_weaken; [apply action_transform_since |].
    intros s' H. eapply since_trans; [exact H0 |].
    eapply since_trans; [| exact H].
    apply since_modify; [apply H0 | solve_combos].
  - eapply wp_weaken; [apply action_transform_since |].
    intros s' H. eapply since_trans; eauto.
Qed.

Lemma field_content_changed_step_since n s :
  wp (field_content_changed_step R emit_changed emit_currentIndexChanged
        n s) (since n s).
Proof.
  unfold field_content_changed_step.
  apply wp_bind, wp_widget_at. intros w Hw.
  assert (Hn := lookup_lt _ _ _ Hw). cbv zeta.
  match goal with
  | |- wp (?m ≫= _) _ =>
    match m with
    | context [has_next n ?t'] => set (t := t')
    end
  end.
  assert (H0 : since n s t).
  { unfold t. destruct (action_panel_isHidden w); [| apply since_refl, Hn].
    apply since_modify; [exact Hn | solve_combos]. }
  assert (Hn0 : n < length (widgets t)) by apply H0. clearbody t.
  apply wp_bind. apply (wp_weaken _ (since n t)).
  { destruct (has_next n t) eqn:Hh; cbn [andb];
      [| apply wp_Ok, since_refl, Hn0].
    destruct (isReadOnly (text_field w)); cbn [negb].
    - eapply wp_weaken; [apply set_content_next_behind, Hn0 |].
      intros x B. apply behind_since; assumption.
    - rewrite remove_next_widgets_take by exact Hn0.
      change (default n None) with n.
      unfold has_next in Hh. apply negb_true_iff, Nat.eqb_neq in Hh.
      destruct (Nat.leb_spec (n + 2) (length (widgets t))) as [_ | ?];
        [| lia].
      apply wp_Ok. split; [exact Hn0 |]. split.
      + cbn [widgets]. rewrite length_take. lia.
      + apply onward_take. lia. }
  intros s1 H1. apply wp_bind, wp_widget_at. intros w1 _.
  unfold update_length_field, update_readonly_field.
  match goal with
  | |- wp (widget_at n ?t' ≫= _) _ => set (t1 := t')
  end.
  assert (H2 : since n s1 t1).
  { unfold t1.
    eapply since_trans;
      [| apply since_modify;
         [rewrite !modify_length;
          destruct (negb (isReadOnly (text_field w1)));
          [destruct (negb (hex_view w1)) |];
          rewrite ?modify_length; apply H1
         | solve_combos]].
    eapply since_trans;
      [| apply since_modify;
         [destruct (negb (isReadOnly (text_field w1)));
          [destruct (negb (hex_view w1)) |];
          rewrite ?modify_length; apply H1
         | solve_combos]].
    destruct (negb (isReadOnly (text_field w1)));
      [destruct (negb (hex_view w1)) |];
      try (apply since_modify; [apply H1 | solve_combos]).
    apply since_refl, H1. }
  clearbody t1.
  assert (H3 : since n s t1)
    by (eapply since_trans; [exact H0 |]; eapply since_trans; eauto).
  apply wp_bind, wp_widget_at. intros w2 _.
  destruct (_ && _); [| apply wp_Ok, H3].
  eapply wp_weaken; [apply action_step_since |].
  intros s' H. eapply since_trans; eauto.
Qed.

Lemma since_onward n s s' : since n s s' -> onward 0 s s'.
Proof. intros (_ & _ & O). apply (onward_le 0 n); [lia | exact O]. Qed.

Lemma remove_next_widgets_onward self widget offset s :
  wp (remove_next_widgets self widget offset s) (onward 0 s).
Proof.
  intros s' E. unfold remove_next_widgets in E. cbv zeta in E.
  destruct (Nat.ltb_spec (default self widget) (length (widgets s)))
    as [Hlt | ?]; [| discriminate].
  pose proof (remove_next_widgets_take self widget offset s Hlt) as E'.
  unfold remove_next_widgets in E'. cbv zeta in E'.
  destruct (Nat.ltb_spec (default self widget) (length (widgets s)))
    as [_ | ?]; [| lia].
  rewrite E' in E. injection E as <-. apply onward_take. lia.
Qed.

Lemma clear_content_step_onward self widget s :
  wp (clear_content_step R emit_changed self widget s) (onward 0 s).
Proof.
  unfold clear_content_step. cbv zeta. apply wp_bind.
  apply (wp_weaken _ (onward 0 s)).
  - destruct (0 =? default self widget) eqn:E0; [| apply wp_Ok, onward_refl].
    apply Nat.eqb_eq in E0. rewrite <- E0.
    apply wp_bind. eapply wp_weaken; [apply setPlainText_since |].
    intros s1 H1. apply wp_bind.
    eapply wp_weaken; [apply hex_field_set_content_since, H1 |].
    intros s2 H2. apply wp_Ok.
    unfold update_length_field, update_readonly_field.
    eapply onward_trans; [apply (since_onward _ _ _ H1) |].
    eapply onward_trans; [apply (since_onward _ _ _ H2) |].
    repeat (eapply onward_trans;
            [| apply onward_modify;
               [lia | intros x; apply set_back_combos; revert x;
                      solve_combos]]).
    apply onward_refl.
  - intros s1 O1. eapply wp_weaken; [apply remove_next_widgets_onward |].
    intros s2 O2. eapply onward_trans; eauto.
Qed.

Lemma move_content_to_root_step_onward self s :
  wp (move_content_to_root_step R emit_changed self s) (onward 0 s).
Proof.
  unfold move_content_to_root_step. apply wp_bind, wp_widget_at.
  intros w _. cbv zeta. apply wp_bind.
  eapply wp_weaken; [apply clear_content_step_onward |].
  intros s1 O1. eapply wp_weaken; [apply content_setter_since |].
  intros s2 H2. eapply onward_trans; [exact O1 | apply (since_onward _ _ _ H2)].
Qed.

Lemma set_root_content_step_onward data s :
  wp (set_root_content_step R emit_changed data s) (onward 0 s).
Proof.
  unfold set_root_content_step. destruct data; [apply wp_Ok, onward_refl |].
  eapply wp_weaken; [apply content_setter_since |].
  intros s' H. apply (since_onward _ _ _ H).
Qed.

End Onward.

(** [field_content_changed] and [action] of widget [n] leave the widgets
    before [n] as they are, and set no combo box to anything but its
    placeholder. *)
Lemma slots_since R fuel :
  (forall n s, wp (field_content_changed R fuel n s) (since n s)) /\
  (forall n c s, wp (action R fuel n c s) (since n s)).
Proof.
  induction fuel as [| fuel [IHf IHa]].
  - split; intros; intros ? ?; discriminate.
  - split.
    + intros n s. apply field_content_changed_step_since.
      * exact IHf.
      * intros k c t. apply IHa.
    + intros n c s. apply action_step_since.
      * exact IHf.
      * intros k c' t. apply IHa.
Qed.

Lemma onward_placeholders s s' :
  all_placeholders s -> onward 0 s s' -> all_placeholders s'.
Proof.
  intros Hs [_ Q] k w' Hw'.
  destruct (Q k w' ltac:(lia) Hw') as [Z | (w & Hw & Hb)]; [exact Z |].
  eapply set_back_placeholders; [apply (Hs k w Hw) | exact Hb].
Qed.

Lemma blur_all_onward s : onward 0 s (blur_all s).
Proof.
  split; [intros k Hk; lia |]. intros k w' _ H. right.
  rewrite blur_all_lookup in H. destruct (s @ k) as [w |]; [| discriminate].
  injection H as <-. exists w. split; [reflexivity |].
  apply set_back_combos. destruct w. reflexivity.
Qed.

(** What an event other than a selection changes. *)
Lemma handle_onward R fuel e s :
  match e with Select _ _ _ => False | _ => True end ->
  wp (handle R fuel e s) (onward 0 s).
Proof.
  pose proof (proj1 (slots_since R fuel)) as Hf.
  destruct e as [i t | i d | i c k | i | i | i | i | data | i | i |];
    intros He; [| | destruct He | ..]; cbn [handle].
  - apply wp_bind, wp_widget_at. intros w _.
    destruct (isReadOnly _); [apply wp_Ok, onward_refl |].
    eapply wp_weaken; [apply (setPlainText_since _ Hf) |].
    intros s' H. apply (since_onward _ _ _ H).
  - apply wp_bind, wp_widget_at. intros w _.
    destruct (_read_only _); [apply wp_Ok, onward_refl |].
    eapply wp_weaken; [apply Hf |].
    intros s' H. eapply onward_trans; [| apply (since_onward _ _ _ H)].
    apply onward_modify; [lia |]. intros x. apply set_back_combos.
    destruct x. reflexivity.
  - apply wp_bind, wp_widget_at. intros w _.
    apply (clear_content_step_onward R _ Hf).
  - apply (move_content_to_root_step_onward R _ Hf).
  - apply wp_bind, wp_widget_at. intros w _.
    eapply wp_weaken; [apply (view_text_since _ Hf) |].
    intros s' H. apply (since_onward _ _ _ H).
  - apply wp_bind, wp_widget_at. intros w _.
    eapply wp_weaken; [apply (view_hex_since R _ Hf) |].
    intros s' H. apply (since_onward _ _ _ H).
  - apply (set_root_content_step_onward R _ Hf).
  - apply wp_bind, wp_widget_at. intros w _. apply wp_Ok.
    eapply onward_trans; [apply blur_all_onward |].
    apply onward_modify; [lia |]. intros x. apply set_back_combos.
    destruct x. reflexivity.
  - apply wp_bind, wp_widget_at. intros w _. apply wp_Ok.
    eapply onward_trans; [apply blur_all_onward |].
    apply onward_modify; [lia |]. intros x. apply set_back_combos.
    destruct x. reflexivity.
  - apply wp_Ok, blur_all_onward.
Qed.

(** A selection: the combo box is set back at the end of [action]. *)
Lemma select_placeholders R fuel i c k s s' :
  inv s -> mu s < fuel -> all_placeholders s ->
  handle R fuel (Select i c k) s = Ok s' -> all_placeholders s'.
Proof.
  intros Hi Hmu Hz E. cbn [handle] in E.
  destruct ((k =? 0) || _) eqn:Ek; [injection E as <-; exact Hz |].
  apply orb_false_iff in Ek. destruct Ek as [Ek _].
  apply Nat.eqb_neq in Ek.
  unfold setCurrentIndex in E.
  destruct (bind_Ok_inv _ _ _ E) as (w & Ew & E1). clear E.
  apply widget_at_Ok in Ew. rewrite (Hz i w Ew c) in E1.
  destruct (Nat.eqb_spec 0 k) as [? | _]; [lia |].
  set (g := fun x => set_combos (with_index c k (combos x)) x) in E1.
  assert (Hw0 : modify i g s @ i = Some (g w))
    by (rewrite modify_eq, Ew; reflexivity).
  assert (Hk0 : currentIndex c (combos (g w)) = k)
    by (unfold g; destruct c; reflexivity).
  assert (Hi0 : inv (modify i g s)).
  { apply inv_modify; [exact Hi |]. intros x Hx. apply (Hi i x Hx). }
  destruct fuel as [| f]; [lia |].
  assert (Hmu0 : mu (modify i g s) <= i + f).
  { rewrite mu_modify; [lia |]. intros x _. reflexivity. }
  destruct (post_inv _ _
              (action_selected R f i c (modify i g s) (g w) Hi0 Hw0
                 ltac:(lia) Hmu0))
    as (s0 & E0 & _ & w' & Hw' & X & _).
  unfold emit_action in E1. rewrite E0 in E1. injection E1 as ->.
  pose proof (proj2 (slots_since R (S f)) i (Some c) (modify i g s) s' E0)
    as (_ & _ & [P Q]).
  intros j x Hx. destruct (decide (j < i)) as [Hlt | Hge].
  - rewrite P in Hx by exact Hlt. rewrite modify_ne in Hx by lia.
    apply (Hz j x Hx).
  - destruct (Q j x ltac:(lia) Hx) as [Z | (y & Hy & Hb)]; [exact Z |].
    destruct (decide (j = i)) as [-> | Hne].
    + rewrite Hw0 in Hy. injection Hy as <-.
      assert (x = w') by congruence. subst x.
      intros c'. destruct (Hb c') as [Ec | Ec]; [| exact Ec].
      rewrite Ec. destruct (decide (c' = c)) as [-> | Hc].
      * rewrite <- Ec. exact X.
      * pose proof (Hz i w Ew c') as Hz'. unfold g.
        destruct w as [? ? ? ? ? ? ? ? ? ? ? [? ? ? ? ? ?]].
        destruct c, c'; cbn in *; congruence.
    + rewrite modify_ne in Hy by lia.
      eapply set_back_placeholders; [apply (Hz j y Hy) | exact Hb].
Qed.

(** In every state the program reaches, every combo box shows its
    placeholder. *)
Lemma reachable_placeholders R s : reachable R s -> all_placeholders s.
Proof.
  induction 1 as [| s fuel e s' Hr IH Hmu He].
  - intros [| k] w Hw; [| discriminate]. injection Hw as <-.
    apply placeholders_init.
  - destruct e as [i t | i d | i c k | i | i | i | i | data | i | i |];
      try (eapply onward_placeholders;
           [exact IH
           | apply (fun H => handle_onward R fuel _ s H s' He); exact I]).
    apply (select_placeholders R fuel i c k s s'); auto.
    apply (reachable_chain_ok R s Hr).
Qed.

(** ** A combo box set back to its placeholder *)

Lemma fill_filled w i s :
  s @ i = Some w -> filled w = _content w -> fill w i s = s.
Proof.
  intros Hw Hf. rewrite (fill_eq w i s Hw), Hf.
  apply (modify_id s i _ w Hw). destruct w. reflexivity.
Qed.

(** The dispatch that resetting a combo box makes (line 454) returns the
    state it is given, when the buffer of the widget has been filled. *)
Lemma setCurrentIndex_silent R fuel i c s w :
  s @ i = Some w -> filled w = _content w ->
  setCurrentIndex (emit_action R (S fuel)) i c 0 s =
  setCurrentIndex silent i c 0 s.
Proof.
  intros Hw Hf. unfold setCurrentIndex.
  rewrite (widget_at_Some _ _ _ Hw), !bind_Ok.
  destruct (_ =? 0); [reflexivity |].
  set (g := fun x => set_combos (with_index c 0 (combos x)) x).
  assert (Hg : modify i g s @ i = Some (g w))
    by (rewrite modify_eq, Hw; reflexivity).
  unfold emit_action, silent.
  rewrite (action_placeholder R fuel i c _ (g w) Hg)
    by (unfold g; destruct w, c; reflexivity).
  f_equal. apply (fill_filled _ _ _ Hg).
  unfold g. destruct w. exact Hf.
Qed.

Lemma action_finish_silent R fuel i s w err :
  s @ i = Some w -> filled w = _content w ->
  action_finish (emit_action R (S fuel)) i s err =
  action_finish silent i s err.
Proof.
  intros Hw Hf. unfold action_finish.
  rewrite (widget_at_Some _ _ _ Hw), !bind_Ok.
  destruct (current_combo w) as [c |]; [| reflexivity].
  rewrite (setCurrentIndex_silent R fuel i c s w Hw Hf). reflexivity.
Qed.

Lemma action_transform_silent R fuel i s w :
  s @ i = Some w -> filled w = _content w ->
  action_transform R (field_content_changed R (S fuel))
    (emit_action R (S fuel)) i s =
  action_transform R (field_content_changed R (S fuel)) silent i s.
Proof.
  intros Hw Hf.
  destruct (action_transform_parts R (field_content_changed R (S fuel))
              (proj1 (slots_since R (S fuel))) i s) as (body & E & Hb).
  rewrite !E. apply bind_wp_ext. eapply wp_weaken; [exact Hb |].
  intros [x err] (_ & _ & [P _]). cbn [fst] in P.
  apply (action_finish_silent R fuel i x w).
  - rewrite P by lia. exact Hw.
  - exact Hf.
Qed.

(** ** Editing a stage that remembers an operation *)

(** [field_content_changed] of a widget that can be edited and that holds
    the focus and a remembered operation: it ends with [self.action()]. *)
Lemma field_content_changed_armed_eq R fuel n s w :
  s @ n = Some w -> isReadOnly (text_field w) = false -> armed w = true ->
  field_content_changed R (S fuel) n s =
  action R (S fuel) n None
    (modify n field_content_changed_local (truncate (n + 2) s)).
Proof.
  intros Hw Hro Ha. assert (Hn := lookup_lt _ _ _ Hw).
  change (action R (S fuel) n None)
    with (action_step R (field_content_changed R fuel)
            (fun self c => action R fuel self (Some c)) n None).
  simpl. unfold field_content_changed_step.
  rewrite (widget_at_Some _ _ _ Hw), bind_Ok. rewrite Hro.
  cbn [negb]. rewrite andb_true_r, andb_false_r.
  set (s0 := if action_panel_isHidden w
             then modify n (set_action_panel_isHidden false) s else s).
  set (w0 := if action_panel_isHidden w
             then set_action_panel_isHidden false w else w).
  assert (Hw0 : s0 @ n = Some w0).
  { unfold s0, w0. destruct (action_panel_isHidden w);
      [rewrite modify_eq, Hw; reflexivity | exact Hw]. }
  assert (Hs0 : truncate (n + 2) s0 =
                modify n (fun x => if action_panel_isHidden x
                                   then set_action_panel_isHidden false x
                                   else x) (truncate (n + 2) s)).
  { assert (Hwt : truncate (n + 2) s @ n = Some w)
      by (rewrite truncate_lookup by lia; exact Hw).
    unfold s0. destruct (action_panel_isHidden w) eqn:Eh.
    - rewrite truncate_modify. eapply modify_ext; [exact Hwt |].
      rewrite Eh. reflexivity.
    - symmetry. eapply modify_id; [exact Hwt |]. rewrite Eh. reflexivity. }
  assert (Hn0 : n < length (widgets s0)) by (eapply lookup_lt, Hw0).
  match goal with
  | |- context [?m ≫= _] =>
    match m with
    | context [remove_next_widgets] =>
      replace m with (Ok (truncate (n + 2) s0) : result EncoderWidget)
    end
  end.
  2:{ rewrite <- (remove_behind_follower n s0 Hn0).
      destruct (has_next n s0); reflexivity. }
  rewrite bind_Ok.
  assert (Hw1 : truncate (n + 2) s0 @ n = Some w0)
    by (rewrite truncate_lookup by lia; exact Hw0).
  rewrite Hs0 in *. clear Hs0.
  assert (Hwt : truncate (n + 2) s @ n = Some w)
    by (rewrite truncate_lookup by lia; exact Hw).
  generalize dependent (truncate (n + 2) s). intros t Hw1 Hwt.
  unfold update_readonly_field, update_length_field,
    field_content_changed_local.
  unfold armed, focused in Ha. subst w0. clear s0 Hw0 Hn0.
  destruct w as [? ? ? [? ro ? ? ?] [? ? ? ?] ? hv ah ? ? ? ?].
  cbn in Ha, Hro. subst ro.
  destruct ah, hv; run_widget Hwt; rewrite ?Ha; f_equal;
    (eapply modify_ext; [exact Hwt | reflexivity]).
Qed.

(** The follower of a stage that holds the focus, in a chain that the
    program has built, is read-only and does not dispatch. *)
Lemma focused_follower i s w x :
  chain_ok s -> s @ i = Some w -> focused w = true ->
  s @ (S i) = Some x ->
  isReadOnly (text_field x) = true /\ armed x = false.
Proof.
  intros (_ & _ & Hf & Hs & _) Hw Hfo Hx.
  split; [apply (Hf (S i) x); [lia | exact Hx] |].
  unfold armed. destruct (focused x) eqn:Fx; [| reflexivity].
  pose proof (Hs i (S i) w x Hw Hx Hfo Fx). lia.
Qed.

(** An edit of the text of a stage that can be edited, holds the focus
    and remembers [p]: [p] is applied to the new text. *)
Lemma edit_applies R f i s w p c t st :
  chain_ok s -> s @ i = Some w ->
  current_pick w = Some p -> current_combo w = Some c -> p <> "" ->
  isReadOnly (text_field w) = false -> hex_view w = false ->
  focused w = true -> applied R p c (utf8 t) st ->
  exists s',
    handle R (S (S f)) (Edit_text i t) s = Ok s' /\
    stages s' !! (S i) = Some st.
Proof.
  intros Hok Hw Hp Hc Hne Hro Hv Hfo Hst.
  assert (Hn := lookup_lt _ _ _ Hw).
  cbn [handle]. rewrite (widget_at_Some _ _ _ Hw), bind_Ok, Hro.
  unfold setPlainText.
  set (g := on_text_field (setPlainText_ t)).
  assert (Hg : modify i g s @ i = Some (g w))
    by (rewrite modify_eq, Hw; reflexivity).
  assert (Ht : truthy (Some p) = true)
    by (simpl; rewrite (String_eqb_false _ _ Hne); reflexivity).
  rewrite (field_content_changed_armed_eq R (S f) i _ (g w) Hg).
  2:{ rewrite <- Hro. unfold g.
      destruct w as [? ? ? [? ? ? ? ?] ? ? ? ? ? ? ? ?]. reflexivity. }
  2:{ unfold armed. replace (focused (g w)) with (focused w)
        by (unfold g; destruct w as [? ? ? [? ? ? ? ?] ? ? ? ? ? ? ? ?];
            reflexivity).
      replace (current_pick (g w)) with (current_pick w)
        by (unfold g; destruct w; reflexivity).
      rewrite Hfo, Hp, Ht. reflexivity. }
  rewrite truncate_modify, modify_modify.
  set (se := modify i (fun x => field_content_changed_local (g x))
               (truncate (i + 2) s)).
  set (we := setPlainText_local t w).
  assert (Hwe : se @ i = Some we).
  { unfold se. rewrite modify_eq, truncate_lookup, Hw by lia. reflexivity. }
  destruct (setPlainText_local_effect t w) as [_ He].
  destruct He as (_ & _ & _ & _ & Pe & Ce & _ & De & Te & _).
  fold we in Pe, Ce, De, Te. rewrite Hro, Hv in De.
  assert (Hsel : selection R None we = Some (p, c))
    by (unfold selection; rewrite Pe, Ce, Hp, Hc; reflexivity).
  assert (Hfi : filled we = utf8 t).
  { unfold filled. rewrite De, Te. destruct (utf8 t); reflexivity. }
  assert (Hfol : forall k x, S i <= k -> se @ k = Some x ->
                   isReadOnly (text_field x) = true /\ armed x = false).
  { intros k x Hk Hx. unfold se in Hx. rewrite modify_ne in Hx by lia.
    assert (k < i + 2).
    { apply lookup_lt_Some in Hx. unfold truncate in Hx.
      cbn [widgets] in Hx. rewrite length_take in Hx. lia. }
    rewrite truncate_lookup in Hx by lia.
    assert (k = S i) as -> by lia.
    apply (focused_follower i s w x Hok Hw Hfo Hx). }
  destruct Hst as [out Hs | out e Hs]; rewrite <- Hfi in Hs.
  - assert (Hq : quiet_from (S i) se).
    { intros k x Hk Hx. destruct (Hfol k x Hk Hx) as [Hr Ha].
      unfold quiet. rewrite Hr, Ha. reflexivity. }
    assert (Hl : length (widgets se) <= i + 2 + f).
    { unfold se. rewrite modify_length. unfold truncate. cbn [widgets].
      rewrite length_take. lia. }
    destruct (action_succeeds_cascade R f i None se we p c out
                Hwe Hsel Hne Hs Hq Hl)
      as (s' & E & _ & _ & _ & _ & H1 & _).
    exists s'. split; [exact E | exact H1].
  - assert (Hfa : isReadOnly (text_field (follower i se)) = true /\
                  armed (follower i se) = false).
    { unfold follower. destruct (se @ (S i)) as [x |] eqn:Hx.
      - apply (Hfol (S i) x (le_n _) Hx).
      - split; reflexivity. }
    destruct Hfa as [Hr Ha].
    destruct (post_inv _ _
                (action_fails R f i None se we p c out e Hwe Hsel Hs Ha))
      as (s' & E & _ & _ & _ & _ & T).
    exists s'. split; [exact E |].
    rewrite stages_lookup, T. cbn [fmap option_fmap option_map]. f_equal.
    apply failed_follower_stage; [exact Hr | exact Hne].
Qed.

(** * The claims on selections *)

(** ** The placeholder of a combo box *)

(** C9.  Selecting the placeholder of a combo box is a no-op.  The user
    cannot select it: entry 0 is disabled, and the event leaves the
    encoder as it is.  [action(combo)] with the placeholder current in
    [combo] fills the buffer of the widget from its text when the buffer
    is empty (lines 412-413) and returns at line 415; on a widget whose
    buffer has been filled it returns the encoder unchanged.  The program
    makes this call in one place only, when it sets the combo box back at
    the end of [action] (line 454), and there the buffer has been filled
    by the running call: whatever the state and the combo box, [action]
    gives the result it gives when that combo box calls no slot at
    all. *)
Theorem action_placeholder_stages R fuel i c combo s :
  handle R fuel (Select i c 0) s = Ok s /\
  (forall w, s @ i = Some w -> currentIndex c (combos w) = 0 ->
     filled w = _content w ->
     action R (S fuel) i (Some c) s = Ok s) /\
  action R (S (S fuel)) i combo s =
    action_step R (field_content_changed R (S fuel)) silent i combo s.
Proof.
  split; [reflexivity |]. split.
  { intros w Hw Hc Hf. rewrite (action_placeholder R fuel i c s w Hw Hc).
    f_equal. apply (fill_filled w i s Hw Hf). }
  change (action R (S (S fuel)) i combo s)
    with (action_step R (field_content_changed R (S fuel))
            (emit_action R (S fuel)) i combo s).
  unfold action_step.
  destruct (widget_at i s) as [w | e |] eqn:Ew; [| reflexivity ..].
  apply widget_at_Ok in Ew. rewrite !bind_Ok. cbv zeta. fold (fill w i s).
  rewrite (fill_eq w i s Ew).
  set (w1 := set__content (filled w) w).
  assert (Hw1 : modify i (set__content (filled w)) s @ i = Some w1)
    by (rewrite modify_eq, Ew; reflexivity).
  assert (Hf1 : filled w1 = _content w1).
  { unfold w1. rewrite (filled_twice w). destruct w. reflexivity. }
  destruct combo as [c0 |].
  - rewrite (widget_at_Some _ _ _ Hw1), !bind_Ok.
    destruct (_ =? 0); [reflexivity |].
    eapply action_transform_silent.
    + rewrite modify_eq, Hw1. reflexivity.
    + clear - Hf1. destruct w1. exact Hf1.
  - apply (action_transform_silent R fuel i _ w1 Hw1 Hf1).
Qed.

Lemma action_placeholder_stages_witness :
  handle with_openssl 5 (Select 0 encoding_combo 0) three_stages =
    Ok three_stages /\
  action with_openssl 1 0 (Some encoding_combo) three_stages =
    Ok three_stages.
Proof.
  destruct (action_placeholder_stages with_openssl 0 0 encoding_combo None
              three_stages) as (_ & H & _).
  split; [reflexivity |].
  apply (H (default (DeenWidget_init false true) (three_stages @ 0)));
    vm_compute; reflexivity.
Defined.

(** ** What a selection leaves behind *)

(** C4, amended.  In every state that the program reaches, a selection of
    entry [k] in a combo box returns; the combo box shows its placeholder
    again after it, and the widget remembers the operation in
    [current_pick] and the combo box in [current_combo].  Whenever later
    the text of the stage is edited while the stage remembers the
    operation and holds the focus in one of its fields, the operation is
    applied again, to the new text: the stage behind it holds the output,
    or the error mark when the operation fails. *)
Theorem select_remembers R fuel i c k s w :
  reachable R s -> s @ i = Some w ->
  0 < k < length (combo_items R c) -> mu s < fuel ->
  exists s' w' p,
    handle R fuel (Select i c k) s = Ok s' /\
    s' @ i = Some w' /\
    combo_items R c !! k = Some p /\
    currentIndex c (combos w') = 0 /\
    current_pick w' = Some p /\
    current_combo w' = Some c /\
    (p <> "" ->
     forall s2 w2 f t st,
       reachable R s2 -> s2 @ i = Some w2 ->
       current_pick w2 = Some p -> current_combo w2 = Some c ->
       isReadOnly (text_field w2) = false -> hex_view w2 = false ->
       focused w2 = true -> applied R p c (utf8 t) st ->
       exists s3,
         handle R (S (S f)) (Edit_text i t) s2 = Ok s3 /\
         stages s3 !! (S i) = Some st).
Proof.
  intros Hr Hw Hk Hmu.
  pose proof (reachable_chain_ok R s Hr) as (Hi & _).
  pose proof (reachable_placeholders R s Hr i w Hw c) as Hc.
  assert (E : exists s' w' p,
             handle R fuel (Select i c k) s = Ok s' /\
             s' @ i = Some w' /\
             combo_items R c !! k = Some p /\
             currentIndex c (combos w') = 0 /\
             current_pick w' = Some p /\
             current_combo w' = Some c).
  { cbn [handle].
    destruct (Nat.eqb_spec k 0) as [? | _]; [lia |].
    destruct (Nat.ltb_spec k (length (combo_items R c))) as [_ | ?]; [| lia].
    cbn [orb negb]. unfold setCurrentIndex.
    rewrite (widget_at_Some _ _ _ Hw), bind_Ok, Hc.
    destruct (Nat.eqb_spec 0 k) as [? | _]; [lia |].
    destruct fuel as [| f]; [lia |].
    set (g := fun x => set_combos (with_index c k (combos x)) x).
    assert (Hw0 : modify i g s @ i = Some (g w))
      by (rewrite modify_eq, Hw; reflexivity).
    assert (Hk0 : currentIndex c (combos (g w)) = k)
      by (unfold g; destruct c; reflexivity).
    assert (Hi0 : inv (modify i g s)).
    { apply inv_modify; [exact Hi |]. intros x Hx. apply (Hi i x Hx). }
    assert (Hmu0 : mu (modify i g s) <= i + f).
    { rewrite mu_modify; [lia |]. intros x _. reflexivity. }
    destruct (post_inv _ _
                (action_selected R f i c (modify i g s) (g w) Hi0 Hw0
                   ltac:(lia) Hmu0))
      as (s' & E & _ & w' & Hw' & X & P & C).
    destruct (lookup_lt_is_Some_2 (combo_items R c) k ltac:(lia)) as [p Hp].
    exists s', w', p. split; [exact E |]. split; [exact Hw' |].
    split; [exact Hp |]. split; [exact X |]. split; [| exact C].
    rewrite P. unfold currentText. rewrite Hk0, Hp. reflexivity. }
  destruct E as (s' & w' & p & E & Hw' & Hp & X & P & C).
  exists s', w', p. repeat (split; [assumption |]).
  intros Hne s2 w2 f t st Hr2 Hw2 P2 C2 Ro2 Hv2 Fo2 Hst.
  apply (edit_applies R f i s2 w2 p c t st); auto.
  apply (reachable_chain_ok R s2 Hr2).
Qed.

Lemma select_remembers_witness :
  exists s' s3,
    handle with_openssl 5 (Select 0 encoding_combo 1) typed_ab = Ok s' /\
    (current_pick <$> s' @ 0) = Some (Some "Hex") /\
    (currentIndex encoding_combo <$> (combos <$> s' @ 0)) = Some 0 /\
    handle with_openssl 5 (Edit_text 0 (codes "abc"))
      (after with_openssl 5
         [Edit_text 0 (codes "ab"); Select 0 encoding_combo 1;
          Focus_text 0]) = Ok s3 /\
    stages s3 !! 1 =
      Some (mkStage (codes "616263") false false (Some "Hex")).
Proof.
  destruct (select_remembers with_openssl 5 0 encoding_combo 1 typed_ab
              (default (DeenWidget_init false true) (typed_ab @ 0)))
    as (s' & w' & p & E & Hw' & Hp & X & P & C & Re).
  - apply after_reachable. vm_compute. reflexivity.
  - vm_compute. reflexivity.
  - vm_compute. lia.
  - vm_compute. lia.
  - assert (p = "Hex") as -> by (vm_compute in Hp; congruence).
    set (s2 := after with_openssl 5
                 [Edit_text 0 (codes "ab"); Select 0 encoding_combo 1;
                  Focus_text 0]).
    destruct (Re ltac:(discriminate) s2
                (default (DeenWidget_init false true) (s2 @ 0)) 3
                (codes "abc")
                (mkStage (codes "616263") false false (Some "Hex")))
      as (s3 & E3 & H3).
    + apply after_reachable. vm_compute. reflexivity.
    + vm_compute. reflexivity.
    + vm_compute. reflexivity.
    + vm_compute. reflexivity.
    + vm_compute. reflexivity.
    + vm_compute. reflexivity.
    + vm_compute. reflexivity.
    + replace (codes "616263")
        with (encode with_openssl "Hex" (utf8 (codes "abc")))
        by (vm_compute; reflexivity).
      apply applied_output, succeeds_encode; [left; reflexivity | reflexivity].
    + exists s', s3. split; [exact E |].
      split; [rewrite Hw'; cbn [fmap option_fmap option_map]; rewrite P;
              reflexivity |].
      split; [rewrite Hw'; cbn [fmap option_fmap option_map]; rewrite X;
              reflexivity |].
      split; [exact E3 | exact H3].
Defined.

(** C4 as stated fails: after the selection of [Hex] the widget still
    holds [Hex] in [current_pick], and the next text typed in the root is
    encoded without any selection. *)
Lemma edit_applies_again :
  exists s s',
    run with_openssl 5
      [Edit_text 0 (codes "ab"); Select 0 encoding_combo 1; Focus_text 0]
      EncoderWidget_init = Ok s /\
    (current_pick <$> s @ 0) = Some (Some "Hex") /\
    (content <$> stages s !! 1) = Some (codes "6162") /\
    handle with_openssl 5 (Edit_text 0 (codes "abc")) s = Ok s' /\
    stages s' !! 1 =
      Some (mkStage (codes "616263") false false (Some "Hex")).
Proof.
  evaluate.
Qed.
